(** * Grocery bot: batch confirmation and shopping state

    A shallow embedding of the grocery list service of the Telegram bot
    (models/GroceryItem.js, services/groceryService.js in its two
    generations, services/productCacheService.js, services/aiService.js
    and the callback handlers), with the properties of its batch life
    cycle, its shopping navigator and its line parser.

    Conventions of the embedding.
    - A JavaScript string is a [string] of bytes.  Character classes are
      the ASCII part of what the engine implements: white space is
      TAB, LF, VT, FF, CR and SPACE; digits are 0-9; the line terminators
      excluded by the dot of a regular expression are LF and CR.
    - The SQLite table grocery_items is a list of rows in rowid order.
    - An async method that reads or writes the table is a function in the
      monad [M]: it takes the database and returns a result or a thrown
      error together with the database as it was left.  The database
      itself does not fail, and the messages sent to the chat are kept
      only as the reply of a handler. *)

From Stdlib Require Import String Ascii List ZArith NArith Arith Bool Lia.
From Stdlib Require Import Sorted Permutation OrderedTypeEx.
Import ListNotations.

Local Open Scope list_scope.
Local Open Scope string_scope.

(** ** JavaScript strings *)

Module JsString.

(** White space as matched by [\s] and removed by [trim], among the
    characters up to U+007F; the others are listed at [wideSpaceAt]. *)
Definition isSpace (c : ascii) : bool :=
  let n := nat_of_ascii c in
  Nat.eqb n 9 || Nat.eqb n 10 || Nat.eqb n 11 || Nat.eqb n 12
  || Nat.eqb n 13 || Nat.eqb n 32.

(** [\d]. *)
Definition isDigit (c : ascii) : bool :=
  let n := nat_of_ascii c in Nat.leb 48 n && Nat.leb n 57.

(** The characters up to U+007F that the dot does not match; U+2028
    and U+2029 are with [wideSpaceAt]. *)
Definition isLineTerminator (c : ascii) : bool :=
  let n := nat_of_ascii c in Nat.eqb n 10 || Nat.eqb n 13.

Definition isEmpty (s : string) : bool :=
  match s with EmptyString => true | String _ _ => false end.

Fixpoint allb (p : ascii -> bool) (s : string) : bool :=
  match s with
  | EmptyString => true
  | String c r => p c && allb p r
  end.

Fixpoint trimStart (s : string) : string :=
  match s with
  | EmptyString => EmptyString
  | String c r => if isSpace c then trimStart r else s
  end.

Fixpoint trimEnd (s : string) : string :=
  match s with
  | EmptyString => EmptyString
  | String c r =>
      let r' := trimEnd r in
      if isSpace c && isEmpty r' then EmptyString else String c r'
  end.

(** [String.prototype.trim], on a text whose white space is below
    U+0080 ([plain]). *)
Definition trim (s : string) : string := trimEnd (trimStart s).

(** Lower-casing of the letters A-Z; this is all that SQLite's LOWER
    does, and it is [toLowerCase] on ASCII text. *)
Definition lowerChar (c : ascii) : ascii :=
  let n := nat_of_ascii c in
  if Nat.leb 65 n && Nat.leb n 90 then ascii_of_nat (n + 32) else c.

Fixpoint toLowerCase (s : string) : string :=
  match s with
  | EmptyString => EmptyString
  | String c r => String (lowerChar c) (toLowerCase r)
  end.

(** The longest prefix of characters satisfying [p], and the rest. *)
Fixpoint span (p : ascii -> bool) (s : string) : string * string :=
  match s with
  | EmptyString => (EmptyString, EmptyString)
  | String c r =>
      if p c then let '(a, b) := span p r in (String c a, b)
      else (EmptyString, s)
  end.

(** [split('\n')]: the pieces between line feeds; never empty. *)
Fixpoint splitLines (s : string) : list string :=
  match s with
  | EmptyString => [EmptyString]
  | String c r =>
      if Nat.eqb (nat_of_ascii c) 10 then EmptyString :: splitLines r
      else match splitLines r with
           | [] => [String c EmptyString]
           | l :: ls => String c l :: ls
           end
  end.

(** [join('\n')]. *)
Fixpoint joinLines (l : list string) : string :=
  match l with
  | [] => EmptyString
  | [x] => x
  | x :: r => x ++ String (ascii_of_nat 10) (joinLines r)
  end.

Definition digitValue (c : ascii) : N := N.of_nat (nat_of_ascii c - 48).

(** [parseInt] on a string of decimal digits (exact; the engine's
    doubles agree with it below 2^53). *)
Definition parseDigits (s : string) : N :=
  (fix go (acc : N) (s : string) : N :=
     match s with
     | EmptyString => acc
     | String c r => go (10 * acc + digitValue c)%N r
     end) 0%N s.

(** The first character of [s], if there is one, fails [p]. *)
Definition stopsAt (p : ascii -> bool) (s : string) : Prop :=
  match s with
  | EmptyString => True
  | String c _ => p c = false
  end.

(** No white space anywhere in [s]. *)
Definition noSpace (s : string) : bool :=
  allb (fun c => negb (isSpace c)) s.


(** [isSpace] and [isLineTerminator] are the white space and the line
    terminators of the engine up to U+007F.  The others are, in the
    UTF-8 bytes of a text: U+00A0 (C2 A0), U+1680 (E1 9A 80), U+2000 to
    U+200A (E2 80 80 to E2 80 8A), the line and paragraph separators
    U+2028 and U+2029 (E2 80 A8, E2 80 A9), U+202F (E2 80 AF), U+205F
    (E2 81 9F), U+3000 (E3 80 80) and U+FEFF (EF BB BF).  [wideSpaceAt s]
    says that [s] starts with one of them. *)
Definition wideSpaceAt (s : string) : bool :=
  match s with
  | String a (String b r) =>
      let x := nat_of_ascii a in
      let y := nat_of_ascii b in
      (Nat.eqb x 194 && Nat.eqb y 160)
      || match r with
         | String c _ =>
             let z := nat_of_ascii c in
             (Nat.eqb x 225 && Nat.eqb y 154 && Nat.eqb z 128)
             || (Nat.eqb x 226 && Nat.eqb y 128
                 && (Nat.leb 128 z && Nat.leb z 138
                     || Nat.eqb z 168 || Nat.eqb z 169 || Nat.eqb z 175))
             || (Nat.eqb x 226 && Nat.eqb y 129 && Nat.eqb z 159)
             || (Nat.eqb x 227 && Nat.eqb y 128 && Nat.eqb z 128)
             || (Nat.eqb x 239 && Nat.eqb y 187 && Nat.eqb z 191)
         | EmptyString => false
         end
  | _ => false
  end.

(** A text all of whose white space is below U+0080: on such a text
    [trim], [isSpace] and [isLineTerminator] are the engine's [trim],
    [\s] and the complement of the dot. *)
Fixpoint plain (s : string) : bool :=
  match s with
  | EmptyString => true
  | String _ r => negb (wideSpaceAt s) && plain r
  end.


End JsString.

Import JsString.

(** ** Plain objects used as maps
    The cache and the counters of the menus are plain objects: a lookup
    [o[k]] that finds no key of the object itself goes on to
    Object.prototype. *)

Module JsObject.

(** The names of the members of Object.prototype. *)
Definition member (k : string) : bool :=
  existsb (String.eqb k)
    [ "constructor"; "__proto__"; "hasOwnProperty"; "isPrototypeOf";
      "propertyIsEnumerable"; "toLocaleString"; "toString"; "valueOf";
      "__defineGetter__"; "__defineSetter__"; "__lookupGetter__";
      "__lookupSetter__" ].

End JsObject.

(** ** The line parser of the product cache
    (services/productCacheService.js) *)

Module ProductCache.

Record ParsedLine := { quantity : N; product : string }.

Definition dotAll (s : string) : bool :=
  allb (fun c => negb (isLineTerminator c)) s.

(** What [(.+)$] may take after [\s+] has matched: [w] is the white space
    that [\s+] can still give back, [rest] what follows it.  The greedy
    [\s+] keeps as much as it can, so the candidates are tried from the
    shortest group to the longest. *)
Fixpoint giveBack (w rest : string) : option string :=
  match w with
  | EmptyString =>
      if negb (isEmpty rest) && dotAll rest then Some rest else None
  | String c w' =>
      match giveBack w' rest with
      | Some g => Some g
      | None => if dotAll (w ++ rest) then Some (w ++ rest) else None
      end
  end.

(** The groups of [/^(\d+)\s+(.+)$/u].  [\d+] takes the whole leading run
    of digits: after a shorter one comes a digit, which [\s] refuses. *)
Definition matchQtyFirst (s : string) : option (string * string) :=
  let '(ds, r1) := span isDigit s in
  if isEmpty ds then None
  else match r1 with
       | EmptyString => None
       | String c r =>
           if isSpace c then
             let '(w, rest) := span isSpace r in
             option_map (fun g => (ds, g)) (giveBack w rest)
           else None
       end.

(** [^\s+\d+$]: white space, then digits up to the end. *)
Definition spaceDigits (s : string) : option string :=
  let '(ws, r1) := span isSpace s in
  let '(ds, r2) := span isDigit r1 in
  if negb (isEmpty ws) && negb (isEmpty ds) && isEmpty r2
  then Some ds else None.

(** The groups of [/^(.+)\s+(\d+)$/u].  The greedy [.+] is tried from
    its longest extent down: the first character is always in the
    group, and a longer group is preferred to the one-character one. *)
Fixpoint matchQtyLast (s : string) : option (string * string) :=
  match s with
  | EmptyString => None
  | String c r =>
      if isLineTerminator c then None
      else match matchQtyLast r with
           | Some (p, d) => Some (String c p, d)
           | None =>
               match spaceDigits r with
               | Some d => Some (String c EmptyString, d)
               | None => None
               end
           end
  end.

(** Pattern 1 of [parseLineForProduct], quantity first.  [parseInt] of
    a group of digits is never NaN, so of the two guards only the length
    test can fail. *)
Definition qtyFirstMatch (trimmed : string) : option ParsedLine :=
  match matchQtyFirst trimmed with
  | Some (g1, g2) =>
      let qty := parseDigits g1 in
      let product := trim g2 in
      if negb (isEmpty product)
      then Some {| quantity := qty; product := product |}
      else None
  | None => None
  end.

(** Pattern 2, quantity last. *)
Definition qtyLastMatch (trimmed : string) : option ParsedLine :=
  match matchQtyLast trimmed with
  | Some (g1, g2) =>
      let product := trim g1 in
      let qty := parseDigits g2 in
      if negb (isEmpty product)
      then Some {| quantity := qty; product := product |}
      else None
  | None => None
  end.

(** [parseLineForProduct(line)]. *)
Definition parseLineForProduct (line : string) : ParsedLine :=
  let trimmed := trim line in
  match qtyFirstMatch trimmed with
  | Some r => r
  | None =>
      match qtyLastMatch trimmed with
      | Some r => r
      | None => {| quantity := 1; product := trimmed |}
      end
  end.

End ProductCache.

(** ** Stable sorting
    [ORDER BY] and [Array.prototype.sort] are modelled by one stable
    insertion sort; [leb a b] says that [a] may stay before [b]. *)

Section Sorting.
Context {A : Type} (leb : A -> A -> bool).

Fixpoint insertBy (x : A) (l : list A) : list A :=
  match l with
  | [] => [x]
  | y :: r => if leb x y then x :: l else y :: insertBy x r
  end.

Fixpoint sortBy (l : list A) : list A :=
  match l with
  | [] => []
  | x :: r => insertBy x (sortBy r)
  end.
End Sorting.

(** ** The table and its model class (the schema of the database
    configuration, models/GroceryItem.js) *)

Module Model.

(** A row of grocery_items, the data handed to the constructor, and the
    object the constructor builds all have this shape.  A field that
    JavaScript would find undefined holds the falsy value of its type:
    [id = 0], [quantity = 0], [status = ""]; [batch_id] and [note] are
    NULL as [None].  The column updated_at is written but never read and
    is left out. *)
Record GroceryItem := {
  id : nat;
  article : string;
  quantity : Z;
  category : string;
  status : string;
  batch_id : option string;
  created_at : nat;
  note : option string
}.

(** [new GroceryItem(data)]: [quantity || 1], [status || 'pending'];
    the constructor does not copy [note]. *)
Definition newGroceryItem (data : GroceryItem) : GroceryItem :=
  {| id := id data;
     article := article data;
     quantity := if Z.eqb (quantity data) 0 then 1%Z else quantity data;
     category := category data;
     status := if isEmpty (status data) then "pending" else status data;
     batch_id := batch_id data;
     created_at := created_at data;
     note := None |}.

(** The database: the table in rowid order, the AUTOINCREMENT counter
    kept in sqlite_sequence, and the clock read by CURRENT_TIMESTAMP. *)
Record Database := {
  grocery_items : list GroceryItem;
  sqlite_sequence : nat;
  clock : nat
}.

Definition withRows (db : Database) (rows : list GroceryItem) : Database :=
  {| grocery_items := rows;
     sqlite_sequence := sqlite_sequence db;
     clock := clock db |}.

(** What the service throws. *)
Inductive AiFailure :=
| RequestFailed          (* generateContent or response.text() threw *)
| NotValidJson           (* 'AI response was not valid JSON' *)
| NotAnArray             (* 'AI response was not an array' *)
| MissingRequiredFields  (* 'AI response missing required fields' *)
| EntryTypeError.        (* a TypeError on an entry: null, or a field
                            that is truthy but has no trim method *)

Inductive Error :=
| ItemNotFound (itemId : nat)
    (* `Item with ID ${itemId} not found` *)
| NotConfirming (itemId : nat) (st : string)
    (* `Item ${itemId} has status '${st}' instead of 'confirming'` *)
| FailedToParse (cause : AiFailure).
    (* `Failed to parse grocery items: ${error.message}` *)

Inductive Outcome (A : Type) :=
| Returned (a : A)
| Thrown (e : Error).
Arguments Returned {A} a.
Arguments Thrown {A} e.

(** An async method: the database goes in, the outcome and the database
    as it was left come out.  A throw keeps the writes made before it. *)
Definition M (A : Type) : Type := Database -> Outcome A * Database.

Definition ret {A} (a : A) : M A := fun db => (Returned a, db).
Definition throw {A} (e : Error) : M A := fun db => (Thrown e, db).
Definition bind {A B} (c : M A) (k : A -> M B) : M B :=
  fun db =>
    match c db with
    | (Returned a, db') => k a db'
    | (Thrown e, db') => (Thrown e, db')
    end.
Definition catch {A} (c : M A) (h : Error -> M A) : M A :=
  fun db =>
    match c db with
    | (Returned a, db') => (Returned a, db')
    | (Thrown e, db') => h e db'
    end.
Definition query {A} (f : Database -> A) : M A :=
  fun db => (Returned (f db), db).
Definition run {A} (f : Database -> A * Database) : M A :=
  fun db => let '(a, db') := f db in (Returned a, db').

Declare Scope js_scope.
Delimit Scope js_scope with js.
Notation "x <- c ;; k" := (bind c (fun x => k))
  (at level 61, c at next level, right associativity) : js_scope.
Local Open Scope js_scope.

(** [for (const x of xs) { ... }] with an accumulator. *)
Fixpoint forEach {A B} (xs : list A) (acc : B) (body : B -> A -> M B) : M B :=
  match xs with
  | [] => ret acc
  | x :: r => acc' <- body acc x ;; forEach r acc' body
  end.

Definition sameBatch (a b : option string) : bool :=
  match a, b with
  | Some x, Some y => String.eqb x y
  | None, None => true
  | _, _ => false
  end.

(** *** SQL *)

Definition maxId (rows : list GroceryItem) : nat :=
  fold_right (fun r m => Nat.max (id r) m) 0 rows.

(** [WHERE batch_id = ?] with a text parameter: NULL never compares
    equal. *)
Definition batchIs (b : string) (r : GroceryItem) : bool :=
  match batch_id r with
  | Some x => String.eqb x b
  | None => false
  end.

(** [ORDER BY created_at DESC] and [ASC].  SQLite does not say in which
    order rows with equal times come; here they keep the order of the
    table. *)
Definition orderByCreatedDesc (rows : list GroceryItem) : list GroceryItem :=
  sortBy (fun a b => Nat.leb (created_at b) (created_at a)) rows.

Definition orderByCreatedAsc (rows : list GroceryItem) : list GroceryItem :=
  sortBy (fun a b => Nat.leb (created_at a) (created_at b)) rows.

(** [database.get]: the first row of the result. *)
Definition firstRow (p : GroceryItem -> bool) (db : Database)
  : option GroceryItem :=
  find p (grocery_items db).

(** [UPDATE ... WHERE p] applying [f], with [result.changes]. *)
Definition sqlUpdate (p : GroceryItem -> bool) (f : GroceryItem -> GroceryItem)
    (db : Database) : nat * Database :=
  (length (filter p (grocery_items db)),
   withRows db (map (fun r => if p r then f r else r) (grocery_items db))).

(** [DELETE ... WHERE p], with [result.changes]. *)
Definition sqlDelete (p : GroceryItem -> bool) (db : Database)
  : nat * Database :=
  (length (filter p (grocery_items db)),
   withRows db (filter (fun r => negb (p r)) (grocery_items db))).

(** [INSERT INTO grocery_items (article, quantity, category, status,
    batch_id)]: AUTOINCREMENT takes the next id above the counter and
    above every rowid in use; note is NULL, created_at is now. *)
Definition sqlInsert (it : GroceryItem) (db : Database) : nat * Database :=
  let newId := S (Nat.max (sqlite_sequence db) (maxId (grocery_items db))) in
  (newId,
   {| grocery_items :=
        (grocery_items db ++
         [ {| id := newId; article := article it; quantity := quantity it;
              category := category it; status := status it;
              batch_id := batch_id it; created_at := clock db;
              note := None |} ])%list;
      sqlite_sequence := newId;
      clock := clock db |}).

(** The table as SQLite keeps it: id is a primary key, and AUTOINCREMENT
    starts at 1. *)
Definition wellFormed (db : Database) : Prop :=
  NoDup (map id (grocery_items db))
  /\ Forall (fun r => id r <> 0) (grocery_items db).

(** *** Methods of GroceryItem *)

Definition setId (it : GroceryItem) (i : nat) : GroceryItem :=
  {| id := i; article := article it; quantity := quantity it;
     category := category it; status := status it;
     batch_id := batch_id it; created_at := created_at it;
     note := note it |}.

(** The row [r] after [UPDATE grocery_items SET article = ?, quantity = ?,
    category = ?, status = ?, batch_id = ? WHERE id = ?] with the fields
    of [this]. *)
Definition stored (this r : GroceryItem) : GroceryItem :=
  {| id := id r; article := article this; quantity := quantity this;
     category := category this; status := status this;
     batch_id := batch_id this; created_at := created_at r;
     note := note r |}.

(** [save()]: an object with a truthy id updates its row, another one is
    inserted and gets its id.  The result is the object after the call. *)
Definition save (this : GroceryItem) : M GroceryItem :=
  if Nat.eqb (id this) 0 then
    newId <- run (sqlInsert this) ;;
    ret (setId this newId)
  else
    _ <- run (sqlUpdate (fun r => Nat.eqb (id r) (id this)) (stored this)) ;;
    ret this.

Definition findAll : M (list GroceryItem) :=
  query (fun db => map newGroceryItem (orderByCreatedDesc (grocery_items db))).

Definition findByStatus (st : string) : M (list GroceryItem) :=
  query (fun db =>
    map newGroceryItem
      (orderByCreatedDesc
         (filter (fun r => String.eqb (status r) st) (grocery_items db)))).

(** [SELECT * FROM grocery_items WHERE id = ?], first row. *)
Definition rowById (i : nat) (db : Database) : option GroceryItem :=
  firstRow (fun r => Nat.eqb (id r) i) db.

Definition findById (i : nat) : M (option GroceryItem) :=
  query (fun db => option_map newGroceryItem (rowById i db)).

Definition setStatus (st : string) (r : GroceryItem) : GroceryItem :=
  {| id := id r; article := article r; quantity := quantity r;
     category := category r; status := st; batch_id := batch_id r;
     created_at := created_at r; note := note r |}.

Definition updateStatus (i : nat) (st : string) : M bool :=
  changes <- run (sqlUpdate (fun r => Nat.eqb (id r) i) (setStatus st)) ;;
  ret (Nat.ltb 0 changes).

Definition deleteByStatus (st : string) : M nat :=
  run (sqlDelete (fun r => String.eqb (status r) st)).

Definition clearAll : M nat := run (sqlDelete (fun _ => true)).

(** [WHERE LOWER(article) = LOWER(?)] *)
Definition sameArticle (a : string) (r : GroceryItem) : bool :=
  String.eqb (toLowerCase (article r)) (toLowerCase a).

Definition rowByArticle (a : string) (db : Database) : option GroceryItem :=
  firstRow (sameArticle a) db.

(** [findByArticle]: the first row with that name, case apart. *)
Definition findByArticle (a : string) : M (option GroceryItem) :=
  query (fun db => option_map newGroceryItem (rowByArticle a db)).

(** [delete()]: false without touching the table when the id is falsy. *)
Definition delete (this : GroceryItem) : M bool :=
  if Nat.eqb (id this) 0 then ret false
  else
    changes <- run (sqlDelete (fun r => Nat.eqb (id r) (id this))) ;;
    ret (Nat.ltb 0 changes).

Definition findByBatchId (b : string) : M (list GroceryItem) :=
  query (fun db =>
    map newGroceryItem
      (orderByCreatedAsc (filter (batchIs b) (grocery_items db)))).

Definition findByBatchIdAndStatus (b st : string) : M (list GroceryItem) :=
  query (fun db =>
    map newGroceryItem
      (orderByCreatedAsc
         (filter (fun r => batchIs b r && String.eqb (status r) st)
            (grocery_items db)))).

End Model.

Import Model.
Local Open Scope js_scope.

(** ** The product cache as a parser (services/productCacheService.js) *)

Module CacheService.

Record Product := {
  correctName : string;
  productCategory : string;
  variants : option (list string)    (* [None]: the field is missing *)
}.

(** The cache object: its entries in insertion order. *)
Definition Cache := list (string * Product).

(** An entry of the lists the parsers exchange;
    [originalInput = ""] stands for a field not set. *)
Record ParsedItem := {
  p_article : string;
  p_quantity : Z;
  p_category : string;
  originalInput : string
}.

(** [text.toLowerCase().trim()], as the engine computes it on ASCII
    text. *)
Definition normalizeText (text : string) : string := trim (toLowerCase text).

Definition includes (l : list string) (x : string) : bool :=
  existsb (String.eqb x) l.

(** [findProduct] from its second line on, [normalized] being the
    normalised name: the key first, then the first entry with the
    variant.  The cache is read by its own entries; for a key that it
    does not hold and that names a member of Object.prototype
    ([JsObject.member]) the code answers with that member. *)
Definition findNormalized (cache : Cache) (normalized : string)
  : option Product :=
  match find (fun kv => String.eqb (fst kv) normalized) cache with
  | Some kv => Some (snd kv)
  | None =>
      option_map snd
        (find (fun kv =>
                 match variants (snd kv) with
                 | Some vs => includes vs normalized
                 | None => false
                 end) cache)
  end.

(** [findProduct(productName)] *)
Definition findProduct (cache : Cache) (productName : string) : option Product :=
  findNormalized cache (normalizeText productName).

(** [parseWithCache]: the cached items and the lines left for the AI. *)
Definition parseWithCache (cache : Cache) (groceryText : string)
  : list ParsedItem * list string :=
  let lines :=
    filter (fun line => negb (isEmpty (trim line))) (splitLines groceryText) in
  fold_left
    (fun '(cachedItems, unparsedLines) line =>
       let parsed := ProductCache.parseLineForProduct line in
       match findProduct cache (ProductCache.product parsed) with
       | Some cachedProduct =>
           ((cachedItems ++
             [ {| p_article := correctName cachedProduct;
                  p_quantity := Z.of_N (ProductCache.quantity parsed);
                  p_category := productCategory cachedProduct;
                  originalInput := trim line |} ])%list,
            unparsedLines)
       | None => (cachedItems, (unparsedLines ++ [line])%list)
       end)
    lines ([], []).

End CacheService.

Import CacheService.

(** ** The AI collaborator (services/aiService.js) *)

Module AiService.

(** A field of an entry of the answer, as far as the validation looks at
    it. *)
Inductive JsField :=
| Falsy                 (* undefined, null, 0, false, NaN *)
| TruthyNonString       (* a number, an object, ...: no trim method *)
| Str (s : string).     (* a string; the empty one is falsy *)

Inductive Entry :=
| NullEntry             (* null: reading a property throws *)
| Obj (e_article : JsField) (e_quantity : option Z) (e_category : JsField).
    (* [e_quantity]: parseInt(item.quantity), [None] for NaN *)

(** What comes back from the model, after the code fences are removed
    and JSON.parse has run. *)
Inductive Answer :=
| NoAnswer                      (* the request threw *)
| Garbage                       (* JSON.parse threw *)
| NonArray                      (* valid JSON, not an array *)
| Array (entries : list Entry).

Definition truthy (f : JsField) : bool :=
  match f with
  | Falsy => false
  | TruthyNonString => true
  | Str s => negb (isEmpty s)
  end.

(** The body of [parsedItems.map(item => ...)]. *)
Definition validateItem (item : Entry) : AiFailure + ParsedItem :=
  match item with
  | NullEntry => inl EntryTypeError
  | Obj a q c =>
      if negb (truthy a) || negb (truthy c) then inl MissingRequiredFields
      else
        match a, c with
        | Str sa, Str sc =>
            inr {| p_article := trim sa;
                   p_quantity := match q with
                                 | Some n => if Z.eqb n 0 then 1%Z else n
                                 | None => 1%Z
                                 end;
                   p_category := trim sc;
                   originalInput := "" |}
        | _, _ => inl EntryTypeError
        end
  end.

Fixpoint validateItems (items : list Entry) : AiFailure + list ParsedItem :=
  match items with
  | [] => inr []
  | item :: rest =>
      match validateItem item with
      | inl e => inl e
      | inr v =>
          match validateItems rest with
          | inl e => inl e
          | inr vs => inr (v :: vs)
          end
      end
  end.

(** [parseGroceryItems(groceryText)]; [gemini] is the model behind
    generateContent.  Every failure leaves as one wrapped error. *)
Definition parseGroceryItems (gemini : string -> Answer) (groceryText : string)
  : M (list ParsedItem) :=
  match gemini groceryText with
  | NoAnswer => throw (FailedToParse RequestFailed)
  | Garbage => throw (FailedToParse NotValidJson)
  | NonArray => throw (FailedToParse NotAnArray)
  | Array parsedItems =>
      match validateItems parsedItems with
      | inl e => throw (FailedToParse e)
      | inr validatedItems => ret validatedItems
      end
  end.

(** An entry without article or category (null has neither). *)
Definition missingRequiredField (item : Entry) : bool :=
  match item with
  | NullEntry => true
  | Obj a _ c => negb (truthy a) || negb (truthy c)
  end.

(** The failures of the collaborator: no answer, an answer that is not
    JSON, JSON that is not an array, an array with an entry that misses
    a required field. *)
Definition answerFails (a : Answer) : bool :=
  match a with
  | NoAnswer | Garbage | NonArray => true
  | Array entries => existsb missingRequiredField entries
  end.

End AiService.

Import AiService.

(** ** The grocery service *)

(** [for (const newItem of parsedItems)] of parseItemsForConfirmation:
    entries without article or category are skipped, the others saved
    with the given status and batch id.  The constructor does not read
    the original_input it is handed. *)
Definition saveParsedItems (st : string) (batchId : string)
    (parsedItems : list ParsedItem) : M (list GroceryItem) :=
  forEach parsedItems []
    (fun added newItem =>
       if isEmpty (p_article newItem) || isEmpty (p_category newItem)
       then ret added
       else
         groceryItem <- save (newGroceryItem
           {| id := 0; article := p_article newItem;
              quantity := p_quantity newItem;
              category := p_category newItem;
              status := st; batch_id := Some batchId;
              created_at := 0; note := None |}) ;;
         ret (added ++ [groceryItem])%list).

Definition setPending (it : GroceryItem) : GroceryItem := setStatus "pending" it.

(** The assignments to [existingItem] in the merge branch of
    confirmItemFromBatch. *)
Definition mergeInto (existingItem tempItem : GroceryItem) : GroceryItem :=
  {| id := id existingItem;
     article := article existingItem;
     quantity := (quantity existingItem + quantity tempItem)%Z;
     category := category tempItem;
     status :=
       if String.eqb (status existingItem) "not_found"
          || String.eqb (status existingItem) "found"
       then "pending" else status existingItem;
     batch_id := batch_id tempItem;
     created_at := created_at existingItem;
     note := note existingItem |}.

(** [confirmItemFromBatch(itemId)], the same text in both generations of
    the service. *)
Definition confirmItemFromBatch (itemId : nat) : M GroceryItem :=
  tempItem <- findById itemId ;;
  match tempItem with
  | None => throw (ItemNotFound itemId)
  | Some tempItem =>
      if negb (String.eqb (status tempItem) "confirming") then
        if String.eqb (status tempItem) "pending" then ret tempItem
        else throw (NotConfirming itemId (status tempItem))
      else
        existingItem <- findByArticle (article tempItem) ;;
        match existingItem with
        | Some existingItem =>
            if negb (sameBatch (batch_id existingItem) (batch_id tempItem)) then
              let existingItem := mergeInto existingItem tempItem in
              _ <- save existingItem ;;
              _ <- delete tempItem ;;
              ret existingItem
            else
              _ <- save (setPending tempItem) ;;
              ret (setPending tempItem)
        | None =>
            _ <- save (setPending tempItem) ;;
            ret (setPending tempItem)
        end
  end.

(** [for (const item of items) { if (await item.delete()) deletedCount++ }] *)
Definition deleteEach (items : list GroceryItem) : M nat :=
  forEach items 0
    (fun deletedCount item =>
       success <- delete item ;;
       ret (if success : bool then S deletedCount else deletedCount)).

Definition updateItemStatus (itemId : nat) (newStatus : string) : M bool :=
  updateStatus itemId newStatus.

Definition clearFoundItems : M nat := deleteByStatus "found".

Definition clearSelection : M nat :=
  selectedItems <- findByStatus "selected" ;;
  forEach selectedItems 0
    (fun updatedCount item =>
       success <- updateStatus (id item) "pending" ;;
       ret (if success : bool then S updatedCount else updatedCount)).

(** [groupItemsByCategory]: the object built by the reduce, as its
    entries in insertion order (the order in which an object lists keys
    that are not array indices, as category labels are).  For a key
    that names a member of Object.prototype ([JsObject.member]) the
    reduce of the source finds that member in place of a list and ends
    in a TypeError; the statements about the groups leave such keys
    out. *)
Definition categoryKey (item : GroceryItem) : string :=
  if isEmpty (category item) then "Sans catégorie" else category item.

Fixpoint pushInto (acc : list (string * list GroceryItem))
    (k : string) (item : GroceryItem) : list (string * list GroceryItem) :=
  match acc with
  | [] => [(k, [item])]
  | (k', l) :: r =>
      if String.eqb k' k then (k', (l ++ [item])%list) :: r
      else (k', l) :: pushInto r k item
  end.

Definition groupItemsByCategory (items : list GroceryItem)
  : list (string * list GroceryItem) :=
  fold_left (fun acc item => pushInto acc (categoryKey item) item) items [].


Record SortedItems := {
  allItems : list GroceryItem;
  activeItems : list GroceryItem;
  foundItems : list GroceryItem;
  grouped : list (string * list GroceryItem)
}.

Section Locale.
(** [x.toLowerCase().localeCompare(y.toLowerCase())], by its sign: the
    lower-casing and the collation are the engine's. *)
Variable compareLowered : string -> string -> comparison.

(** The comparator handed to [activeItems.sort]: [a] stays before [b]
    unless the comparison is positive. *)
Definition byCategory (a b : GroceryItem) : bool :=
  match compareLowered (category a) (category b) with
  | Gt => false
  | _ => true
  end.

(** [getAllItemsSorted()], the same text in both generations. *)
Definition getAllItemsSorted : M SortedItems :=
  allItems <- findAll ;;
  let foundItems := filter (fun item => String.eqb (status item) "found") allItems in
  let activeItems :=
    sortBy byCategory
      (filter (fun item => negb (String.eqb (status item) "found")) allItems) in
  ret {| allItems := allItems;
         activeItems := activeItems;
         foundItems := foundItems;
         grouped := groupItemsByCategory activeItems |}.
End Locale.

(** One of the ids of [ids] is the id of [r]. *)
Definition hasIdIn (ids : list nat) (r : GroceryItem) : bool :=
  existsb (Nat.eqb (id r)) ids.

(** The rows that [cancelBatch] of the explicit-confirmation service
    looks for. *)
Definition unconfirmedOf (batchId : string) (r : GroceryItem) : bool :=
  batchIs batchId r && String.eqb (status r) "confirming".

(** *** The explicit-confirmation service (services/groceryService.js) *)

Module ExplicitConfirmation.

(** [parseItemsForConfirmation(groceryText)]; [batchId] is the value of
    crypto.randomBytes(4).toString('hex'). *)
Definition parseItemsForConfirmation (gemini : string -> Answer)
    (batchId : string) (groceryText : string)
  : M (string * list GroceryItem) :=
  parsedItems <- parseGroceryItems gemini groceryText ;;
  tempItems <- saveParsedItems "confirming" batchId parsedItems ;;
  ret (batchId, tempItems).

(** [cancelBatch(batchId)]: only what is still 'confirming'. *)
Definition cancelBatch (batchId : string) : M nat :=
  remainingItems <- findByBatchIdAndStatus batchId "confirming" ;;
  deleteEach remainingItems.

End ExplicitConfirmation.

(** *** The auto-add service (the later generation of the same file) *)

Module AutoAdd.

(** [unparsedLines[index] || item.article] *)
Definition originalOf (unparsedLines : list string) (index : nat)
    (item : ParsedItem) : string :=
  match nth_error unparsedLines index with
  | Some line => if isEmpty line then p_article item else line
  | None => p_article item
  end.

Fixpoint withOriginalInput (unparsedLines : list string) (index : nat)
    (items : list ParsedItem) : list ParsedItem :=
  match items with
  | [] => []
  | item :: rest =>
      {| p_article := p_article item; p_quantity := p_quantity item;
         p_category := p_category item;
         originalInput := originalOf unparsedLines index item |}
      :: withOriginalInput unparsedLines (S index) rest
  end.

(** [parseItemsForConfirmation] from its step 2 on, for what the cache
    returned: the AI for the lines the cache does not know, then the
    saves. *)
Definition afterCache (cached : list ParsedItem * list string)
    (gemini : string -> Answer) (batchId : string)
  : M (string * list GroceryItem) :=
  let '(cachedItems, unparsedLines) := cached in
  geminiItems <-
    (if Nat.ltb 0 (length unparsedLines) then
       items <- parseGroceryItems gemini (joinLines unparsedLines) ;;
       ret (withOriginalInput unparsedLines 0 items)
     else ret []) ;;
  let parsedItems := (cachedItems ++ geminiItems)%list in
  addedItems <- saveParsedItems "pending" batchId parsedItems ;;
  ret (batchId, addedItems).

(** [parseItemsForConfirmation(groceryText)]: the cache first. *)
Definition parseItemsForConfirmation (cache : Cache)
    (gemini : string -> Answer) (batchId : string) (groceryText : string)
  : M (string * list GroceryItem) :=
  afterCache (parseWithCache cache groceryText) gemini batchId.

(** [editItem(itemId, newCategory, newQuantity, newNote)] *)
Definition editItem (itemId : nat) (newCategory : string) (newQuantity : Z)
    (newNote : option string) : M GroceryItem :=
  item <- findById itemId ;;
  match item with
  | None => throw (ItemNotFound itemId)
  | Some item =>
      let item' :=
        {| id := id item; article := article item; quantity := newQuantity;
           category := newCategory; status := status item;
           batch_id := batch_id item; created_at := created_at item;
           note := newNote |} in
      _ <- save item' ;;
      ret item'
  end.

Definition getItemForEdit (itemId : nat) : M GroceryItem :=
  item <- findById itemId ;;
  match item with
  | None => throw (ItemNotFound itemId)
  | Some item => ret item
  end.

(** [cancelBatch(batchId)]: every item of the batch. *)
Definition cancelBatch (batchId : string) : M nat :=
  batchItems <- findByBatchId batchId ;;
  deleteEach batchItems.

End AutoAdd.

(** ** Keyboards (utils/messageFormatter.js, handlers/commandHandlers.js)
    A button is modelled by the callback it carries; its label is left
    out.  The callback is given by its action and its parameters, as
    the keyboard writes them between colons; the cutting of the text at
    the colons is [Routing.route]. *)

Inductive Callback :=
| ItemStatus (itemId : nat) (newStatus : string)
| UpdateQty (itemId : nat) (cat : string) (qty : Z) (note : option string)
| Noop.

(** The [switch (item.status)] of createShoppingListKeyboard and of
    createCategoryShoppingKeyboard. *)
Definition nextStatus (st : string) : string :=
  if String.eqb st "selected" then "found"
  else if String.eqb st "not_found" then "pending"
  else "selected".

Definition createShoppingListKeyboard (activeItems : list GroceryItem)
  : list Callback :=
  map (fun item => ItemStatus (id item) (nextStatus (status item))) activeItems.

(** The buttons of one category; items with a falsy id are skipped. *)
Definition createCategoryShoppingKeyboard (activeItems : list GroceryItem)
    (selectedCategory : string) : list Callback :=
  map (fun item => ItemStatus (id item) (nextStatus (status item)))
    (filter (fun item => negb (Nat.eqb (id item) 0))
       (filter (fun item => String.eqb (category item) selectedCategory)
          activeItems)).

(** The quantity row of createEditKeyboard. *)
Definition quantityRow (itemId : nat) (currentCategory : string)
    (currentQuantity : Z) (currentNote : option string) : list Callback :=
  [ UpdateQty itemId currentCategory (Z.max 1 (currentQuantity - 1)) currentNote;
    Noop;
    UpdateQty itemId currentCategory (currentQuantity + 1) currentNote ].

(** ** Callback handlers *)

(** [item.batch_id !== batchId] is false only for two equal strings: the
    column holds a string or null, the callback parameter a string or
    undefined ([None]). *)
Definition strictEqual (column param : option string) : bool :=
  match column, param with
  | Some x, Some y => String.eqb x y
  | _, _ => false
  end.

Definition paramText (param : option string) : string :=
  match param with Some s => s | None => "" end.

(** What a handler tells the user. *)
Inductive Reply :=
| ItemNotFoundOrBatchMismatch       (* '❌ Item not found or batch mismatch' *)
| FailedToAddItem                   (* the catch: '❌ Failed to add item' *)
| ItemConfirmed (confirmedItem : GroceryItem)
    (addedItems remainingItems : list GroceryItem)
| AlreadyAdded (item : GroceryItem) (batchItems : list GroceryItem)
| StatusUpdated
| FailedToUpdateItem
| QuantityUpdated (item : GroceryItem) (keyboard : list Callback)
| ErrorUpdatingQuantity.

Module ExplicitHandlers.

(** [handleConfirmItem(bot, query, batchId, itemId)] of the
    explicit-confirmation generation. *)
Definition handleConfirmItem (batchId : option string) (itemId : nat)
  : M Reply :=
  catch
    (tempItem <- findById itemId ;;
     match tempItem with
     | None => ret ItemNotFoundOrBatchMismatch
     | Some tempItem =>
         if negb (strictEqual (batch_id tempItem) batchId)
         then ret ItemNotFoundOrBatchMismatch
         else
           confirmedItem <- confirmItemFromBatch itemId ;;
           remainingItems <-
             findByBatchIdAndStatus (paramText batchId) "confirming" ;;
           addedItems <-
             findByBatchIdAndStatus (paramText batchId) "pending" ;;
           ret (ItemConfirmed confirmedItem addedItems remainingItems)
     end)
    (fun _ => ret FailedToAddItem).

End ExplicitHandlers.

Module AutoAddHandlers.

(** [handleConfirmItem] of the auto-add generation: the same check, then
    only an acknowledgement. *)
Definition handleConfirmItem (batchId : option string) (itemId : nat)
  : M Reply :=
  catch
    (item <- findById itemId ;;
     match item with
     | None => ret ItemNotFoundOrBatchMismatch
     | Some item =>
         if negb (strictEqual (batch_id item) batchId)
         then ret ItemNotFoundOrBatchMismatch
         else
           batchItems <- findByBatchId (paramText batchId) ;;
           ret (AlreadyAdded item batchItems)
     end)
    (fun _ => ret FailedToAddItem).

(** [handleUpdateQuantity(bot, query, itemId, category, quantity,
    encodedNote)]; [quantity] is the parameter after parseInt. *)
Definition handleUpdateQuantity (itemId : nat) (cat : string) (qty : Z)
    (note : option string) : M Reply :=
  catch
    (_ <- AutoAdd.editItem itemId cat qty note ;;
     item <- AutoAdd.getItemForEdit itemId ;;
     ret (QuantityUpdated item
            (quantityRow (id item) (category item) (quantity item) (Model.note item))))
    (fun _ => ret ErrorUpdatingQuantity).

End AutoAddHandlers.

(** [handleItemStatus(bot, query, itemId, newStatus)], up to the
    re-rendering. *)
Definition handleItemStatus (itemId : nat) (newStatus : string) : M Reply :=
  success <- updateItemStatus itemId newStatus ;;
  ret (if success : bool then StatusUpdated else FailedToUpdateItem).

(** The routing of handleCallbackQuery for the modelled buttons. *)
Definition handleCallbackQuery (cb : Callback) : M (option Reply) :=
  match cb with
  | ItemStatus itemId newStatus =>
      r <- handleItemStatus itemId newStatus ;; ret (Some r)
  | UpdateQty itemId cat qty note =>
      r <- AutoAddHandlers.handleUpdateQuantity itemId cat qty note ;;
      ret (Some r)
  | Noop => ret None
  end.

Definition buttonFor (itemId : nat) (keyboard : list Callback) : option Callback :=
  find (fun cb => match cb with
                  | ItemStatus i _ => Nat.eqb i itemId
                  | _ => false
                  end) keyboard.

Section Navigator.
Variable compareLowered : string -> string -> comparison.

(** One tap on the button of item [itemId]: the shopping keyboard is
    rendered from the table as it is, and the callback of the item's
    button is handled.  The result is the status the item is left in,
    or [None] when the keyboard shows no button for it. *)
Definition advanceStatus (itemId : nat) : M (option string) :=
  groceryData <- getAllItemsSorted compareLowered ;;
  match buttonFor itemId
          (createShoppingListKeyboard (activeItems groceryData)) with
  | Some (ItemStatus i newStatus) =>
      _ <- handleItemStatus i newStatus ;;
      item <- findById itemId ;;
      ret (option_map status item)
  | _ => ret None
  end.
End Navigator.

(** ** Tables after an operation, and tables used as examples *)

(** The table after a merge: the row of the existing item takes the
    merged fields, the row of the confirmed item goes. *)
Definition mergedRows (merged : GroceryItem) (itemId : nat)
    (rows : list GroceryItem) : list GroceryItem :=
  filter (fun r => negb (Nat.eqb (id r) itemId))
    (map (fun r => if Nat.eqb (id r) (id merged) then stored merged r else r)
       rows).

(** The object that [editItem] saves and returns. *)
Definition edited (r : GroceryItem) (newCategory : string) (newQuantity : Z)
    (newNote : option string) : GroceryItem :=
  {| id := id r; article := article r; quantity := newQuantity;
     category := newCategory; status := status (newGroceryItem r);
     batch_id := batch_id r; created_at := created_at r; note := newNote |}.

(** What [findAll] returns, and the active items made of it. *)
Definition allOf (db : Database) : list GroceryItem :=
  map newGroceryItem (orderByCreatedDesc (grocery_items db)).

Definition notFoundYet (item : GroceryItem) : bool :=
  negb (String.eqb (status item) "found").

Definition activeOf (compareLowered : string -> string -> comparison)
    (db : Database) : list GroceryItem :=
  sortBy (byCategory compareLowered) (filter notFoundYet (allOf db)).


(** The database after [UPDATE grocery_items SET status = ? WHERE id = ?]. *)
Definition withStatus (db : Database) (i : nat) (st : string) : Database :=
  withRows db
    (map (fun r => if Nat.eqb (id r) i then setStatus st r else r)
       (grocery_items db)).

Definition row (i : nat) (a : string) (q : Z) (c st : string)
    (b : string) (t : nat) : GroceryItem :=
  {| id := i; article := a; quantity := q; category := c; status := st;
     batch_id := Some b; created_at := t; note := None |}.

Definition table (rows : list GroceryItem) : Database :=
  {| grocery_items := rows; sqlite_sequence := maxId rows; clock := 1000 |}.

(** An item already committed. *)
Definition laitPending : GroceryItem :=
  row 1 "lait" 2 "Produits laitiers" "pending" "a1b2c3d4" 100.

(** "lait" is on the list; a new batch brings "lait" again. *)
Definition laitNew : GroceryItem :=
  row 2 "lait" 1 "Produits laitiers" "confirming" "e5f6a7b8" 160.
Definition dbLait : Database := table [laitPending; laitNew].

(** The same two items, the row of the item to confirm first. *)
Definition laitFirst : GroceryItem :=
  row 1 "lait" 1 "Produits laitiers" "confirming" "e5f6a7b8" 1000.
Definition laitLater : GroceryItem :=
  row 2 "lait" 2 "Produits laitiers" "pending" "a1b2c3d4" 1000.
Definition dbShadowed : Database := table [laitFirst; laitLater].

(** "pain" was found; a new batch brings "pain" again. *)
Definition painFound : GroceryItem :=
  row 1 "pain" 1 "Boulangerie" "found" "a1b2c3d4" 100.
Definition painNew : GroceryItem :=
  row 2 "pain" 1 "Boulangerie" "confirming" "e5f6a7b8" 160.
Definition dbPain : Database := table [painFound; painNew].

(** A batch of five, two of them confirmed, and an item of another
    batch. *)
Definition dbFive : Database :=
  table [ row 1 "lait" 1 "Produits laitiers" "pending" "b1" 100;
          row 2 "pain" 1 "Boulangerie" "confirming" "b1" 100;
          row 3 "pommes" 6 "Fruits et légumes" "pending" "b1" 100;
          row 4 "riz" 1 "Épicerie" "confirming" "b1" 100;
          row 5 "savon" 2 "Hygiène" "confirming" "b1" 100;
          row 6 "thon" 3 "Conserves" "confirming" "b2" 160 ].

(** An item of batch "Y". *)
Definition dbBatchY : Database :=
  table [ row 7 "pain" 1 "Boulangerie" "confirming" "Y" 100 ].

(** Two drinks, created one after the other. *)
Definition eau : GroceryItem := row 1 "eau" 6 "Boissons" "pending" "a1b2c3d4" 100.
Definition jus : GroceryItem := row 2 "jus" 1 "Boissons" "pending" "a1b2c3d4" 160.
Definition dbDrinks : Database := table [eau; jus].


(** A cache that knows "pommes" and its variant "pomme". *)
Definition cachePommes : Cache :=
  [ ("pommes",
     {| correctName := "pommes"; productCategory := "Fruits et légumes";
        variants := Some ["pomme"] |}) ].

(** A comparison to stand for the engine's in the examples: the order
    of the bytes.  On the category labels of the examples, which are
    ASCII and differ in a letter of the same case, it has the sign of
    the engine's comparison of the labels in lower case. *)
Definition byteCompare (a b : string) : comparison := String.compare a b.

(** ** Further code of the same files *)

(** *** The product cache as a store
    (services/productCacheService.js) *)

(** The lines that [parseWithCache] looks at. *)
Definition nonBlankLines (groceryText : string) : list string :=
  filter (fun line => negb (isEmpty (trim line))) (splitLines groceryText).

(** The body of the loop of [parseWithCache]; [find] is
    [this.findProduct]. *)
Definition cacheStep (find : string -> option Product)
    (acc : list ParsedItem * list string) (line : string)
  : list ParsedItem * list string :=
  let parsed := ProductCache.parseLineForProduct line in
  match find (ProductCache.product parsed) with
  | Some cachedProduct =>
      ((fst acc ++
        [ {| p_article := correctName cachedProduct;
             p_quantity := Z.of_N (ProductCache.quantity parsed);
             p_category := productCategory cachedProduct;
             originalInput := trim line |} ])%list,
       snd acc)
  | None => (fst acc, (snd acc ++ [line])%list)
  end.

(** The lookup has nothing for the product of the line. *)
Definition cacheMiss (find : string -> option Product) (line : string)
  : bool :=
  match find (ProductCache.product (ProductCache.parseLineForProduct line)) with
  | Some _ => false
  | None => true
  end.

(** The loop of [parseWithCache] over its lines. *)
Definition cacheLoop (find : string -> option Product) (lines : list string)
  : list ParsedItem * list string :=
  fold_left (cacheStep find) lines ([], []).

Module CacheStore.

(** [this.cache[k]] *)
Definition lookupKey (k : string) (cache : Cache) : option Product :=
  option_map snd (find (fun kv => String.eqb (fst kv) k) cache).

(** [this.cache[k] = p], and the writes to the fields of
    [this.cache[k]]: the entry of the key is replaced where it is, a new
    key goes to the end. *)
Fixpoint put (k : string) (p : Product) (cache : Cache) : Cache :=
  match cache with
  | [] => [(k, p)]
  | (k', p') :: r =>
      if String.eqb k' k then (k', p) :: r else (k', p') :: put k p r
  end.

Definition withCategory (c : string) (p : Product) : Product :=
  {| correctName := correctName p; productCategory := c;
     variants := variants p |}.

Definition withVariants (vs : list string) (p : Product) : Product :=
  {| correctName := correctName p; productCategory := productCategory p;
     variants := Some vs |}.

(** How [addProductVariant] ends: it returns, or [includes] is called on
    a product without variants and a TypeError leaves the function; the
    cache is the object as the call left it. *)
Inductive CacheOutcome :=
| CacheDone (cache : Cache)
| CacheTypeError (cache : Cache).

(** The end of [addProductVariant]: the variant is pushed unless the
    product lists it. *)
Definition pushVariant (key normalizedVariant : string) (product : Product)
    (cache : Cache) : CacheOutcome :=
  match variants product with
  | None => CacheTypeError cache
  | Some vs =>
      if includes vs normalizedVariant then CacheDone cache
      else CacheDone
             (put key (withVariants (vs ++ [normalizedVariant])%list product)
                cache)
  end.

(** [addProductVariant] from its third line on:
    [normalizedCorrectName] and [normalizedVariant] are the two
    normalised texts.  For a key that the cache does not hold itself
    and that names a member of Object.prototype, [this.cache[key]] is
    that member: the category is written to it and its missing variants
    end the call. *)
Definition addNormalized (cache : Cache)
    (normalizedCorrectName normalizedVariant : string)
    (name category : string) : CacheOutcome :=
  if String.eqb normalizedCorrectName normalizedVariant then CacheDone cache
  else
    match lookupKey normalizedCorrectName cache with
    | None =>
        if JsObject.member normalizedCorrectName then CacheTypeError cache
        else
          let product := {| correctName := name; productCategory := category;
                            variants := Some [] |} in
          pushVariant normalizedCorrectName normalizedVariant product
            (put normalizedCorrectName product cache)
    | Some p =>
        let product := withCategory category p in
        pushVariant normalizedCorrectName normalizedVariant product
          (put normalizedCorrectName product cache)
    end.

(** [addProductVariant(correctName, category, variant)], without the
    write to the file. *)
Definition addProductVariant (cache : Cache)
    (name category variant : string) : CacheOutcome :=
  addNormalized cache (normalizeText name) (normalizeText variant)
    name category.

(** The variant is already listed under the key. *)
Definition known (cache : Cache) (key normalizedVariant : string) : bool :=
  match lookupKey key cache with
  | Some p =>
      match variants p with
      | Some vs => includes vs normalizedVariant
      | None => false
      end
  | None => false
  end.

Record Stats := { products : nat; variantCount : nat; total : nat }.

(** [product.variants ? product.variants.length : 0] *)
Definition variantsLength (product : Product) : nat :=
  match variants product with
  | Some vs => length vs
  | None => 0
  end.

(** [getStats()] *)
Definition getStats (cache : Cache) : Stats :=
  let productCount := length cache in
  let variantCount :=
    fold_left (fun sum kv => sum + variantsLength (snd kv)) cache 0 in
  {| products := productCount; variantCount := variantCount;
     total := productCount + variantCount |}.

(** The product under which a call of [addProductVariant] that returns
    leaves the variant. *)
Definition learned (cache : Cache) (key normalizedVariant : string)
    (name category : string) : Product :=
  match lookupKey key cache with
  | None => {| correctName := name; productCategory := category;
               variants := Some [normalizedVariant] |}
  | Some p =>
      {| correctName := correctName p; productCategory := category;
         variants :=
           Some (match variants p with
                 | Some vs =>
                     if includes vs normalizedVariant then vs
                     else (vs ++ [normalizedVariant])%list
                 | None => []
                 end) |}
  end.

End CacheStore.

(** *** The pairing of the AI's items with the lines sent
    (parseItemsForConfirmation of the auto-add service) *)

(** An entry that [validateItem] accepts: an object whose article and
    category are strings that are not empty. *)
Definition wellShaped (item : Entry) : bool :=
  match item with
  | Obj (Str a) _ (Str c) => negb (isEmpty a) && negb (isEmpty c)
  | _ => false
  end.

(** The entries that the loop of parseItemsForConfirmation saves. *)
Definition savable (newItem : ParsedItem) : bool :=
  negb (isEmpty (p_article newItem) || isEmpty (p_category newItem)).

(** The row that the loop inserts for [newItem] under id [i]. *)
Definition rowFor (st batchId : string) (now i : nat) (newItem : ParsedItem)
  : GroceryItem :=
  {| id := i; article := p_article newItem;
     quantity := if Z.eqb (p_quantity newItem) 0 then 1%Z
                 else p_quantity newItem;
     category := p_category newItem;
     status := st; batch_id := Some batchId;
     created_at := now; note := None |}.

(** The rows for the savable entries, with ids from [i] on. *)
Fixpoint rowsFor (st batchId : string) (now i : nat)
    (parsedItems : list ParsedItem) : list GroceryItem :=
  match parsedItems with
  | [] => []
  | newItem :: rest =>
      if savable newItem
      then rowFor st batchId now i newItem
           :: rowsFor st batchId now (S i) rest
      else rowsFor st batchId now i rest
  end.

(** The id that the next INSERT takes. *)
Definition nextId (db : Database) : nat :=
  S (Nat.max (sqlite_sequence db) (maxId (grocery_items db))).

(** An operation that leaves a table well formed when it finds it so. *)
Definition keepsWellFormed {A} (c : M A) : Prop :=
  forall db, wellFormed db -> wellFormed (snd (c db)).

(** [clearAllItems()] *)
Definition clearAllItems : M nat := clearAll.

(** *** Escaping (utils/messageFormatter.js) *)

Module Formatter.

(** [text.replace(/c/g, by)] for a one-character pattern. *)
Fixpoint replaceAll (c : ascii) (by_ : string) (text : string) : string :=
  match text with
  | EmptyString => EmptyString
  | String x r =>
      if Ascii.eqb x c then by_ ++ replaceAll c by_ r
      else String x (replaceAll c by_ r)
  end.

Definition ampersand : ascii := ascii_of_nat 38.
Definition lessThan : ascii := ascii_of_nat 60.
Definition greaterThan : ascii := ascii_of_nat 62.
Definition doubleQuote : ascii := ascii_of_nat 34.
Definition singleQuote : ascii := ascii_of_nat 39.

(** [escapeHtml(text)] for a string: the five replacements in the order
    of the source. *)
Definition escapeHtml (text : string) : string :=
  replaceAll singleQuote "&#039;"
    (replaceAll doubleQuote "&quot;"
       (replaceAll greaterThan "&gt;"
          (replaceAll lessThan "&lt;"
             (replaceAll ampersand "&amp;" text)))).

(** What one character becomes. *)
Definition escapeChar (x : ascii) : string :=
  if Ascii.eqb x ampersand then "&amp;"
  else if Ascii.eqb x lessThan then "&lt;"
  else if Ascii.eqb x greaterThan then "&gt;"
  else if Ascii.eqb x doubleQuote then "&quot;"
  else if Ascii.eqb x singleQuote then "&#039;"
  else String x EmptyString.

Fixpoint escapeEach (text : string) : string :=
  match text with
  | EmptyString => EmptyString
  | String x r => escapeChar x ++ escapeEach r
  end.

(** The characters that must not reach an HTML message. *)
Definition isMarkup (x : ascii) : bool :=
  Ascii.eqb x lessThan || Ascii.eqb x greaterThan
  || Ascii.eqb x doubleQuote || Ascii.eqb x singleQuote.

Definition isSpecial (x : ascii) : bool :=
  Ascii.eqb x ampersand || isMarkup x.

End Formatter.

(** *** The category menu (handlers/commandHandlers.js) *)

Module CategoryMenu.

(** The names that the object [counts] answers to before anything is
    counted: the members of Object.prototype.  [counts[k]] is a function
    or an object for them, and a string once an item was counted. *)
Definition objectMember (k : string) : bool := JsObject.member k.

(** [counts[k] = (counts[k] || 0) + 1] on the object [counts]. *)
Fixpoint increment (k : string) (counts : list (string * nat))
  : list (string * nat) :=
  match counts with
  | [] => [(k, 1)]
  | (k', n) :: r =>
      if String.eqb k' k then (k', n + 1) :: r
      else (k', n) :: increment k r
  end.

(** [getCategoryCounts(activeItems)] *)
Definition getCategoryCounts (activeItems : list GroceryItem)
  : list (string * nat) :=
  fold_left (fun counts item => increment (category item) counts)
    activeItems [].

(** [counts[k] || 0] *)
Definition countOf (k : string) (counts : list (string * nat)) : nat :=
  match find (fun kv => String.eqb (fst kv) k) counts with
  | Some kv => snd kv
  | None => 0
  end.

Inductive MenuButton :=
| ShopCategory (cat : string) (count : nat)
| ClearFound
| Refresh
| ClearSelectionButton.

Section Menu.
(** The list of config/categories.js, which is not part of the sources
    at hand. *)
Variable CATEGORIES : list string.

(** [createCategorySelectionKeyboard(groceryData)]: the rows of
    buttons.  For the name of a member of Object.prototype
    [categoryCounts[category]] is not a number, and [count > 0] is
    false. *)
Definition createCategorySelectionKeyboard (groceryData : SortedItems)
  : list (list MenuButton) :=
  let categoryCounts := getCategoryCounts (activeItems groceryData) in
  let categoryRows :=
    flat_map
      (fun cat =>
         let count := countOf cat categoryCounts in
         if negb (objectMember cat) && Nat.ltb 0 count
         then [[ShopCategory cat count]] else [])
      CATEGORIES in
  let actionButtons :=
    ((if Nat.ltb 0 (length (foundItems groceryData)) then [ClearFound] else [])
     ++ [Refresh])%list in
  (categoryRows
   ++ [actionButtons]
   ++ (if Nat.ltb 0 (length (activeItems groceryData))
       then [[ClearSelectionButton]] else []))%list.
End Menu.

End CategoryMenu.

(** *** More callback handlers of the explicit-confirmation generation *)

Module MoreHandlers.

Inductive CategoryReply :=
| InvalidCategory                    (* '❌ Invalid category' *)
| CategoryItemNotFound               (* '❌ Item not found or batch mismatch' *)
| CategoryUpdated (item : GroceryItem)
    (batchItems : option (list GroceryItem))
    (* the items of the rebuilt keyboard, when the original message is
       known *)
| FailedToUpdateCategory.            (* the catch *)

Definition withItemCategory (c : string) (it : GroceryItem) : GroceryItem :=
  {| id := id it; article := article it; quantity := quantity it;
     category := c; status := status it; batch_id := batch_id it;
     created_at := created_at it; note := note it |}.

(** [if (originalMessageId)]: a parameter that is there and not empty. *)
Definition given (param : option string) : bool :=
  match param with
  | Some s => negb (isEmpty s)
  | None => false
  end.

(** [handleUpdateCategory(bot, query, batchId, itemId, newCategory,
    originalMessageId)]; the keyboard of the original message is
    rebuilt from the items still to confirm. *)
Definition handleUpdateCategory (batchId : option string) (itemId : nat)
    (newCategory : string) (originalMessageId : option string)
  : M CategoryReply :=
  catch
    (item <- findById itemId ;;
     match item with
     | None => ret CategoryItemNotFound
     | Some item =>
         if negb (strictEqual (batch_id item) batchId)
         then ret CategoryItemNotFound
         else
           _ <- save (withItemCategory newCategory item) ;;
           if given originalMessageId then
             batchItems <-
               findByBatchIdAndStatus (paramText batchId) "confirming" ;;
             ret (CategoryUpdated (withItemCategory newCategory item)
                    (Some batchItems))
           else
             ret (CategoryUpdated (withItemCategory newCategory item) None)
     end)
    (fun _ => ret FailedToUpdateCategory).

Section ByIndex.
(** The list of config/categories.js, which is not part of the sources
    at hand. *)
Variable CATEGORIES : list string.

(** [handleUpdateCategoryByIndex]; [categoryIdx] is
    [parseInt(categoryIndex)], [None] when it is NaN.  NaN passes both
    comparisons; [CATEGORIES[NaN]] is undefined, and the save of an item
    without category fails on the NOT NULL column, which the catch
    answers. *)
Definition handleUpdateCategoryByIndex (batchId : option string)
    (itemId : nat) (categoryIdx : option Z)
    (originalMessageId : option string) : M CategoryReply :=
  match categoryIdx with
  | Some idx =>
      if Z.ltb idx 0 || Z.leb (Z.of_nat (length CATEGORIES)) idx
      then ret InvalidCategory
      else
        handleUpdateCategory batchId itemId
          (nth (Z.to_nat idx) CATEGORIES EmptyString)
          originalMessageId
  | None =>
      item <- findById itemId ;;
      match item with
      | None => ret CategoryItemNotFound
      | Some item =>
          if negb (strictEqual (batch_id item) batchId)
          then ret CategoryItemNotFound
          else ret FailedToUpdateCategory
      end
  end.
End ByIndex.

(** What handleCancelBatch reports. *)
Record CancelSummary := {
  addedItems : list GroceryItem;      (* shown with a check mark *)
  remainingItems : list GroceryItem;  (* shown as cancelled *)
  deletedCount : nat
}.

(** [handleCancelBatch(bot, query, batchId)]: the lists are read before
    the batch is cancelled. *)
Definition handleCancelBatch (batchId : string) : M CancelSummary :=
  allBatchItems <- findByBatchId batchId ;;
  let added := filter (fun item => String.eqb (status item) "pending")
                 allBatchItems in
  let remaining := filter (fun item => String.eqb (status item) "confirming")
                     allBatchItems in
  deleted <- ExplicitConfirmation.cancelBatch batchId ;;
  ret {| addedItems := added; remainingItems := remaining;
         deletedCount := deleted |}.

End MoreHandlers.


(** *** The routing of callbacks (handleCallbackQuery of the
    explicit-confirmation generation) *)

Module Routing.

Definition colon : ascii := ascii_of_nat 58.

(** [s.split(sep)] for a separator of one character. *)
Fixpoint split (sep : ascii) (s : string) : list string :=
  match s with
  | EmptyString => [EmptyString]
  | String x r =>
      if Ascii.eqb x sep then EmptyString :: split sep r
      else
        match split sep r with
        | h :: t => String x h :: t
        | [] => [String x EmptyString]
        end
  end.

(** The handler that a callback is routed to, with the parameters it is
    handed; [None] is a parameter that is not there. *)
Inductive Route :=
| ConfirmItemRoute (batchId itemId : option string)
| ChangeCategoryRoute (batchId itemId : option string)
| UpdateCategoryRoute (batchId itemId newCategory originalMessageId
                         : option string)
| UpdateCategoryByIndexRoute (batchId itemId categoryIndex originalMessageId
                                : option string)
| CancelBatchRoute (batchId : option string)
| ItemStatusRoute (itemId newStatus : option string)
| ClearFoundRoute
| RefreshRoute
| ClearSelectionRoute
| ShopCategoryRoute (category : option string)
| BackToCategoriesRoute
| UnknownAction.

(** [const [action, ...params] = callbackData.split(':')] and the
    switch on [action]. *)
Definition route (callbackData : string) : Route :=
  match split colon callbackData with
  | [] => UnknownAction
  | action :: params =>
      let param := nth_error params in
      if String.eqb action "confirm_item"
      then ConfirmItemRoute (param 0) (param 1)
      else if String.eqb action "change_cat"
      then ChangeCategoryRoute (param 0) (param 1)
      else if String.eqb action "update_cat"
      then UpdateCategoryRoute (param 0) (param 1) (param 2) (param 3)
      else if String.eqb action "upd_cat"
      then UpdateCategoryByIndexRoute (param 0) (param 1) (param 2) (param 3)
      else if String.eqb action "cancel_batch"
      then CancelBatchRoute (param 0)
      else if String.eqb action "item-status"
      then ItemStatusRoute (param 0) (param 1)
      else if String.eqb action "clear-found" then ClearFoundRoute
      else if String.eqb action "refresh" then RefreshRoute
      else if String.eqb action "clear-selection" then ClearSelectionRoute
      else if String.eqb action "shop-category"
      then ShopCategoryRoute (param 0)
      else if String.eqb action "back-to-categories"
      then BackToCategoriesRoute
      else UnknownAction
  end.

(** The callback_data of the buttons of the category menu. *)
Definition callbackData (button : CategoryMenu.MenuButton) : string :=
  match button with
  | CategoryMenu.ShopCategory cat _ => "shop-category:" ++ cat
  | CategoryMenu.ClearFound => "clear-found"
  | CategoryMenu.Refresh => "refresh"
  | CategoryMenu.ClearSelectionButton => "clear-selection"
  end.

(** The handler that a button of the menu is meant for. *)
Definition meantFor (button : CategoryMenu.MenuButton) : Route :=
  match button with
  | CategoryMenu.ShopCategory cat _ => ShopCategoryRoute (Some cat)
  | CategoryMenu.ClearFound => ClearFoundRoute
  | CategoryMenu.Refresh => RefreshRoute
  | CategoryMenu.ClearSelectionButton => ClearSelectionRoute
  end.

Definition noColon (s : string) : bool :=
  allb (fun x => negb (Ascii.eqb x colon)) s.

End Routing.

(** *** Text messages (handlers/messageHandlers.js, the auto-add
    generation) *)

Module TextMessages.

(** What the user is told. *)
Inductive TextReply :=
| IgnoredCommand                      (* nothing is sent *)
| NoValidItems                        (* '❌ No valid grocery items found ...' *)
| AutoAddedBatch (batchId : string) (items : list GroceryItem)
| FailedToParseItems.                 (* 'Failed to parse grocery items. ...' *)

(** [text.startsWith('/')] *)
Definition startsWithSlash (text : string) : bool :=
  match text with
  | String c _ => Ascii.eqb c (ascii_of_nat 47)
  | EmptyString => false
  end.

(** [handleTextMessage(bot, msg)] for a message with a text, up to the
    messages sent. *)
Definition handleTextMessage (cache : Cache) (gemini : string -> Answer)
    (batchId : string) (text : string) : M TextReply :=
  if startsWithSlash text then ret IgnoredCommand
  else
    let cleanedText := trim text in
    catch
      (result <- AutoAdd.parseItemsForConfirmation cache gemini batchId
                   cleanedText ;;
       if Nat.eqb (length (snd result)) 0 then ret NoValidItems
       else ret (AutoAddedBatch (fst result) (snd result)))
      (fun _ => ret FailedToParseItems).

End TextMessages.

(** * Properties *)

(** ** Strings *)

Section StringFacts.

Lemma digit_not_space c : isDigit c = true -> isSpace c = false.
Proof.
unfold isDigit, isSpace. set (n := nat_of_ascii c).
rewrite andb_true_iff, !Nat.leb_le. intros [H1 H2].
repeat (apply orb_false_iff; split); apply Nat.eqb_neq; lia.
Qed.



Lemma append_empty_r s : s ++ "" = s.
Proof. induction s; simpl; congruence. Qed.

Lemma append_assoc' (a b c : string) : (a ++ b) ++ c = a ++ (b ++ c).
Proof. induction a; simpl; congruence. Qed.

Lemma isEmpty_true s : isEmpty s = true <-> s = "".
Proof. destruct s; simpl; split; congruence. Qed.

Lemma isEmpty_false s : isEmpty s = false <-> s <> "".
Proof. destruct s; simpl; split; congruence. Qed.

Lemma allb_app p a b : allb p (a ++ b) = allb p a && allb p b.
Proof. induction a; simpl; [reflexivity|]. now rewrite IHa, andb_assoc. Qed.

Lemma span_app p a b :
allb p a = true -> stopsAt p b -> span p (a ++ b) = (a, b).
Proof.
intros Ha Hb. induction a as [| c a IH]; simpl in *.
- destruct b; simpl in *; [reflexivity | now rewrite Hb].
- apply andb_true_iff in Ha as [Hc Ha]. now rewrite Hc, IH.
Qed.

Lemma trimEnd_spaces w : allb isSpace w = true -> trimEnd w = "".
Proof.
induction w as [| c w IH]; simpl; [reflexivity|].
intros H. apply andb_true_iff in H as [Hc Hw].
now rewrite IH, Hc.
Qed.

Lemma trimEnd_app_spaces a w :
allb isSpace w = true -> trimEnd (a ++ w) = trimEnd a.
Proof.
intros Hw. induction a as [| c a IH]; simpl.
- now apply trimEnd_spaces.
- now rewrite IH.
Qed.

Lemma trimEnd_app a b :
trimEnd b <> "" -> trimEnd (a ++ b) = a ++ trimEnd b.
Proof.
intros Hb. induction a as [| c a IH]; simpl; [reflexivity|].
rewrite IH. destruct (a ++ trimEnd b) eqn:E.
- destruct a; simpl in E; [contradiction | discriminate].
- simpl. now rewrite andb_false_r.
Qed.

Lemma trimEnd_length s : String.length (trimEnd s) <= String.length s.
Proof.
induction s as [| c s IH]; simpl; [lia|].
destruct (isSpace c && isEmpty (trimEnd s)); simpl; lia.
Qed.

Lemma trimStart_length s : String.length (trimStart s) <= String.length s.
Proof.
induction s as [| c s IH]; simpl; [lia|].
destruct (isSpace c); simpl; lia.
Qed.

Lemma trimStart_fixed s :
String.length (trimStart s) = String.length s -> stopsAt isSpace s.
Proof.
destruct s as [| c s]; simpl; [trivial|].
destruct (isSpace c) eqn:E; [| reflexivity].
intros H. pose proof (trimStart_length s). lia.
Qed.

Lemma trimStart_id s : stopsAt isSpace s -> trimStart s = s.
Proof. destruct s; simpl; [reflexivity|]. now intros ->. Qed.

(** A string that [trim] leaves alone is left alone by both halves. *)
Lemma trim_fixed s :
trim s = s -> stopsAt isSpace s /\ trimEnd s = s.
Proof.
unfold trim. intros H.
assert (L : String.length (trimStart s) = String.length s).
{ pose proof (trimEnd_length (trimStart s)).
  pose proof (trimStart_length s).
  rewrite H in H0. lia. }
apply trimStart_fixed in L. split; [exact L|].
now rewrite (trimStart_id s L) in H.
Qed.

Lemma trim_no_space s : noSpace s = true -> trim s = s.
Proof.
unfold noSpace. intros H. unfold trim.
assert (E : trimEnd s = s).
{ induction s as [| c s IH]; simpl in *; [reflexivity|].
  apply andb_true_iff in H as [Hc Hs]. apply negb_true_iff in Hc.
  now rewrite IH, Hc. }
destruct s as [| c s]; [reflexivity|].
simpl in H. apply andb_true_iff in H as [Hc _].
apply negb_true_iff in Hc. simpl trimStart. now rewrite Hc.
Qed.

End StringFacts.

(** ** The line parser *)

Section LineParser.

Import ProductCache.


Lemma digits_noSpace ds : allb isDigit ds = true -> noSpace ds = true.
Proof.
unfold noSpace. induction ds as [| c ds IH]; simpl; [reflexivity|].
intros H. apply andb_true_iff in H as [Hc Hd].
now rewrite (digit_not_space c Hc), IH.
Qed.

Lemma digits_stop_space ds : allb isDigit ds = true -> stopsAt isSpace ds.
Proof.
destruct ds as [| c ds]; simpl; [trivial|].
intros H. apply andb_true_iff in H as [Hc _]. now apply digit_not_space.
Qed.


Lemma stopsAt_app p a b : a <> "" -> stopsAt p a -> stopsAt p (a ++ b).
Proof. destruct a; simpl; [contradiction | trivial]. Qed.



Lemma matchQtyFirst_no_digit s :
s <> "" -> stopsAt isDigit s -> matchQtyFirst s = None.
Proof.
destruct s as [| c s]; [contradiction|]. simpl. intros _ Hc.
unfold matchQtyFirst. simpl. now rewrite Hc.
Qed.



Lemma spaceDigits_no_space s : stopsAt isSpace s -> spaceDigits s = None.
Proof.
intros H. unfold spaceDigits.
pose proof (span_app isSpace "" s eq_refl H) as E. simpl in E.
rewrite E. destruct (span isDigit s). reflexivity.
Qed.

Lemma spaceDigits_ok w ds :
w <> "" -> allb isSpace w = true ->
ds <> "" -> allb isDigit ds = true ->
spaceDigits (w ++ ds) = Some ds.
Proof.
intros Hw Hs Hds Hd. unfold spaceDigits.
rewrite (span_app isSpace w ds Hs (digits_stop_space ds Hd)).
rewrite <- (append_empty_r ds) at 1.
rewrite (span_app isDigit ds "" Hd I).
apply isEmpty_false in Hw, Hds. now rewrite Hw, Hds.
Qed.

Lemma matchQtyLast_noSpace s : noSpace s = true -> matchQtyLast s = None.
Proof.
unfold noSpace. induction s as [| c s IH]; simpl; [reflexivity|].
intros H. apply andb_true_iff in H as [Hc Hs].
destruct (isLineTerminator c); [reflexivity|].
rewrite (IH Hs). rewrite spaceDigits_no_space; [reflexivity|].
destruct s as [| d s]; simpl in *; [trivial|].
apply andb_true_iff in Hs as [Hd _]. now apply negb_true_iff.
Qed.

Lemma matchQtyLast_spaces w ds :
allb isSpace w = true -> ds <> "" -> allb isDigit ds = true ->
matchQtyLast (w ++ ds) = None \/
exists p, matchQtyLast (w ++ ds) = Some (p, ds) /\ allb isSpace p = true.
Proof.
intros Hs Hds Hd. induction w as [| c w IH]; simpl.
- left. apply matchQtyLast_noSpace. now apply digits_noSpace.
- simpl in Hs. apply andb_true_iff in Hs as [Hc Hw].
  destruct (isLineTerminator c); [now left|].
  destruct (IH Hw) as [E | [p [E Hp]]]; rewrite E.
  + destruct w as [| d w].
    * simpl. rewrite spaceDigits_no_space; [now left|].
      now apply digits_stop_space.
    * rewrite spaceDigits_ok by (assumption || discriminate).
      right. exists (String c ""). split; [reflexivity|].
      simpl. now rewrite Hc.
  + right. exists (String c p). split; [reflexivity|].
    simpl. now rewrite Hc, Hp.
Qed.

Lemma matchQtyLast_trailing text w ds :
text <> "" -> dotAll text = true ->
w <> "" -> allb isSpace w = true ->
ds <> "" -> allb isDigit ds = true ->
exists p, matchQtyLast (text ++ w ++ ds) = Some (text ++ p, ds)
          /\ allb isSpace p = true.
Proof.
intros Ht Hdot Hw Hs Hds Hd.
induction text as [| c t IH]; [contradiction|].
unfold dotAll in Hdot. simpl in Hdot.
apply andb_true_iff in Hdot as [Hc Hdot]. apply negb_true_iff in Hc.
simpl. rewrite Hc.
destruct t as [| d t].
- simpl. destruct (matchQtyLast_spaces w ds Hs Hds Hd) as [E | [p [E Hp]]];
    rewrite E.
  + rewrite spaceDigits_ok by assumption. exists "". now split.
  + exists p. now split.
- destruct IH as [p [E Hp]]; [discriminate | exact Hdot |].
  rewrite E. exists p. now split.
Qed.


Lemma trim_trailing text sp ds :
text <> "" -> trim text = text ->
ds <> "" -> allb isDigit ds = true ->
trim (text ++ sp ++ ds) = text ++ sp ++ ds.
Proof.
intros Ht Htrim Hds Hd. apply trim_fixed in Htrim as [Hstart _].
assert (He : trimEnd ds = ds).
{ pose proof (trim_no_space ds (digits_noSpace ds Hd)) as T.
  now apply trim_fixed in T. }
unfold trim. rewrite trimStart_id by now apply stopsAt_app.
assert (Hne : trimEnd (sp ++ ds) <> "").
{ rewrite trimEnd_app; rewrite He; auto.
  destruct sp; simpl; [assumption | discriminate]. }
rewrite trimEnd_app by assumption.
rewrite trimEnd_app; rewrite He; auto.
Qed.


(** Quantity last: a trimmed text without line break that does not
  begin with a digit, white space, digits. *)
Lemma parseLine_trailing text sp ds :
text <> "" -> trim text = text -> dotAll text = true ->
stopsAt isDigit text ->
sp <> "" -> allb isSpace sp = true ->
ds <> "" -> allb isDigit ds = true ->
parseLineForProduct (text ++ sp ++ ds)
= {| quantity := parseDigits ds; product := text |}.
Proof.
intros Ht Htrim Hdot Hnd Hsp Hs Hds Hd.
unfold parseLineForProduct, qtyFirstMatch, qtyLastMatch.
rewrite trim_trailing by assumption.
rewrite matchQtyFirst_no_digit.
2:{ destruct text; [contradiction | discriminate]. }
2:{ now apply stopsAt_app. }
destruct (matchQtyLast_trailing text sp ds Ht Hdot Hsp Hs Hds Hd)
  as [p [E Hp]].
rewrite E.
assert (T : trim (text ++ p) = text).
{ destruct (trim_fixed text Htrim) as [Hstart Hend].
  unfold trim. rewrite trimStart_id by now apply stopsAt_app.
  now rewrite trimEnd_app_spaces. }
rewrite T. apply isEmpty_false in Ht. now rewrite Ht.
Qed.


End LineParser.

(** ** The two patterns return genuine matches *)

Section PatternSoundness.

Import ProductCache.






End PatternSoundness.

(** ** Lines with and without a quantity *)









(** ** The table *)

Ltac run_monad :=
  unfold bind, ret, throw, catch, query, run; simpl.

Lemma bind_returned {A B} (c : M A) (k : A -> M B) db a db' :
  c db = (Returned a, db') -> bind c k db = k a db'.
Proof. intros H. unfold bind. now rewrite H. Qed.

Lemma bind_thrown {A B} (c : M A) (k : A -> M B) db e db' :
  c db = (Thrown e, db') -> bind c k db = (Thrown e, db').
Proof. intros H. unfold bind. now rewrite H. Qed.

Lemma catch_returned {A} (c : M A) h db a db' :
  c db = (Returned a, db') -> catch c h db = (Returned a, db').
Proof. intros H. unfold catch. now rewrite H. Qed.

Lemma findById_eq i db :
  findById i db
  = (Returned (option_map newGroceryItem (rowById i db)), db).
Proof. reflexivity. Qed.

Lemma findByArticle_eq a db :
  findByArticle a db
  = (Returned (option_map newGroceryItem (rowByArticle a db)), db).
Proof. reflexivity. Qed.

Lemma findById_unchanged i db o db' :
  findById i db = (o, db') -> db' = db.
Proof. rewrite findById_eq. now intros [= _ <-]. Qed.

(** ** Confirmation of an item that is already committed *)

Lemma confirm_pending db itemId item :
  findById itemId db = (Returned (Some item), db) ->
  status item = "pending" ->
  confirmItemFromBatch itemId db = (Returned item, db).
Proof.
  intros Hf Hs. unfold confirmItemFromBatch.
  rewrite (bind_returned _ _ _ _ _ Hf). now rewrite Hs.
Qed.

(** C3. Confirming an item that already has the committed status
    returns that item and leaves the database as it is; so does a
    second call, and so does the handler of the confirm button when the
    batch matches. *)
Theorem confirmItemFromBatch_idempotent db itemId item :
  findById itemId db = (Returned (Some item), db) ->
  status item = "pending" ->
  confirmItemFromBatch itemId db = (Returned item, db)
  /\ (_ <- confirmItemFromBatch itemId ;; confirmItemFromBatch itemId) db
     = (Returned item, db)
  /\ (forall batchId,
        strictEqual (batch_id item) batchId = true ->
        exists addedItems remainingItems,
          ExplicitHandlers.handleConfirmItem batchId itemId db
          = (Returned (ItemConfirmed item addedItems remainingItems), db)).
Proof.
  intros Hf Hs. pose proof (confirm_pending db itemId item Hf Hs) as Hc.
  split; [exact Hc | split].
  - now rewrite (bind_returned _ _ _ _ _ Hc).
  - intros batchId Hb. unfold ExplicitHandlers.handleConfirmItem.
    eexists _, _. apply catch_returned.
    rewrite (bind_returned _ _ _ _ _ Hf). cbv beta iota.
    rewrite Hb. cbn [negb]. cbv beta iota.
    rewrite (bind_returned _ _ _ _ _ Hc).
    reflexivity.
Qed.

Lemma confirmItemFromBatch_idempotent_witness :
  confirmItemFromBatch 1 (table [laitPending]) = (Returned laitPending, (table [laitPending]))
  /\ (_ <- confirmItemFromBatch 1 ;; confirmItemFromBatch 1) (table [laitPending])
     = (Returned laitPending, (table [laitPending])).
Proof.
  pose proof (confirmItemFromBatch_idempotent (table [laitPending]) 1 laitPending
                eq_refl eq_refl) as H.
  split; [exact (proj1 H) | exact (proj1 (proj2 H))].
Defined.

(** ** Stale buttons *)

(** C5. The confirm button of an item that is gone, or that belongs to
    another batch than the button says, is answered with 'Item not found
    or batch mismatch' and changes nothing, in both generations of the
    handler. *)
Theorem handleConfirmItem_stale db batchId itemId :
  (fst (findById itemId db) = Returned None
   \/ exists item, fst (findById itemId db) = Returned (Some item)
                   /\ strictEqual (batch_id item) batchId = false) ->
  ExplicitHandlers.handleConfirmItem batchId itemId db
    = (Returned ItemNotFoundOrBatchMismatch, db)
  /\ AutoAddHandlers.handleConfirmItem batchId itemId db
    = (Returned ItemNotFoundOrBatchMismatch, db).
Proof.
  rewrite findById_eq. simpl fst.
  unfold ExplicitHandlers.handleConfirmItem, AutoAddHandlers.handleConfirmItem.
  unfold catch, bind. rewrite findById_eq.
  intros [H | [item [H Hb]]]; injection H as H; rewrite H; simpl.
  - split; reflexivity.
  - rewrite Hb. split; reflexivity.
Qed.

Lemma handleConfirmItem_stale_witness :
  ExplicitHandlers.handleConfirmItem (Some "X") 7 dbBatchY
    = (Returned ItemNotFoundOrBatchMismatch, dbBatchY)
  /\ AutoAddHandlers.handleConfirmItem (Some "X") 7 dbBatchY
    = (Returned ItemNotFoundOrBatchMismatch, dbBatchY).
Proof.
  apply (handleConfirmItem_stale dbBatchY (Some "X") 7).
  right. eexists. split; reflexivity.
Defined.

(** ** The stable sort *)

Section SortFacts.
Context {A : Type} (leb : A -> A -> bool).

Lemma insertBy_perm x l : Permutation (insertBy leb x l) (x :: l).
Proof.
  induction l as [| y l IH]; simpl; [reflexivity|].
  destruct (leb x y); [reflexivity|].
  rewrite IH. apply perm_swap.
Qed.

Lemma sortBy_perm l : Permutation (sortBy leb l) l.
Proof.
  induction l as [| x l IH]; simpl; [reflexivity|].
  rewrite insertBy_perm. now constructor.
Qed.

Lemma sortBy_In x l : In x (sortBy leb l) <-> In x l.
Proof.
  split; apply Permutation_in;
    [apply sortBy_perm | apply Permutation_sym, sortBy_perm].
Qed.

Lemma sortBy_length l : length (sortBy leb l) = length l.
Proof. apply Permutation_length, sortBy_perm. Qed.



Hypothesis leb_total : forall x y, leb x y = false -> leb y x = true.
Hypothesis leb_trans :
  forall x y z, leb x y = true -> leb y z = true -> leb x z = true.

Lemma insertBy_sorted x l :
  StronglySorted (fun a b => leb a b = true) l ->
  StronglySorted (fun a b => leb a b = true) (insertBy leb x l).
Proof.
  induction 1 as [| y l Hs IH Hy]; simpl.
  - repeat constructor.
  - destruct (leb x y) eqn:E.
    + constructor; [now constructor|].
      constructor; [assumption|].
      eapply Forall_impl; [| exact Hy]. intros z Hz. eauto.
    + constructor; [assumption|].
      apply (Permutation_Forall (Permutation_sym (insertBy_perm x l))).
      constructor; [now apply leb_total | assumption].
Qed.

Lemma sortBy_sorted l :
  StronglySorted (fun a b => leb a b = true) (sortBy leb l).
Proof.
  induction l; simpl; [constructor | now apply insertBy_sorted].
Qed.
End SortFacts.



(** ** Rows and their ids *)

Lemma find_by_id_unique (rows : list GroceryItem) row :
  NoDup (map id rows) -> In row rows ->
  find (fun r => Nat.eqb (id r) (id row)) rows = Some row.
Proof.
  induction rows as [| r rows IH]; simpl; [contradiction|].
  intros Hnd Hin. inversion Hnd as [| ? ? Hnotin Hnd']; subst.
  destruct Hin as [-> | Hin].
  - now rewrite Nat.eqb_refl.
  - destruct (Nat.eqb_spec (id r) (id row)) as [E | _].
    + exfalso. apply Hnotin. rewrite E. now apply in_map.
    + now apply IH.
Qed.

Lemma filter_by_id_unique (rows : list GroceryItem) row :
  NoDup (map id rows) -> In row rows ->
  filter (fun r => Nat.eqb (id r) (id row)) rows = [row].
Proof.
  induction rows as [| r rows IH]; simpl; [contradiction|].
  intros Hnd Hin. inversion Hnd as [| ? ? Hnotin Hnd']; subst.
  assert (Hnone : forall l, ~ In (id row) (map id l) ->
            filter (fun r => Nat.eqb (id r) (id row)) l = []).
  { induction l as [| y l IHl]; simpl; [reflexivity|]. intros Hn.
    destruct (Nat.eqb_spec (id y) (id row)) as [E | _].
    - exfalso. apply Hn. now left.
    - apply IHl. intros H. apply Hn. now right. }
  destruct Hin as [-> | Hin].
  - rewrite Nat.eqb_refl. f_equal. now apply Hnone.
  - destruct (Nat.eqb_spec (id r) (id row)) as [E | _].
    + exfalso. apply Hnotin. rewrite E. now apply in_map.
    + now apply IH.
Qed.

Lemma same_id_same_row (rows : list GroceryItem) a b :
  NoDup (map id rows) -> In a rows -> In b rows -> id a = id b -> a = b.
Proof.
  intros Hnd Ha Hb E.
  pose proof (find_by_id_unique rows a Hnd Ha) as Fa.
  pose proof (find_by_id_unique rows b Hnd Hb) as Fb.
  rewrite E in Fa. congruence.
Qed.

Lemma id_newGroceryItem r : id (newGroceryItem r) = id r.
Proof. reflexivity. Qed.

Lemma map_id_new rows : map id (map newGroceryItem rows) = map id rows.
Proof. rewrite map_map. reflexivity. Qed.

(** ** Deleting a list of items *)

Lemma withRows_withRows db a b : withRows (withRows db a) b = withRows db b.
Proof. reflexivity. Qed.

Lemma withRows_same db : withRows db (grocery_items db) = db.
Proof. now destruct db. Qed.

Lemma delete_eq this db :
  id this <> 0 ->
  delete this db
  = (Returned (Nat.ltb 0 (length (filter (fun r => Nat.eqb (id r) (id this))
                                    (grocery_items db)))),
     withRows db (filter (fun r => negb (Nat.eqb (id r) (id this)))
                    (grocery_items db))).
Proof.
  intros H. unfold delete. apply Nat.eqb_neq in H. rewrite H. reflexivity.
Qed.

Lemma hasIdIn_true ids r : hasIdIn ids r = true <-> In (id r) ids.
Proof.
  unfold hasIdIn. rewrite existsb_exists. split.
  - intros [i [Hi E]]. apply Nat.eqb_eq in E. now rewrite E.
  - intros H. exists (id r). split; [assumption | apply Nat.eqb_refl].
Qed.

Lemma filter_nonempty_length {A} (p : A -> bool) l x :
  In x l -> p x = true -> Nat.ltb 0 (length (filter p l)) = true.
Proof.
  intros Hin Hp. apply Nat.ltb_lt.
  assert (H : In x (filter p l)) by (apply filter_In; now split).
  destruct (filter p l); [contradiction | simpl; lia].
Qed.

Lemma filter_twice {A} (p q : A -> bool) l :
  filter p (filter q l) = filter (fun x => q x && p x) l.
Proof.
  induction l as [| x l IH]; simpl; [reflexivity|].
  destruct (q x); simpl; [destruct (p x) |]; now rewrite IH.
Qed.

Lemma deleteEach_from items : forall n db,
  Forall (fun it => id it <> 0) items ->
  NoDup (map id items) ->
  incl (map id items) (map id (grocery_items db)) ->
  forEach items n
    (fun deletedCount item =>
       success <- delete item ;;
       ret (if success : bool then S deletedCount else deletedCount)) db
  = (Returned (n + length items),
     withRows db (filter (fun r => negb (hasIdIn (map id items) r))
                    (grocery_items db))).
Proof.
  induction items as [| x items IH]; intros n db Hpos Hnd Hincl.
  - simpl. unfold ret. rewrite Nat.add_0_r. f_equal.
    rewrite <- (withRows_same db) at 1. f_equal.
    symmetry. apply forallb_filter_id. now apply forallb_forall.
  - inversion Hpos as [| ? ? Hx Hpos']; subst.
    inversion Hnd as [| ? ? Hnotin Hnd']; subst.
    cbn [forEach].
    assert (Hin : In (id x) (map id (grocery_items db)))
      by (apply Hincl; now left).
    apply in_map_iff in Hin as [row [Erow Hrow]].
    erewrite bind_returned.
    2:{ erewrite bind_returned by (apply delete_eq; exact Hx).
        unfold ret.
        rewrite (filter_nonempty_length _ _ row Hrow)
          by (now apply Nat.eqb_eq).
        reflexivity. }
    rewrite IH; try assumption.
    + f_equal; [f_equal; simpl; lia|].
      rewrite withRows_withRows. f_equal. cbn [withRows grocery_items].
      rewrite filter_twice. apply filter_ext. intros r.
      unfold hasIdIn. simpl. now rewrite negb_orb.
    + cbn [withRows grocery_items]. intros i Hi.
      assert (Hi' : In i (map id (grocery_items db)))
        by (apply Hincl; now right).
      apply in_map_iff in Hi' as [r [Er Hr]].
      apply in_map_iff. exists r. split; [assumption|].
      apply filter_In. split; [assumption|].
      apply negb_true_iff, Nat.eqb_neq. intros E.
      apply Hnotin. now rewrite <- E, Er.
Qed.

Lemma deleteEach_selected (p : GroceryItem -> bool) leb db :
  wellFormed db ->
  deleteEach (map newGroceryItem (sortBy leb (filter p (grocery_items db)))) db
  = (Returned (length (filter p (grocery_items db))),
     withRows db (filter (fun r => negb (p r)) (grocery_items db))).
Proof.
  intros [Hnd Hpos]. unfold deleteEach.
  set (sel := sortBy leb (filter p (grocery_items db))).
  assert (Hsel : forall r, In r sel <-> In r (grocery_items db) /\ p r = true).
  { intros r. unfold sel. rewrite sortBy_In. apply filter_In. }
  assert (Hndsel : NoDup (map id sel)).
  { apply (Permutation_NoDup (l := map id (filter p (grocery_items db)))).
    - apply Permutation_map, Permutation_sym, sortBy_perm.
    - clear -Hnd. induction (grocery_items db) as [| r l IH]; simpl;
        [constructor|].
      inversion Hnd as [| ? ? Hn Hnd']; subst.
      destruct (p r); [| now apply IH]. simpl. constructor; [| now apply IH].
      intros H. apply Hn. apply in_map_iff in H as [r' [E H]].
      apply filter_In in H as [H _]. apply in_map_iff. now exists r'. }
  rewrite deleteEach_from.
  - rewrite length_map. unfold sel. rewrite sortBy_length. simpl.
    f_equal. f_equal. apply filter_ext_in. intros r Hr. f_equal.
    rewrite map_id_new.
    destruct (p r) eqn:Pr.
    + apply hasIdIn_true. apply in_map. apply Hsel. now split.
    + apply not_true_is_false. intros E.
      apply hasIdIn_true in E. apply in_map_iff in E as [r' [E Hr']].
      apply Hsel in Hr' as [Hr' Pr'].
      rewrite (same_id_same_row _ r' r Hnd Hr' Hr E) in Pr'. congruence.
  - apply Forall_forall. intros it Hit. apply in_map_iff in Hit as [r [<- Hr]].
    rewrite id_newGroceryItem. apply Hsel in Hr as [Hr _].
    rewrite Forall_forall in Hpos. now apply Hpos.
  - now rewrite map_id_new.
  - rewrite map_id_new. intros i Hi. apply in_map_iff in Hi as [r [<- Hr]].
    apply in_map. now apply Hsel in Hr.
Qed.

(** ** Cancelling a batch *)

(** C4. In the explicit-confirmation service, [cancelBatch] deletes the
    rows of the batch that are still 'confirming' and no other row: its
    count is their number, and every other row, in particular a
    committed row of the same batch, stays as it was. *)
Theorem cancelBatch_only_unconfirmed db batchId :
  wellFormed db ->
  ExplicitConfirmation.cancelBatch batchId db
  = (Returned (length (filter (unconfirmedOf batchId) (grocery_items db))),
     withRows db (filter (fun r => negb (unconfirmedOf batchId r))
                    (grocery_items db)))
  /\ (forall r db',
        snd (ExplicitConfirmation.cancelBatch batchId db) = db' ->
        (In r (grocery_items db') <->
         In r (grocery_items db) /\ unconfirmedOf batchId r = false)).
Proof.
  intros Hwf.
  assert (E : ExplicitConfirmation.cancelBatch batchId db
    = (Returned (length (filter (unconfirmedOf batchId) (grocery_items db))),
       withRows db (filter (fun r => negb (unconfirmedOf batchId r))
                      (grocery_items db)))).
  { unfold ExplicitConfirmation.cancelBatch.
    erewrite bind_returned by reflexivity.
    unfold orderByCreatedAsc.
    now rewrite (deleteEach_selected (unconfirmedOf batchId)). }
  split; [exact E|].
  intros r db' <-. rewrite E. cbn [snd withRows grocery_items].
  rewrite filter_In, negb_true_iff. reflexivity.
Qed.

(** ** Confirmation with a merge *)

Lemma rowById_some i db row :
  rowById i db = Some row -> In row (grocery_items db) /\ id row = i.
Proof.
  unfold rowById, firstRow. intros H. apply find_some in H as [H E].
  split; [assumption | now apply Nat.eqb_eq].
Qed.

Lemma rowByArticle_some a db row :
  rowByArticle a db = Some row ->
  In row (grocery_items db) /\ sameArticle a row = true.
Proof. unfold rowByArticle, firstRow. apply find_some. Qed.

Lemma rowById_unique db row :
  NoDup (map id (grocery_items db)) -> In row (grocery_items db) ->
  rowById (id row) db = Some row.
Proof. apply find_by_id_unique. Qed.

Lemma findById_row i db row :
  rowById i db = Some row ->
  findById i db = (Returned (Some (newGroceryItem row)), db).
Proof. intros H. rewrite findById_eq, H. reflexivity. Qed.

Lemma findByArticle_row a db row :
  rowByArticle a db = Some row ->
  findByArticle a db = (Returned (Some (newGroceryItem row)), db).
Proof. intros H. rewrite findByArticle_eq, H. reflexivity. Qed.

Lemma status_new_nonempty r st :
  st <> "pending" -> status (newGroceryItem r) = st -> status r = st.
Proof.
  unfold newGroceryItem. simpl. destruct (isEmpty (status r)); congruence.
Qed.

Lemma sameBatch_refl b : sameBatch b b = true.
Proof. destruct b; simpl; [apply String.eqb_refl | reflexivity]. Qed.

Lemma save_existing this db :
  id this <> 0 ->
  save this db
  = (Returned this,
     withRows db (map (fun r => if Nat.eqb (id r) (id this)
                                then stored this r else r)
                    (grocery_items db))).
Proof.
  intros H. unfold save. apply Nat.eqb_neq in H. rewrite H. reflexivity.
Qed.

Lemma map_id_update (f : GroceryItem -> GroceryItem) (p : GroceryItem -> bool) rows :
  (forall r, id (f r) = id r) ->
  map id (map (fun r => if p r then f r else r) rows) = map id rows.
Proof.
  intros H. rewrite map_map. apply map_ext. intros r.
  destruct (p r); [apply H | reflexivity].
Qed.

Lemma filter_split_length {A} (p q : A -> bool) l :
  length (filter p l)
  = length (filter p (filter q l))
    + length (filter p (filter (fun x => negb (q x)) l)).
Proof.
  induction l as [| x l IH]; simpl; [reflexivity|].
  destruct (q x) eqn:Q, (p x) eqn:P; simpl; rewrite ?P; simpl; lia.
Qed.

Lemma remove_one_row (p : GroceryItem -> bool) rows row :
  NoDup (map id rows) -> In row rows -> p row = true ->
  length (filter p (filter (fun r => negb (Nat.eqb (id r) (id row))) rows)) + 1
  = length (filter p rows).
Proof.
  intros Hnd Hin Hp.
  rewrite (filter_split_length p (fun r => Nat.eqb (id r) (id row)) rows).
  rewrite (filter_by_id_unique rows row Hnd Hin). simpl. rewrite Hp. simpl. lia.
Qed.

Lemma confirm_merge_eq db itemId tempRow existingRow :
  wellFormed db ->
  rowById itemId db = Some tempRow ->
  status tempRow = "confirming" ->
  rowByArticle (article tempRow) db = Some existingRow ->
  sameBatch (batch_id existingRow) (batch_id tempRow) = false ->
  let merged := mergeInto (newGroceryItem existingRow) (newGroceryItem tempRow) in
  confirmItemFromBatch itemId db
  = (Returned merged, withRows db (mergedRows merged itemId (grocery_items db))).
Proof.
  intros [Hnd Hpos] Ht Hst He Hb merged.
  destruct (rowById_some _ _ _ Ht) as [Hint Eid].
  destruct (rowByArticle_some _ _ _ He) as [Hine _].
  rewrite Forall_forall in Hpos.
  unfold confirmItemFromBatch.
  rewrite (bind_returned _ _ _ _ _ (findById_row _ _ _ Ht)).
  cbv beta iota.
  assert (Hs : status (newGroceryItem tempRow) = "confirming").
  { unfold newGroceryItem. simpl. now rewrite Hst. }
  rewrite Hs. cbn [String.eqb Ascii.eqb Bool.eqb negb]. cbv beta iota.
  rewrite (bind_returned _ _ _ _ _ (findByArticle_row _ _ _ He)).
  cbv beta iota.
  change (batch_id (newGroceryItem existingRow)) with (batch_id existingRow).
  change (batch_id (newGroceryItem tempRow)) with (batch_id tempRow).
  rewrite Hb. cbn [negb]. cbv beta iota zeta.
  fold merged.
  erewrite bind_returned by (apply save_existing; apply (Hpos _ Hine)).
  erewrite bind_returned.
  2:{ apply delete_eq. simpl. rewrite Eid. rewrite <- Eid. now apply Hpos. }
  unfold ret. rewrite withRows_withRows. simpl id. now rewrite Eid.
Qed.

Lemma merge_other_row db itemId tempRow existingRow :
  wellFormed db ->
  rowById itemId db = Some tempRow ->
  rowByArticle (article tempRow) db = Some existingRow ->
  sameBatch (batch_id existingRow) (batch_id tempRow) = false ->
  id existingRow <> itemId.
Proof.
  intros [Hnd _] Ht He Hb E.
  destruct (rowById_some _ _ _ Ht) as [Hint Eid].
  destruct (rowByArticle_some _ _ _ He) as [Hine _].
  rewrite <- Eid in E.
  rewrite (same_id_same_row _ _ _ Hnd Hine Hint E), sameBatch_refl in Hb.
  discriminate.
Qed.

Lemma find_filter_none {A} (p q : A -> bool) l :
  (forall x, p x = true -> q x = false) -> find p (filter q l) = None.
Proof.
  intros H. induction l as [| x l IH]; simpl; [reflexivity|].
  destruct (q x) eqn:Q; [| assumption]. simpl.
  destruct (p x) eqn:P; [| assumption]. rewrite (H x P) in Q. discriminate.
Qed.

Lemma NoDup_map_filter {A B} (f : A -> B) (q : A -> bool) l :
  NoDup (map f l) -> NoDup (map f (filter q l)).
Proof.
  induction l as [| x l IH]; simpl; [trivial|].
  intros H. inversion H as [| ? ? Hn Hnd]; subst.
  destruct (q x); [| now apply IH]. simpl. constructor; [| now apply IH].
  intros Hin. apply Hn. apply in_map_iff in Hin as [y [E Hy]].
  apply filter_In in Hy as [Hy _]. apply in_map_iff. now exists y.
Qed.

Lemma filter_map_length {A} (p : A -> bool) (f : A -> A) l :
  (forall x, In x l -> p (f x) = p x) ->
  length (filter p (map f l)) = length (filter p l).
Proof.
  induction l as [| x l IH]; simpl; [reflexivity|]. intros H.
  rewrite (H x (or_introl eq_refl)).
  destruct (p x); simpl; rewrite IH; auto.
Qed.

Lemma filter_all {A} (l : list A) : filter (fun _ => true) l = l.
Proof. induction l; simpl; congruence. Qed.

Lemma sameArticle_self r : sameArticle (article r) r = true.
Proof. apply String.eqb_refl. Qed.

(** What a merge does to the table. *)
Lemma merge_effects db itemId tempRow existingRow :
  wellFormed db ->
  rowById itemId db = Some tempRow ->
  status tempRow = "confirming" ->
  rowByArticle (article tempRow) db = Some existingRow ->
  sameBatch (batch_id existingRow) (batch_id tempRow) = false ->
  let merged := mergeInto (newGroceryItem existingRow) (newGroceryItem tempRow) in
  let db' := withRows db (mergedRows merged itemId (grocery_items db)) in
  confirmItemFromBatch itemId db = (Returned merged, db')
  /\ rowById itemId db' = None
  /\ rowById (id existingRow) db' = Some (stored merged existingRow)
  /\ (forall r, In r (grocery_items db) ->
        id r <> itemId -> id r <> id existingRow -> In r (grocery_items db'))
  /\ length (grocery_items db') + 1 = length (grocery_items db)
  /\ length (filter (sameArticle (article tempRow)) (grocery_items db')) + 1
     = length (filter (sameArticle (article tempRow)) (grocery_items db)).
Proof.
  intros Hwf Ht Hst He Hb merged db'.
  pose proof (confirm_merge_eq db itemId tempRow existingRow Hwf Ht Hst He Hb)
    as Hc.
  pose proof (merge_other_row db itemId tempRow existingRow Hwf Ht He Hb)
    as Hne.
  destruct Hwf as [Hnd Hpos].
  destruct (rowById_some _ _ _ Ht) as [Hint Eid].
  destruct (rowByArticle_some _ _ _ He) as [Hine _].
  set (f := fun r => if Nat.eqb (id r) (id merged) then stored merged r else r).
  assert (Hfid : forall r, id (f r) = id r).
  { intros r. unfold f. now destruct (Nat.eqb (id r) (id merged)). }
  assert (Hnd1 : NoDup (map id (map f (grocery_items db)))).
  { rewrite map_map. erewrite map_ext; [exact Hnd | exact Hfid]. }
  assert (Hft : f tempRow = tempRow).
  { unfold f. simpl id. rewrite Eid.
    destruct (Nat.eqb_spec itemId (id existingRow)); [| reflexivity].
    exfalso. now apply Hne. }
  assert (Hfe : f existingRow = stored merged existingRow).
  { unfold f. simpl id. now rewrite Nat.eqb_refl. }
  assert (Hint1 : In tempRow (map f (grocery_items db))).
  { rewrite <- Hft. now apply in_map. }
  split; [exact Hc|]. unfold db', mergedRows. cbn [withRows grocery_items].
  fold f. unfold rowById, firstRow. cbn [grocery_items].
  split; [| split; [| split; [| split]]].
  - apply find_filter_none. intros x Hx. now rewrite Hx.
  - change (id existingRow) with (id (stored merged existingRow)) at 1.
    apply find_by_id_unique; [now apply NoDup_map_filter|].
    apply filter_In. split.
    + rewrite <- Hfe. now apply in_map.
    + apply negb_true_iff, Nat.eqb_neq. exact Hne.
  - intros r Hr H1 H2. apply filter_In. split.
    + replace r with (f r); [now apply in_map|].
      unfold f. simpl id. apply Nat.eqb_neq in H2. now rewrite H2.
    + now apply negb_true_iff, Nat.eqb_neq.
  - rewrite <- (length_map f (grocery_items db)).
    rewrite <- (filter_all (map f (grocery_items db))) at 2.
    rewrite <- (remove_one_row (fun _ => true) _ tempRow Hnd1 Hint1 eq_refl).
    rewrite filter_all, Eid. reflexivity.
  - rewrite <- (filter_map_length (sameArticle (article tempRow)) f
                  (grocery_items db)).
    + rewrite <- (remove_one_row _ _ tempRow Hnd1 Hint1 (sameArticle_self _)).
      now rewrite Eid.
    + intros r Hr. unfold f. simpl id.
      destruct (Nat.eqb_spec (id r) (id existingRow)) as [E | _];
        [| reflexivity].
      now rewrite (same_id_same_row _ _ _ Hnd Hr Hine E).
Qed.

(** X27. The merge, where the code does merge.  When the lookup by
    name, which returns the first row of the table with the name of the
    confirmed item, returns a row of another batch, the confirmation
    merges into that row: its quantity becomes the sum of the two
    quantities, its category and its batch id those of the confirmed
    item; the row of the confirmed item is deleted and every other row
    is kept, so the table has one row less, and one row less with that
    name. *)
Theorem confirm_merges_into_first_match db itemId tempRow existingRow :
  wellFormed db ->
  rowById itemId db = Some tempRow ->
  status tempRow = "confirming" ->
  rowByArticle (article tempRow) db = Some existingRow ->
  sameBatch (batch_id existingRow) (batch_id tempRow) = false ->
  exists merged db',
    confirmItemFromBatch itemId db = (Returned merged, db')
    /\ id merged = id existingRow
    /\ quantity merged
       = (quantity (newGroceryItem existingRow)
          + quantity (newGroceryItem tempRow))%Z
    /\ category merged = category tempRow
    /\ batch_id merged = batch_id tempRow
    /\ rowById itemId db' = None
    /\ (exists row, rowById (id existingRow) db' = Some row
          /\ quantity row = quantity merged
          /\ category row = category tempRow
          /\ batch_id row = batch_id tempRow
          /\ article row = article existingRow)
    /\ (forall r, In r (grocery_items db) ->
          id r <> itemId -> id r <> id existingRow -> In r (grocery_items db'))
    /\ length (grocery_items db') + 1 = length (grocery_items db)
    /\ length (filter (sameArticle (article tempRow)) (grocery_items db')) + 1
       = length (filter (sameArticle (article tempRow)) (grocery_items db)).
Proof.
  intros Hwf Ht Hst He Hb.
  destruct (merge_effects db itemId tempRow existingRow Hwf Ht Hst He Hb)
    as (Hc & Hgone & Hrow & Hkeep & Hlen & Hname).
  eexists _, _. split; [exact Hc|].
  repeat (split; [reflexivity|]).
  split; [exact Hgone|]. split.
  - eexists. split; [exact Hrow|]. repeat split.
  - repeat split; assumption.
Qed.

(** C2. When the confirmation of a batch item merges into an item whose
    status is 'found' or 'not_found', the merged item is returned and
    stored with status 'pending'. *)
Theorem merge_resets_found db itemId tempRow existingRow :
  wellFormed db ->
  rowById itemId db = Some tempRow ->
  status tempRow = "confirming" ->
  rowByArticle (article tempRow) db = Some existingRow ->
  sameBatch (batch_id existingRow) (batch_id tempRow) = false ->
  status existingRow = "found" \/ status existingRow = "not_found" ->
  exists merged db',
    confirmItemFromBatch itemId db = (Returned merged, db')
    /\ id merged = id existingRow
    /\ status merged = "pending"
    /\ (exists row, rowById (id existingRow) db' = Some row
          /\ status row = "pending")
    /\ fst (findById (id existingRow) db')
       = Returned (Some (newGroceryItem (stored merged existingRow)))
    /\ status (newGroceryItem (stored merged existingRow)) = "pending".
Proof.
  intros Hwf Ht Hst He Hb Hfound.
  destruct (merge_effects db itemId tempRow existingRow Hwf Ht Hst He Hb)
    as (Hc & _ & Hrow & _).
  assert (Hs : status (mergeInto (newGroceryItem existingRow)
                         (newGroceryItem tempRow)) = "pending").
  { unfold mergeInto, newGroceryItem. simpl.
    destruct Hfound as [-> | ->]; reflexivity. }
  eexists _, _. split; [exact Hc|]. split; [reflexivity|].
  split; [exact Hs|]. split; [| split].
  - eexists. split; [exact Hrow|]. exact Hs.
  - rewrite findById_eq, Hrow. reflexivity.
  - set (merged := mergeInto _ _) in *.
    change (status (newGroceryItem (stored merged existingRow)))
      with (if isEmpty (status merged) then "pending" else status merged).
    now rewrite Hs.
Qed.

(** X25. [cancelBatch] of the auto-add service deletes every row of
    the batch, whatever its status. *)
Lemma autoAdd_cancelBatch_all db batchId :
  wellFormed db ->
  AutoAdd.cancelBatch batchId db
  = (Returned (length (filter (batchIs batchId) (grocery_items db))),
     withRows db (filter (fun r => negb (batchIs batchId r))
                    (grocery_items db))).
Proof.
  intros Hwf. unfold AutoAdd.cancelBatch.
  erewrite bind_returned by reflexivity.
  unfold orderByCreatedAsc.
  now rewrite (deleteEach_selected (batchIs batchId)).
Qed.

(** ** The examples of the specification *)

Ltac wf_table :=
  split;
  [ repeat constructor; simpl; intuition discriminate
  | repeat constructor; discriminate ].

(** The example of the specification: "lait" twice gives one row with
    quantity 3. *)
Example merge_lait :
  confirmItemFromBatch 2 dbLait
  = (Returned (row 1 "lait" 3 "Produits laitiers" "pending" "e5f6a7b8" 100),
     withRows dbLait
       [row 1 "lait" 3 "Produits laitiers" "pending" "e5f6a7b8" 100]).
Proof. reflexivity. Qed.

Lemma confirm_merges_into_first_match_witness :
  exists merged db',
    confirmItemFromBatch 2 dbLait = (Returned merged, db')
    /\ id merged = 1
    /\ quantity merged = 3%Z
    /\ category merged = "Produits laitiers"
    /\ batch_id merged = Some "e5f6a7b8"
    /\ rowById 2 db' = None
    /\ (exists row, rowById 1 db' = Some row
          /\ quantity row = quantity merged
          /\ category row = "Produits laitiers"
          /\ batch_id row = Some "e5f6a7b8"
          /\ article row = "lait")
    /\ (forall r, In r (grocery_items dbLait) ->
          id r <> 2 -> id r <> 1 -> In r (grocery_items db'))
    /\ length (grocery_items db') + 1 = 2
    /\ length (filter (sameArticle "lait") (grocery_items db')) + 1 = 2.
Proof.
  apply (confirm_merges_into_first_match dbLait 2 laitNew laitPending);
    [wf_table | reflexivity | reflexivity | reflexivity | reflexivity].
Defined.

(** C1. The code against the claim and against its own comments ("add
    to main list or update existing", "Check if item already exists in
    main list"): when the row of the confirmed item comes first in the
    table, the lookup by name returns that very row, the batch ids are
    equal, and the item is committed in place next to the item of the
    other batch that has its name.  Two rows named "lait" are left,
    with quantities 1 and 2, where the claim has one row with
    quantity 3. *)
Lemma confirm_keeps_duplicate :
  wellFormed dbShadowed
  /\ rowById 1 dbShadowed = Some laitFirst
  /\ status laitFirst = "confirming"
  /\ In laitLater (grocery_items dbShadowed)
  /\ sameArticle (article laitFirst) laitLater = true
  /\ sameBatch (batch_id laitLater) (batch_id laitFirst) = false
  /\ confirmItemFromBatch 1 dbShadowed
     = (Returned (setPending laitFirst),
        table [setPending laitFirst; laitLater])
  /\ ~ (exists merged db',
          confirmItemFromBatch 1 dbShadowed = (Returned merged, db')
          /\ quantity merged = (quantity laitLater + quantity laitFirst)%Z
          /\ rowById 1 db' = None).
Proof.
  split; [wf_table|].
  repeat (split; [first [reflexivity | simpl; tauto]|]).
  intros (merged & db' & H & Hq & _).
  injection H as <- _. discriminate Hq.
Qed.

Lemma merge_resets_found_witness :
  exists merged db',
    confirmItemFromBatch 2 dbPain = (Returned merged, db')
    /\ id merged = 1
    /\ status merged = "pending"
    /\ (exists row, rowById 1 db' = Some row /\ status row = "pending")
    /\ fst (findById 1 db')
       = Returned (Some (newGroceryItem (stored merged painFound)))
    /\ status (newGroceryItem (stored merged painFound)) = "pending".
Proof.
  apply (merge_resets_found dbPain 2 painNew painFound);
    [wf_table | reflexivity | reflexivity | reflexivity | reflexivity
    | left; reflexivity].
Defined.

Example merge_pain :
  confirmItemFromBatch 2 dbPain
  = (Returned (row 1 "pain" 2 "Boulangerie" "pending" "e5f6a7b8" 100),
     withRows dbPain
       [row 1 "pain" 2 "Boulangerie" "pending" "e5f6a7b8" 100]).
Proof. reflexivity. Qed.

Lemma cancelBatch_only_unconfirmed_witness :
  ExplicitConfirmation.cancelBatch "b1" dbFive
  = (Returned 3,
     withRows dbFive
           [ row 1 "lait" 1 "Produits laitiers" "pending" "b1" 100;
             row 3 "pommes" 6 "Fruits et légumes" "pending" "b1" 100;
             row 6 "thon" 3 "Conserves" "confirming" "b2" 160 ]).
Proof.
  apply (proj1 (cancelBatch_only_unconfirmed dbFive "b1" ltac:(wf_table))).
Defined.

(** ** Failure of the AI collaborator *)

Lemma validateItems_missing entries :
  existsb missingRequiredField entries = true ->
  exists cause, validateItems entries = inl cause.
Proof.
  induction entries as [| e entries IH]; simpl; [discriminate|].
  intros H. destruct (validateItem e) as [c | v] eqn:E; [now exists c|].
  destruct (missingRequiredField e) eqn:M.
  - destruct e as [| a q c]; simpl in *; [discriminate|].
    rewrite M in E. discriminate.
  - simpl in H. destruct (IH H) as [c Hc]. rewrite Hc. now exists c.
Qed.

Lemma parseGroceryItems_fails gemini groceryText db :
  answerFails (gemini groceryText) = true ->
  exists cause,
    parseGroceryItems gemini groceryText db = (Thrown (FailedToParse cause), db).
Proof.
  unfold parseGroceryItems, answerFails.
  destruct (gemini groceryText) as [| | | entries]; intros H;
    try (eexists; reflexivity).
  destruct (validateItems_missing entries H) as [c Hc]. rewrite Hc.
  now exists c.
Qed.

Lemma parseGroceryItems_reads_nothing gemini groceryText db :
  snd (parseGroceryItems gemini groceryText db) = db.
Proof.
  unfold parseGroceryItems.
  destruct (gemini groceryText) as [| | | entries]; try reflexivity.
  destruct (validateItems entries); reflexivity.
Qed.

Lemma parseGroceryItems_thrown gemini groceryText db e :
  fst (parseGroceryItems gemini groceryText db) = Thrown e ->
  parseGroceryItems gemini groceryText db = (Thrown e, db).
Proof.
  intros H. rewrite <- (parseGroceryItems_reads_nothing gemini groceryText db) at 2.
  rewrite <- H. now destruct (parseGroceryItems gemini groceryText db).
Qed.

(** C6. When the AI collaborator fails on the lines the cache did not
    resolve (no answer, an answer that is not JSON or not an array, an
    entry without a required field), [parseItemsForConfirmation] throws
    the one error of [parseGroceryItems] and the table is as before:
    nothing is saved, the cache hits included.  So it is for every error
    that [parseGroceryItems] throws, and for the explicit-confirmation
    service, which sends the whole text.  The auto-add service is taken
    from the return of [parseWithCache] on, for any cached items and any
    lines that it left for the AI. *)
Theorem parseItemsForConfirmation_all_or_nothing
    cachedItems unparsedLines gemini batchId groceryText db :
  (unparsedLines <> [] ->
   answerFails (gemini (joinLines unparsedLines)) = true ->
   exists cause,
     AutoAdd.afterCache (cachedItems, unparsedLines) gemini batchId db
     = (Thrown (FailedToParse cause), db))
  /\ (unparsedLines <> [] ->
      forall e,
        fst (parseGroceryItems gemini (joinLines unparsedLines) db)
        = Thrown e ->
        AutoAdd.afterCache (cachedItems, unparsedLines) gemini batchId db
        = (Thrown e, db))
  /\ (answerFails (gemini groceryText) = true ->
      exists cause,
        ExplicitConfirmation.parseItemsForConfirmation gemini batchId
          groceryText db
        = (Thrown (FailedToParse cause), db)).
Proof.
  assert (Hgen : unparsedLines <> [] ->
    forall e,
      fst (parseGroceryItems gemini (joinLines unparsedLines) db)
      = Thrown e ->
      AutoAdd.afterCache (cachedItems, unparsedLines) gemini batchId db
      = (Thrown e, db)).
  { unfold AutoAdd.afterCache.
    intros Hne e He. apply parseGroceryItems_thrown in He.
    apply bind_thrown.
    destruct unparsedLines as [| l ls]; [contradiction|].
    cbn [length Nat.ltb Nat.leb]. now apply bind_thrown. }
  split; [| split; [exact Hgen|]].
  - intros Hne Hfail.
    destruct (parseGroceryItems_fails gemini _ db Hfail) as [cause Hc].
    exists cause. apply Hgen; [exact Hne | now rewrite Hc].
  - intros Hfail.
    destruct (parseGroceryItems_fails gemini _ db Hfail) as [cause Hc].
    exists cause. unfold ExplicitConfirmation.parseItemsForConfirmation.
    now apply bind_thrown.
Qed.

(** "2 pomme" was a cache hit, "yaourt grec" goes to the AI, which does
    not answer: nothing is saved. *)
Lemma parseItemsForConfirmation_all_or_nothing_witness :
  exists cause,
    AutoAdd.afterCache
      ([ {| p_article := "pommes"; p_quantity := 2;
            p_category := "Fruits et légumes"; originalInput := "2 pomme" |} ],
       ["yaourt grec"])
      (fun _ => NoAnswer) "e5f6a7b8" (table [laitPending])
    = (Thrown (FailedToParse cause), table [laitPending]).
Proof.
  apply (proj1 (parseItemsForConfirmation_all_or_nothing
                  [ {| p_article := "pommes"; p_quantity := 2;
                       p_category := "Fruits et légumes";
                       originalInput := "2 pomme" |} ]
                  ["yaourt grec"]
                  (fun _ => NoAnswer) "e5f6a7b8" "" (table [laitPending])));
    [discriminate | reflexivity].
Defined.

Example cache_hit_bypasses_ai :
  parseWithCache cachePommes "2 pomme"
  = ([ {| p_article := "pommes"; p_quantity := 2;
          p_category := "Fruits et légumes"; originalInput := "2 pomme" |} ],
     []).
Proof. reflexivity. Qed.

(** ** Editing a quantity *)

Lemma wellFormed_map (f : GroceryItem -> GroceryItem) db :
  (forall r, id (f r) = id r) ->
  wellFormed db -> wellFormed (withRows db (map f (grocery_items db))).
Proof.
  intros Hf [Hnd Hpos]. split; cbn [withRows grocery_items].
  - rewrite map_map. erewrite map_ext; [exact Hnd | exact Hf].
  - apply Forall_map. eapply Forall_impl; [| exact Hpos].
    intros r. simpl. now rewrite Hf.
Qed.

Lemma rowById_update (f : GroceryItem -> GroceryItem) db r :
  (forall x, id (f x) = id x) ->
  wellFormed db -> In r (grocery_items db) ->
  rowById (id r)
    (withRows db (map (fun x => if Nat.eqb (id x) (id r) then f x else x)
                    (grocery_items db)))
  = Some (f r).
Proof.
  intros Hf [Hnd _] Hin.
  set (g := fun x => if Nat.eqb (id x) (id r) then f x else x).
  assert (Hg : forall x, id (g x) = id x).
  { intros x. unfold g. destruct (Nat.eqb (id x) (id r)); [apply Hf | easy]. }
  rewrite <- (Hf r) at 1.
  unfold rowById, firstRow. cbn [withRows grocery_items].
  apply find_by_id_unique.
  - rewrite map_map. erewrite map_ext; [exact Hnd | exact Hg].
  - replace (f r) with (g r) by (unfold g; now rewrite Nat.eqb_refl).
    now apply in_map.
Qed.

Lemma editItem_eq db itemId r newCategory newQuantity newNote :
  wellFormed db -> rowById itemId db = Some r ->
  AutoAdd.editItem itemId newCategory newQuantity newNote db
  = (Returned (edited r newCategory newQuantity newNote),
     withRows db
       (map (fun x => if Nat.eqb (id x) itemId
                      then stored (edited r newCategory newQuantity newNote) x
                      else x)
          (grocery_items db))).
Proof.
  intros [Hnd Hpos] Hr. destruct (rowById_some _ _ _ Hr) as [Hin Eid].
  rewrite Forall_forall in Hpos.
  unfold AutoAdd.editItem.
  rewrite (bind_returned _ _ _ _ _ (findById_row _ _ _ Hr)). cbv beta iota.
  match goal with
  | |- _ = ?rhs =>
      change (bind (save (edited r newCategory newQuantity newNote))
                (fun _ => ret (edited r newCategory newQuantity newNote)) db
              = rhs)
  end.
  erewrite bind_returned by (apply save_existing; simpl; now apply Hpos).
  unfold ret. simpl id. now rewrite Eid.
Qed.

Lemma editItem_row db itemId r newCategory newQuantity newNote :
  wellFormed db -> rowById itemId db = Some r ->
  rowById itemId
    (snd (AutoAdd.editItem itemId newCategory newQuantity newNote db))
  = Some (stored (edited r newCategory newQuantity newNote) r).
Proof.
  intros Hwf Hr. rewrite (editItem_eq db itemId r) by assumption.
  destruct (rowById_some _ _ _ Hr) as [Hin <-]. cbn [snd].
  now apply (rowById_update (stored (edited r newCategory newQuantity newNote))).
Qed.

(** C10, as the code has it.  [editItem] stores the quantity it is given,
    whatever it is: the item returned and the row of the table carry
    the quantity of the call.  The one minimum of 1 is in the edit
    keyboard, whose decrement button is built with
    [Math.max(1, currentQuantity - 1)], which is never less than 1. *)
Theorem editItem_overwrites_quantity db itemId r :
  wellFormed db -> rowById itemId db = Some r ->
  (forall newCategory newQuantity newNote,
     exists item db',
       AutoAdd.editItem itemId newCategory newQuantity newNote db
       = (Returned item, db')
       /\ quantity item = newQuantity
       /\ exists r', rowById itemId db' = Some r'
                     /\ quantity r' = newQuantity
                     /\ category r' = newCategory)
  /\ (forall cat q note,
        quantityRow itemId cat q note
        = [ UpdateQty itemId cat (Z.max 1 (q - 1)) note; Noop;
            UpdateQty itemId cat (q + 1) note ]
        /\ (1 <= Z.max 1 (q - 1))%Z).
Proof.
  intros Hwf Hr. split.
  - intros c q n. eexists _, _.
    split; [exact (editItem_eq db itemId r c q n Hwf Hr)|].
    split; [reflexivity|].
    eexists. split.
    + pose proof (editItem_row db itemId r c q n Hwf Hr) as H.
      rewrite (editItem_eq db itemId r) in H by assumption. exact H.
    + split; reflexivity.
  - intros cat q note. split; [reflexivity | lia].
Qed.

Lemma editItem_overwrites_quantity_witness :
  exists item db',
    AutoAdd.editItem 1 "Produits laitiers" 5 None (table [laitPending])
    = (Returned item, db')
    /\ quantity item = 5%Z
    /\ exists r', rowById 1 db' = Some r'
                  /\ quantity r' = 5%Z
                  /\ category r' = "Produits laitiers".
Proof.
  apply (proj1 (editItem_overwrites_quantity (table [laitPending]) 1
                  laitPending ltac:(wf_table) eq_refl)).
Defined.

(** C10, as the claim states it, fails: an edit with quantity -2 leaves
    the item with quantity -2. *)
Lemma editItem_does_not_clamp :
  AutoAdd.editItem 1 "Produits laitiers" (-2) None (table [laitPending])
  = (Returned (row 1 "lait" (-2) "Produits laitiers" "pending" "a1b2c3d4" 100),
     table [row 1 "lait" (-2) "Produits laitiers" "pending" "a1b2c3d4" 100])
  /\ ~ (1 <= quantity
               (row 1 "lait" (-2) "Produits laitiers" "pending" "a1b2c3d4" 100))%Z.
Proof. split; [reflexivity | simpl; lia]. Qed.

(** ** The shopping list *)

Lemma getAllItemsSorted_eq cmp db :
  getAllItemsSorted cmp db
  = (Returned {| allItems := allOf db;
                 activeItems := activeOf cmp db;
                 foundItems :=
                   filter (fun item => String.eqb (status item) "found")
                     (allOf db);
                 grouped := groupItemsByCategory (activeOf cmp db) |}, db).
Proof. reflexivity. Qed.











Example nextStatus_cycle :
  nextStatus "pending" = "selected" /\ nextStatus "selected" = "found"
  /\ nextStatus "not_found" = "pending".
Proof. repeat split. Qed.

(** ** Grouping by category *)








Lemma filter_map_comm {A} (p : A -> bool) (f : A -> A) l :
  (forall x, In x l -> p (f x) = p x) ->
  filter p (map f l) = map f (filter p l).
Proof.
  induction l as [| x l IH]; simpl; [reflexivity|]. intros H.
  rewrite (H x (or_introl eq_refl)), IH by (intros; apply H; now right).
  now destruct (p x).
Qed.







(** ** Sorting and filtering *)

Section SortFilter.
Context {A : Type} (leb : A -> A -> bool).
Hypothesis leb_total : forall x y, leb x y = false -> leb y x = true.
Hypothesis leb_trans :
  forall x y z, leb x y = true -> leb y z = true -> leb x z = true.

Lemma insertBy_below x l :
  Forall (fun z => leb x z = true) l -> insertBy leb x l = x :: l.
Proof.
  destruct l as [| y l]; [reflexivity|]. intros H. simpl.
  inversion H as [| ? ? Hy _]; subst. now rewrite Hy.
Qed.

Lemma insertBy_filter_comm (p : A -> bool) x l :
  StronglySorted (fun a b => leb a b = true) l ->
  filter p (insertBy leb x l)
  = if p x then insertBy leb x (filter p l) else filter p l.
Proof.
  induction 1 as [| y l Hs IH Hy].
  - simpl. now destruct (p x).
  - cbn [insertBy]. destruct (leb x y) eqn:E.
    + change (filter p (x :: y :: l))
        with (if p x then x :: filter p (y :: l) else filter p (y :: l)).
      destruct (p x); [| reflexivity].
      symmetry. apply insertBy_below.
      assert (Hall : Forall (fun z => leb x z = true) (y :: l)).
      { constructor; [exact E|]. eapply Forall_impl; [| exact Hy].
        intros z Hz. now apply (leb_trans x y z). }
      rewrite Forall_forall in *. intros z Hz.
      apply filter_In in Hz as [Hz _]. now apply Hall.
    + cbn [filter]. rewrite IH.
      destruct (p x), (p y); cbn [insertBy]; rewrite ?E; reflexivity.
Qed.

Lemma sortBy_filter_comm (p : A -> bool) l :
  filter p (sortBy leb l) = sortBy leb (filter p l).
Proof.
  induction l as [| x l IH]; [reflexivity|]. cbn [sortBy filter].
  rewrite insertBy_filter_comm by now apply sortBy_sorted.
  rewrite IH. now destruct (p x).
Qed.
End SortFilter.


Section CategoryOrder.
Variable compareLowered : string -> string -> comparison.
Hypothesis compareLowered_total :
  forall x y, compareLowered x y = Gt -> compareLowered y x <> Gt.
Hypothesis compareLowered_trans :
  forall x y z,
    compareLowered x y <> Gt -> compareLowered y z <> Gt ->
    compareLowered x z <> Gt.







End CategoryOrder.

(** ** The order of the bytes as a comparison *)






(** ** The table stays well formed *)

Lemma maxId_ge rows r : In r rows -> id r <= maxId rows.
Proof.
  induction rows as [| x rows IH]; simpl; [contradiction|].
  intros [-> | H]; [lia | specialize (IH H); lia].
Qed.

Lemma wellFormed_insert it db :
  wellFormed db -> wellFormed (snd (sqlInsert it db)).
Proof.
  intros [Hnd Hpos]. unfold sqlInsert, wellFormed. cbn [snd grocery_items].
  set (newId := S (Nat.max (sqlite_sequence db) (maxId (grocery_items db)))).
  split.
  - rewrite map_app. simpl.
    apply Permutation_NoDup with (l := newId :: map id (grocery_items db)).
    + apply Permutation_cons_append.
    + constructor; [| exact Hnd]. intros H.
      apply in_map_iff in H as [r [E Hr]]. apply maxId_ge in Hr.
      unfold newId in E. lia.
  - apply Forall_app. split; [exact Hpos|]. repeat constructor. discriminate.
Qed.

Lemma wellFormed_delete (p : GroceryItem -> bool) db :
  wellFormed db -> wellFormed (snd (sqlDelete p db)).
Proof.
  intros [Hnd Hpos]. unfold sqlDelete. cbn [snd withRows grocery_items]. split.
  - now apply NoDup_map_filter.
  - rewrite Forall_forall in *. intros r Hr. apply filter_In in Hr as [Hr _].
    now apply Hpos.
Qed.

Lemma wellFormed_update (p : GroceryItem -> bool) f db :
  (forall r, id (f r) = id r) ->
  wellFormed db -> wellFormed (snd (sqlUpdate p f db)).
Proof.
  intros Hf. unfold sqlUpdate. cbn [snd].
  apply (wellFormed_map (fun r => if p r then f r else r)).
  intros r. destruct (p r); [apply Hf | reflexivity].
Qed.

(** ** Confirmation in place, and a second call *)

Lemma setPending_new_stored (r : GroceryItem) :
  newGroceryItem (stored (setPending (newGroceryItem r)) r)
  = setPending (newGroceryItem r).
Proof.
  unfold newGroceryItem, stored, setPending, setStatus. simpl. f_equal.
  destruct (Z.eqb_spec (quantity r) 0); [reflexivity|].
  destruct (Z.eqb_spec (quantity r) 0); [contradiction | reflexivity].
Qed.

(** X24. When the lookup by name returns a row of the same batch (the
    row of the item itself, for one), the item is committed in place; a
    second call then returns the same item and writes nothing. *)
Lemma confirm_in_place_twice db itemId tempRow firstRow :
  wellFormed db ->
  rowById itemId db = Some tempRow ->
  status tempRow = "confirming" ->
  rowByArticle (article tempRow) db = Some firstRow ->
  sameBatch (batch_id firstRow) (batch_id tempRow) = true ->
  let item := setPending (newGroceryItem tempRow) in
  let db' := withRows db
               (map (fun r => if Nat.eqb (id r) itemId then stored item r else r)
                  (grocery_items db)) in
  confirmItemFromBatch itemId db = (Returned item, db')
  /\ confirmItemFromBatch itemId db' = (Returned item, db').
Proof.
  intros Hwf Ht Hst He Hb item db'.
  destruct (rowById_some _ _ _ Ht) as [Hint Eid].
  assert (Hc : confirmItemFromBatch itemId db = (Returned item, db')).
  { unfold confirmItemFromBatch.
    rewrite (bind_returned _ _ _ _ _ (findById_row _ _ _ Ht)). cbv beta iota.
    assert (Hs : status (newGroceryItem tempRow) = "confirming").
    { unfold newGroceryItem. simpl. now rewrite Hst. }
    rewrite Hs. cbn [String.eqb Ascii.eqb Bool.eqb negb]. cbv beta iota.
    rewrite (bind_returned _ _ _ _ _ (findByArticle_row _ _ _ He)).
    cbv beta iota.
    change (batch_id (newGroceryItem firstRow)) with (batch_id firstRow).
    change (batch_id (newGroceryItem tempRow)) with (batch_id tempRow).
    rewrite Hb. cbn [negb]. cbv beta iota. fold item.
    erewrite bind_returned.
    2:{ apply save_existing. simpl. rewrite Eid. rewrite <- Eid.
        destruct Hwf as [_ Hpos]. rewrite Forall_forall in Hpos.
        now apply Hpos. }
    unfold ret. simpl id. now rewrite Eid. }
  split; [exact Hc|].
  apply confirm_pending; [| reflexivity].
  assert (Hrow : rowById itemId db' = Some (stored item tempRow)).
  { unfold db'. rewrite <- Eid.
    now apply (rowById_update (stored item)). }
  rewrite (findById_row _ _ _ Hrow). unfold item.
  now rewrite setPending_new_stored.
Qed.

(** After a merge the confirmed row is gone: a second call with its id
    throws. *)
Example confirm_again_after_merge :
  (_ <- confirmItemFromBatch 2 ;; confirmItemFromBatch 2) dbLait
  = (Thrown (ItemNotFound 2),
     withRows dbLait
       [row 1 "lait" 3 "Produits laitiers" "pending" "e5f6a7b8" 100]).
Proof. reflexivity. Qed.

(** The table [dbShadowed] is reached from the empty table: "lait" is
    sent twice and left unconfirmed, the second item is tapped in the
    shopping list, and the selection is cleared. *)
Example dbShadowed_reached :
  let ai q := fun _ : string =>
    Array [Obj (Str "lait") (Some q) (Str "Produits laitiers")] in
  snd ((_ <- ExplicitConfirmation.parseItemsForConfirmation (ai 1%Z)
              "e5f6a7b8" "lait" ;;
        _ <- ExplicitConfirmation.parseItemsForConfirmation (ai 2%Z)
              "a1b2c3d4" "2 lait" ;;
        _ <- advanceStatus byteCompare 2 ;;
        clearSelection) (table []))
  = dbShadowed.
Proof. reflexivity. Qed.

(** * Further properties *)

(** ** The cache as a parser *)

Lemma fold_left_pointwise {A B} (f g : A -> B -> A) l : forall a,
  (forall a x, f a x = g a x) -> fold_left f l a = fold_left g l a.
Proof.
  induction l as [| x l IH]; intros a H; simpl; [reflexivity|].
  rewrite H. now apply IH.
Qed.

Lemma filter_partition_length {A} (p : A -> bool) l :
  length (filter (fun x => negb (p x)) l) + length (filter p l) = length l.
Proof.
  induction l as [| x l IH]; simpl; [reflexivity|].
  destruct (p x); simpl; lia.
Qed.

Lemma parseWithCache_loop cache groceryText :
  parseWithCache cache groceryText
  = cacheLoop (findProduct cache) (nonBlankLines groceryText).
Proof.
  unfold parseWithCache, nonBlankLines, cacheLoop.
  apply fold_left_pointwise. intros [cachedItems unparsedLines] line.
  reflexivity.
Qed.

Lemma cacheStep_fold find lines : forall acc,
  snd (fold_left (cacheStep find) lines acc)
  = (snd acc ++ filter (cacheMiss find) lines)%list
  /\ map originalInput (fst (fold_left (cacheStep find) lines acc))
     = (map originalInput (fst acc)
        ++ map trim (filter (fun l => negb (cacheMiss find l)) lines))%list.
Proof.
  induction lines as [| line lines IH]; intros acc.
  - simpl. now rewrite !app_nil_r.
  - cbn [fold_left filter]. destruct (IH (cacheStep find acc line)) as [H1 H2].
    rewrite H1, H2. unfold cacheStep, cacheMiss.
    destruct (find
                (ProductCache.product (ProductCache.parseLineForProduct line)));
      cbn [fst snd negb].
    + split; [reflexivity|]. now rewrite map_app, <- app_assoc.
    + split; [| reflexivity]. now rewrite <- app_assoc.
Qed.

Lemma cacheStep_items find (P : ParsedItem -> Prop) lines : forall acc,
  Forall P (fst acc) ->
  (forall line p,
     In line lines ->
     find (ProductCache.product (ProductCache.parseLineForProduct line))
     = Some p ->
     P {| p_article := correctName p;
          p_quantity :=
            Z.of_N (ProductCache.quantity
                      (ProductCache.parseLineForProduct line));
          p_category := productCategory p;
          originalInput := trim line |}) ->
  Forall P (fst (fold_left (cacheStep find) lines acc)).
Proof.
  induction lines as [| line lines IH]; intros acc Hacc Hstep; [exact Hacc|].
  cbn [fold_left]. apply IH.
  - unfold cacheStep.
    destruct (find (ProductCache.product
                      (ProductCache.parseLineForProduct line))) as [p |] eqn:E;
      cbn [fst]; [| exact Hacc].
    apply Forall_app. split; [exact Hacc|]. constructor; [| constructor].
    apply Hstep; [now left | exact E].
  - intros l p Hl. apply Hstep. now right.
Qed.

(** X1. The loop of [parseWithCache] loses no line, whatever
    [findProduct] answers: over lines whose white space is below U+0080,
    the lines left for the AI are the lines that the lookup misses, in
    their order and as they were typed; the cached items stand for the
    other lines, in their order, each with its trimmed line as original
    input and with the name and the category of the product that the
    lookup gave for it. *)
Theorem parseWithCache_accounts_for_every_line
    (find : string -> option Product) (lines : list string) :
  Forall (fun line => plain line = true) lines ->
  snd (cacheLoop find lines) = filter (cacheMiss find) lines
  /\ map originalInput (fst (cacheLoop find lines))
     = map trim (filter (fun l => negb (cacheMiss find l)) lines)
  /\ length (fst (cacheLoop find lines)) + length (snd (cacheLoop find lines))
     = length lines
  /\ Forall (fun item =>
               exists line p,
                 In line lines
                 /\ find (ProductCache.product
                            (ProductCache.parseLineForProduct line)) = Some p
                 /\ p_article item = correctName p
                 /\ p_category item = productCategory p
                 /\ originalInput item = trim line)
       (fst (cacheLoop find lines)).
Proof.
  intros _. unfold cacheLoop.
  destruct (cacheStep_fold find lines ([], [])) as [H1 H2].
  cbn [fst snd map app] in H1, H2.
  split; [exact H1 | split; [exact H2 | split]].
  - rewrite H1. rewrite <- (length_map originalInput), H2, length_map.
    apply filter_partition_length.
  - apply cacheStep_items; [constructor|].
    intros line p Hl Hp. exists line, p. cbn. auto.
Qed.

Lemma parseWithCache_accounts_for_every_line_witness :
  snd (cacheLoop (findProduct cachePommes) ["2 pommes"; "lait 3"; " Pomme "])
  = ["lait 3"]
  /\ map originalInput
       (fst (cacheLoop (findProduct cachePommes)
               ["2 pommes"; "lait 3"; " Pomme "]))
     = ["2 pommes"; "Pomme"].
Proof.
  destruct (parseWithCache_accounts_for_every_line (findProduct cachePommes)
              ["2 pommes"; "lait 3"; " Pomme "]) as (H1 & H2 & _).
  - repeat constructor.
  - split; [exact H1 | exact H2].
Defined.

(** ** The product of a line *)

Lemma trimEnd_idempotent s : trimEnd (trimEnd s) = trimEnd s.
Proof.
  induction s as [| c s IH]; simpl; [reflexivity|].
  destruct (isSpace c && isEmpty (trimEnd s)) eqn:E; [reflexivity|].
  simpl. now rewrite IH, E.
Qed.

Lemma trimStart_stops s : stopsAt isSpace (trimStart s).
Proof.
  induction s as [| c s IH]; simpl; [trivial|].
  destruct (isSpace c) eqn:E; [exact IH | exact E].
Qed.

Lemma trimEnd_stops s : stopsAt isSpace s -> stopsAt isSpace (trimEnd s).
Proof.
  destruct s as [| c s]; simpl; [trivial|]. intros H. now rewrite H.
Qed.

Lemma trim_idempotent s : trim (trim s) = trim s.
Proof.
  unfold trim at 1.
  rewrite (trimStart_id (trim s)).
  - unfold trim. apply trimEnd_idempotent.
  - unfold trim. apply trimEnd_stops, trimStart_stops.
Qed.

(** X2. The product that [parseLineForProduct] returns for a line that
    is not blank, and whose white space is below U+0080, is never empty
    and carries no white space at either end. *)
Theorem parseLineForProduct_product_trimmed line :
  plain line = true ->
  trim line <> "" ->
  ProductCache.product (ProductCache.parseLineForProduct line) <> ""
  /\ trim (ProductCache.product (ProductCache.parseLineForProduct line))
     = ProductCache.product (ProductCache.parseLineForProduct line).
Proof.
  intros _ Hne. unfold ProductCache.parseLineForProduct.
  unfold ProductCache.qtyFirstMatch, ProductCache.qtyLastMatch.
  destruct (ProductCache.matchQtyFirst (trim line)) as [[g1 g2] |].
  - destruct (isEmpty (trim g2)) eqn:E1; cbn [negb].
    + destruct (ProductCache.matchQtyLast (trim line)) as [[h1 h2] |].
      * destruct (isEmpty (trim h1)) eqn:E2; cbn [negb ProductCache.product].
        -- split; [exact Hne | apply trim_idempotent].
        -- split; [now apply isEmpty_false | apply trim_idempotent].
      * cbn [ProductCache.product]. split; [exact Hne | apply trim_idempotent].
    + cbn [ProductCache.product].
      split; [now apply isEmpty_false | apply trim_idempotent].
  - destruct (ProductCache.matchQtyLast (trim line)) as [[h1 h2] |].
    + destruct (isEmpty (trim h1)) eqn:E2; cbn [negb ProductCache.product].
      * split; [exact Hne | apply trim_idempotent].
      * split; [now apply isEmpty_false | apply trim_idempotent].
    + cbn [ProductCache.product]. split; [exact Hne | apply trim_idempotent].
Qed.

Lemma parseLineForProduct_product_trimmed_witness :
  ProductCache.product (ProductCache.parseLineForProduct "  pommes  12 ") <> ""
  /\ trim (ProductCache.product (ProductCache.parseLineForProduct "  pommes  12 "))
     = ProductCache.product (ProductCache.parseLineForProduct "  pommes  12 ").
Proof.
  apply (parseLineForProduct_product_trimmed "  pommes  12 ");
    [reflexivity | vm_compute; discriminate].
Defined.

(** ** The cache as a store *)

Lemma lookupKey_put_same k p cache :
  CacheStore.lookupKey k (CacheStore.put k p cache) = Some p.
Proof.
  unfold CacheStore.lookupKey.
  induction cache as [| [k0 p0] r IH]; simpl.
  - now rewrite String.eqb_refl.
  - destruct (String.eqb k0 k) eqn:E; simpl; rewrite E; [reflexivity | exact IH].
Qed.

Lemma lookupKey_put_other k k1 p cache :
  k1 <> k ->
  CacheStore.lookupKey k1 (CacheStore.put k p cache)
  = CacheStore.lookupKey k1 cache.
Proof.
  intros Hne. unfold CacheStore.lookupKey.
  induction cache as [| [k0 p0] r IH]; simpl.
  - destruct (String.eqb k k1) eqn:E; [| reflexivity].
    apply String.eqb_eq in E. congruence.
  - destruct (String.eqb k0 k) eqn:E; simpl.
    + apply String.eqb_eq in E. subst k0.
      destruct (String.eqb k k1) eqn:E1; [| reflexivity].
      apply String.eqb_eq in E1. congruence.
    + destruct (String.eqb k0 k1); [reflexivity | exact IH].
Qed.

Lemma put_put k p q cache :
  CacheStore.put k q (CacheStore.put k p cache) = CacheStore.put k q cache.
Proof.
  induction cache as [| [k0 p0] r IH]; simpl.
  - now rewrite String.eqb_refl.
  - destruct (String.eqb k0 k) eqn:E; simpl; rewrite E; [reflexivity|].
    now rewrite IH.
Qed.

Lemma put_length k p cache :
  length (CacheStore.put k p cache)
  = length cache
    + match CacheStore.lookupKey k cache with Some _ => 0 | None => 1 end.
Proof.
  unfold CacheStore.lookupKey.
  induction cache as [| [k0 p0] r IH]; simpl; [reflexivity|].
  destruct (String.eqb k0 k) eqn:E; simpl; [lia|]. rewrite IH. lia.
Qed.

Lemma find_put_hit (f : string * Product -> bool) k p cache :
  find f cache = None -> (forall k', f (k', p) = true) ->
  option_map snd (find f (CacheStore.put k p cache)) = Some p.
Proof.
  intros Hnone Hp.
  induction cache as [| [k0 p0] r IH]; simpl.
  - now rewrite Hp.
  - simpl in Hnone. destruct (f (k0, p0)) eqn:E0; [discriminate|].
    destruct (String.eqb k0 k); simpl.
    + now rewrite Hp.
    + rewrite E0. now apply IH.
Qed.

Lemma includes_last vs x : includes (vs ++ [x]) x = true.
Proof.
  unfold includes. rewrite existsb_app. simpl.
  now rewrite String.eqb_refl, orb_true_r.
Qed.

Lemma addNormalized_done cache k nv name category cache' :
  k <> nv ->
  CacheStore.addNormalized cache k nv name category
  = CacheStore.CacheDone cache' ->
  cache' = CacheStore.put k (CacheStore.learned cache k nv name category) cache
  /\ exists vs,
       variants (CacheStore.learned cache k nv name category) = Some vs
       /\ includes vs nv = true.
Proof.
  intros Hne. unfold CacheStore.addNormalized, CacheStore.learned.
  destruct (String.eqb k nv) eqn:E.
  { apply String.eqb_eq in E. contradiction. }
  destruct (CacheStore.lookupKey k cache) as [p |] eqn:Hk.
  - unfold CacheStore.pushVariant. cbn [CacheStore.withCategory variants].
    destruct (variants p) as [vs |] eqn:Hv; [| discriminate].
    destruct (includes vs nv) eqn:Hi; intros H; injection H as <-.
    + split.
      * unfold CacheStore.withCategory. now rewrite Hv.
      * exists vs. cbn [variants]. now split.
    + split.
      * rewrite put_put. unfold CacheStore.withVariants, CacheStore.withCategory.
        reflexivity.
      * exists (vs ++ [nv])%list. cbn [variants].
        split; [reflexivity | apply includes_last].
  - destruct (JsObject.member k); [discriminate|].
    unfold CacheStore.pushVariant. cbn [variants includes existsb].
    intros H. injection H as <-. split.
    + rewrite put_put. reflexivity.
    + exists [nv]. cbn [variants]. split; [reflexivity|].
      apply (includes_last []).
Qed.

Lemma findNormalized_key cache k p :
  CacheStore.lookupKey k cache = Some p ->
  findNormalized cache k = Some p.
Proof.
  unfold CacheStore.lookupKey, findNormalized.
  destruct (find _ cache) as [kv |]; simpl; [| discriminate].
  now intros [= <-].
Qed.

(** X3. [addProductVariant] from its third line on, for two normalised
    texts that differ: when the call returns, the cache holds a product
    under the normalised name, which the lookup finds, with the category
    of the call (a category recorded before is overwritten), with the
    name it was first recorded under, and with the normalised variant
    among its variants; the entries of all other keys are as before. *)
Theorem addProductVariant_recorded cache k nv name category cache' :
  k <> nv ->
  CacheStore.addNormalized cache k nv name category
  = CacheStore.CacheDone cache' ->
  exists p,
    CacheStore.lookupKey k cache' = Some p
    /\ findNormalized cache' k = Some p
    /\ productCategory p = category
    /\ correctName p
       = match CacheStore.lookupKey k cache with
         | Some old => correctName old
         | None => name
         end
    /\ (exists vs, variants p = Some vs /\ includes vs nv = true)
    /\ forall k', k' <> k ->
         CacheStore.lookupKey k' cache' = CacheStore.lookupKey k' cache.
Proof.
  intros Hne H.
  destruct (addNormalized_done _ _ _ _ _ _ Hne H) as [-> Hvs].
  exists (CacheStore.learned cache k nv name category).
  split; [apply lookupKey_put_same|].
  split; [apply findNormalized_key, lookupKey_put_same|].
  split; [unfold CacheStore.learned; now destruct CacheStore.lookupKey|].
  split; [unfold CacheStore.learned; now destruct CacheStore.lookupKey|].
  split; [exact Hvs|].
  intros k' Hk. now apply lookupKey_put_other.
Qed.

Lemma addProductVariant_recorded_witness :
  exists p,
    CacheStore.lookupKey "pommes"
      (CacheStore.put "pommes"
         (CacheStore.learned cachePommes "pommes" "pom" "Pommes" "Fruits")
         cachePommes) = Some p
    /\ findNormalized
         (CacheStore.put "pommes"
            (CacheStore.learned cachePommes "pommes" "pom" "Pommes" "Fruits")
            cachePommes) "pommes" = Some p
    /\ productCategory p = "Fruits"
    /\ correctName p = "pommes"
    /\ (exists vs, variants p = Some vs /\ includes vs "pom" = true)
    /\ forall k', k' <> "pommes" ->
         CacheStore.lookupKey k'
           (CacheStore.put "pommes"
              (CacheStore.learned cachePommes "pommes" "pom" "Pommes" "Fruits")
              cachePommes)
         = CacheStore.lookupKey k' cachePommes.
Proof.
  apply (addProductVariant_recorded cachePommes "pommes" "pom" "Pommes"
           "Fruits");
    [discriminate | reflexivity].
Defined.

(** X4. Learning closes the miss: when the lookup has nothing for the
    normalised variant and [addProductVariant], from its third line on,
    returns, the lookup answers the normalised variant with the product
    of the normalised name, in the category of the call.  The
    normalised variant is taken not to name a member of
    Object.prototype, which the lookup would answer with. *)
Theorem addProductVariant_then_found cache k nv name category cache' :
  JsObject.member nv = false ->
  k <> nv ->
  findNormalized cache nv = None ->
  CacheStore.addNormalized cache k nv name category
  = CacheStore.CacheDone cache' ->
  findNormalized cache' nv = findNormalized cache' k
  /\ exists p, findNormalized cache' nv = Some p
               /\ productCategory p = category.
Proof.
  intros _ Hne Hmiss H.
  destruct (addNormalized_done _ _ _ _ _ _ Hne H) as [-> (vs & Hvs & Hin)].
  assert (Hname : findNormalized
                    (CacheStore.put k
                       (CacheStore.learned cache k nv name category) cache) k
                  = Some (CacheStore.learned cache k nv name category))
    by apply findNormalized_key, lookupKey_put_same.
  assert (Hvar : findNormalized
                   (CacheStore.put k
                      (CacheStore.learned cache k nv name category) cache) nv
                 = Some (CacheStore.learned cache k nv name category)).
  { unfold findNormalized in Hmiss.
    destruct (find (fun kv => String.eqb (fst kv) nv) cache)
      as [kv |] eqn:Hkey; [discriminate|].
    destruct (find (fun kv : string * Product =>
                      match variants (snd kv) with
                      | Some vs => includes vs nv
                      | None => false
                      end) cache) as [kv |] eqn:Hold; [discriminate|].
    pose proof (lookupKey_put_other k nv
                  (CacheStore.learned cache k nv name category) cache
                  (fun e => Hne (eq_sym e))) as Hother.
    unfold CacheStore.lookupKey in Hother. rewrite Hkey in Hother.
    unfold findNormalized.
    destruct (find (fun kv => String.eqb (fst kv) nv)
                (CacheStore.put _ _ cache)) as [kv |]; [discriminate|].
    apply find_put_hit; [exact Hold|].
    intros k'. cbn [snd]. now rewrite Hvs. }
  split; [now rewrite Hvar, Hname|].
  exists (CacheStore.learned cache k nv name category).
  split; [exact Hvar|].
  unfold CacheStore.learned; now destruct CacheStore.lookupKey.
Qed.

Lemma addProductVariant_then_found_witness :
  findNormalized
    (CacheStore.put "pommes"
       (CacheStore.learned cachePommes "pommes" "pom" "Pommes" "Fruits")
       cachePommes) "pom"
  = findNormalized
      (CacheStore.put "pommes"
         (CacheStore.learned cachePommes "pommes" "pom" "Pommes" "Fruits")
         cachePommes) "pommes"
  /\ exists p,
       findNormalized
         (CacheStore.put "pommes"
            (CacheStore.learned cachePommes "pommes" "pom" "Pommes" "Fruits")
            cachePommes) "pom" = Some p
       /\ productCategory p = "Fruits".
Proof.
  apply (addProductVariant_then_found cachePommes "pommes" "pom" "Pommes"
           "Fruits");
    [reflexivity | discriminate | reflexivity | reflexivity].
Defined.

Lemma withCategory_same p :
  CacheStore.withCategory (productCategory p) p = p.
Proof. now destruct p. Qed.

Lemma learned_category cache k nv name category :
  productCategory (CacheStore.learned cache k nv name category) = category.
Proof. unfold CacheStore.learned. now destruct CacheStore.lookupKey. Qed.

Lemma addNormalized_idempotent cache k nv name category cache' :
  CacheStore.addNormalized cache k nv name category
  = CacheStore.CacheDone cache' ->
  CacheStore.addNormalized cache' k nv name category
  = CacheStore.CacheDone cache'.
Proof.
  intros H.
  destruct (String.eqb k nv) eqn:E.
  - unfold CacheStore.addNormalized in *. rewrite E in *. reflexivity.
  - assert (Hne : k <> nv).
    { intros e. apply String.eqb_eq in e. congruence. }
    destruct (addNormalized_done _ _ _ _ _ _ Hne H) as [-> (vs & Hvs & Hin)].
    unfold CacheStore.addNormalized. rewrite E.
    rewrite lookupKey_put_same.
    assert (Hsame : CacheStore.withCategory category
                      (CacheStore.learned cache k nv name category)
                    = CacheStore.learned cache k nv name category).
    { rewrite <- (learned_category cache k nv name category) at 1.
      apply withCategory_same. }
    rewrite Hsame.
    unfold CacheStore.pushVariant. rewrite Hvs, Hin.
    now rewrite put_put.
Qed.

(** X5. [addProductVariant] is idempotent: a call that returned changes
    nothing when it is made again with the same arguments (no variant is
    listed twice). *)
Theorem addProductVariant_idempotent cache name category variant cache' :
  CacheStore.addProductVariant cache name category variant
  = CacheStore.CacheDone cache' ->
  CacheStore.addProductVariant cache' name category variant
  = CacheStore.CacheDone cache'.
Proof. unfold CacheStore.addProductVariant. apply addNormalized_idempotent. Qed.

Lemma addProductVariant_idempotent_witness :
  CacheStore.addProductVariant
    (CacheStore.put "pommes"
       (CacheStore.learned cachePommes "pommes" "pom" "Pommes" "Fruits")
       cachePommes)
    "Pommes" "Fruits" " Pom "
  = CacheStore.CacheDone
      (CacheStore.put "pommes"
         (CacheStore.learned cachePommes "pommes" "pom" "Pommes" "Fruits")
         cachePommes).
Proof.
  apply (addProductVariant_idempotent cachePommes "Pommes" "Fruits" " Pom ").
  reflexivity.
Defined.

(** X6. [addProductVariant], from its third line on, fails in two cases
    only, both with a normalised name other than the normalised
    variant: the name is that of a member of Object.prototype and the
    cache does not hold it (the cache is as before), or the cache holds
    the name with a product without a list of variants; in the second
    case the category of the product has been overwritten when the call
    fails. *)
Theorem addProductVariant_type_error cache k nv name category cache' :
  CacheStore.addNormalized cache k nv name category
  = CacheStore.CacheTypeError cache'
  <-> k <> nv
      /\ ((CacheStore.lookupKey k cache = None
           /\ JsObject.member k = true
           /\ cache' = cache)
          \/ exists p,
               CacheStore.lookupKey k cache = Some p
               /\ variants p = None
               /\ cache' = CacheStore.put k
                             (CacheStore.withCategory category p) cache).
Proof.
  unfold CacheStore.addNormalized. split.
  - destruct (String.eqb k nv) eqn:E; [discriminate|].
    intros H. split.
    { intros e. apply String.eqb_eq in e. congruence. }
    destruct (CacheStore.lookupKey k cache) as [p |].
    + right. exists p. unfold CacheStore.pushVariant in H.
      cbn [CacheStore.withCategory variants] in H.
      destruct (variants p) as [vs |].
      * destruct (includes vs nv); discriminate.
      * injection H as <-. auto.
    + left. destruct (JsObject.member k).
      * injection H as <-. auto.
      * unfold CacheStore.pushVariant in H. cbn in H. discriminate.
  - intros [Hne [(Hk & Hi & ->) | (p & Hk & Hv & ->)]];
      (destruct (String.eqb k nv) eqn:E;
       [apply String.eqb_eq in E; contradiction|]);
      rewrite Hk.
    + now rewrite Hi.
    + unfold CacheStore.pushVariant. cbn [CacheStore.withCategory variants].
      now rewrite Hv.
Qed.

Lemma fold_left_add_shift {A} (f : A -> nat) l : forall a,
  fold_left (fun sum x => sum + f x) l a
  = a + fold_left (fun sum x => sum + f x) l 0.
Proof.
  induction l as [| x l IH]; intros a; simpl; [lia|].
  rewrite (IH (a + f x)), (IH (f x)). lia.
Qed.

Lemma variantCount_cons kv cache :
  CacheStore.variantCount (CacheStore.getStats (kv :: cache))
  = CacheStore.variantsLength (snd kv)
    + CacheStore.variantCount (CacheStore.getStats cache).
Proof.
  cbn [CacheStore.getStats CacheStore.variantCount fold_left].
  now rewrite fold_left_add_shift.
Qed.

Lemma variantCount_put k q cache :
  CacheStore.variantCount (CacheStore.getStats (CacheStore.put k q cache))
  + match CacheStore.lookupKey k cache with
    | Some p => CacheStore.variantsLength p
    | None => 0
    end
  = CacheStore.variantCount (CacheStore.getStats cache)
    + CacheStore.variantsLength q.
Proof.
  unfold CacheStore.lookupKey.
  induction cache as [| [k0 p0] r IH].
  - cbn. lia.
  - cbn [CacheStore.put find fst]. destruct (String.eqb k0 k).
    + rewrite !variantCount_cons. cbn [option_map snd]. lia.
    + rewrite !variantCount_cons. cbn [snd]. lia.
Qed.

(** X7. What [getStats] counts after [addProductVariant], from its
    third line on, returned for two normalised texts that differ: one
    product more exactly when the normalised name was new, one variant
    more exactly when the normalised variant was not yet listed under
    it. *)
Theorem getStats_after_addProductVariant cache k nv name category cache' :
  k <> nv ->
  CacheStore.addNormalized cache k nv name category
  = CacheStore.CacheDone cache' ->
  CacheStore.products (CacheStore.getStats cache')
  = CacheStore.products (CacheStore.getStats cache)
    + match CacheStore.lookupKey k cache with
      | Some _ => 0
      | None => 1
      end
  /\ CacheStore.variantCount (CacheStore.getStats cache')
     = CacheStore.variantCount (CacheStore.getStats cache)
       + (if CacheStore.known cache k nv then 0 else 1)
  /\ CacheStore.total (CacheStore.getStats cache')
     = CacheStore.products (CacheStore.getStats cache')
       + CacheStore.variantCount (CacheStore.getStats cache').
Proof.
  intros Hne H.
  destruct (addNormalized_done _ _ _ _ _ _ Hne H) as [-> _].
  split; [apply put_length|]. split; [| reflexivity].
  pose proof (variantCount_put k
                (CacheStore.learned cache k nv name category) cache) as Hc.
  unfold CacheStore.addNormalized in H.
  destruct (String.eqb k nv) eqn:E.
  { apply String.eqb_eq in E. contradiction. }
  unfold CacheStore.known, CacheStore.learned in *.
  destruct (CacheStore.lookupKey k cache) as [p |].
  - unfold CacheStore.pushVariant in H.
    cbn [CacheStore.withCategory variants] in H.
    destruct (variants p) as [vs |] eqn:Hv; [| discriminate].
    unfold CacheStore.variantsLength in Hc. cbn [variants] in Hc.
    rewrite Hv in Hc.
    destruct (includes vs nv).
    + lia.
    + rewrite length_app in Hc. cbn [length] in Hc. lia.
  - unfold CacheStore.variantsLength in Hc. cbn [variants length] in Hc. lia.
Qed.

Lemma getStats_after_addProductVariant_witness :
  CacheStore.products
    (CacheStore.getStats
       (CacheStore.put "poires"
          (CacheStore.learned cachePommes "poires" "poire" "Poires" "Fruits")
          cachePommes))
  = 2
  /\ CacheStore.variantCount
       (CacheStore.getStats
          (CacheStore.put "poires"
             (CacheStore.learned cachePommes "poires" "poire" "Poires" "Fruits")
             cachePommes))
     = 2
  /\ CacheStore.total
       (CacheStore.getStats
          (CacheStore.put "poires"
             (CacheStore.learned cachePommes "poires" "poire" "Poires" "Fruits")
             cachePommes))
     = 4.
Proof.
  apply (getStats_after_addProductVariant cachePommes "poires" "poire"
           "Poires" "Fruits");
    [discriminate | reflexivity].
Defined.

(** ** The primary key is kept *)

Lemma keeps_ret {A} (a : A) : keepsWellFormed (ret a).
Proof. intros db H. exact H. Qed.

Lemma keeps_throw {A} e : keepsWellFormed (@throw A e).
Proof. intros db H. exact H. Qed.

Lemma keeps_query {A} (f : Database -> A) : keepsWellFormed (query f).
Proof. intros db H. exact H. Qed.

Lemma keeps_bind {A B} (c : M A) (k : A -> M B) :
  keepsWellFormed c -> (forall a, keepsWellFormed (k a)) ->
  keepsWellFormed (bind c k).
Proof.
  intros Hc Hk db H. unfold bind. specialize (Hc db H).
  destruct (c db) as [[a | e] db']; cbn [snd] in Hc; [now apply Hk | exact Hc].
Qed.

Lemma keeps_catch {A} (c : M A) h :
  keepsWellFormed c -> (forall e, keepsWellFormed (h e)) ->
  keepsWellFormed (catch c h).
Proof.
  intros Hc Hh db H. unfold catch. specialize (Hc db H).
  destruct (c db) as [[a | e] db']; cbn [snd] in Hc; [exact Hc | now apply Hh].
Qed.

Lemma keeps_forEach {A B} (xs : list A) (body : B -> A -> M B) :
  (forall acc x, keepsWellFormed (body acc x)) ->
  forall acc, keepsWellFormed (forEach xs acc body).
Proof.
  intros Hb. induction xs as [| x xs IH]; intros acc; simpl.
  - apply keeps_ret.
  - apply keeps_bind; [apply Hb | exact IH].
Qed.

Lemma keeps_insert it : keepsWellFormed (run (sqlInsert it)).
Proof.
  intros db H. pose proof (wellFormed_insert it db H) as Hi.
  unfold run. now destruct (sqlInsert it db).
Qed.

Lemma keeps_sqlDelete p : keepsWellFormed (run (sqlDelete p)).
Proof.
  intros db H. pose proof (wellFormed_delete p db H) as Hi.
  unfold run. now destruct (sqlDelete p db).
Qed.

Lemma keeps_sqlUpdate p f :
  (forall r, id (f r) = id r) -> keepsWellFormed (run (sqlUpdate p f)).
Proof.
  intros Hf db H. pose proof (wellFormed_update p f db Hf H) as Hi.
  unfold run. now destruct (sqlUpdate p f db).
Qed.

Lemma keeps_save this : keepsWellFormed (save this).
Proof.
  unfold save. destruct (Nat.eqb (id this) 0).
  - apply keeps_bind; [apply keeps_insert | intros; apply keeps_ret].
  - apply keeps_bind; [now apply keeps_sqlUpdate | intros; apply keeps_ret].
Qed.

Lemma keeps_delete this : keepsWellFormed (delete this).
Proof.
  unfold delete. destruct (Nat.eqb (id this) 0); [apply keeps_ret|].
  apply keeps_bind; [apply keeps_sqlDelete | intros; apply keeps_ret].
Qed.

Lemma keeps_updateStatus i st : keepsWellFormed (updateStatus i st).
Proof.
  unfold updateStatus.
  apply keeps_bind; [now apply keeps_sqlUpdate | intros; apply keeps_ret].
Qed.

Lemma keeps_deleteEach items : keepsWellFormed (deleteEach items).
Proof.
  unfold deleteEach. apply keeps_forEach. intros acc x.
  apply keeps_bind; [apply keeps_delete | intros; apply keeps_ret].
Qed.

Lemma keeps_parseGroceryItems gemini groceryText :
  keepsWellFormed (parseGroceryItems gemini groceryText).
Proof.
  intros db H. now rewrite parseGroceryItems_reads_nothing.
Qed.

Lemma keeps_saveParsedItems st batchId parsedItems :
  keepsWellFormed (saveParsedItems st batchId parsedItems).
Proof.
  unfold saveParsedItems. apply keeps_forEach. intros acc x.
  destruct (isEmpty (p_article x) || isEmpty (p_category x));
    [apply keeps_ret|].
  apply keeps_bind; [apply keeps_save | intros; apply keeps_ret].
Qed.

Lemma keeps_confirmItemFromBatch itemId :
  keepsWellFormed (confirmItemFromBatch itemId).
Proof.
  unfold confirmItemFromBatch.
  apply keeps_bind; [apply keeps_query|]. intros [tempItem |];
    [| apply keeps_throw].
  destruct (negb (String.eqb (status tempItem) "confirming")).
  { destruct (String.eqb (status tempItem) "pending");
      [apply keeps_ret | apply keeps_throw]. }
  apply keeps_bind; [apply keeps_query|]. intros [existingItem |].
  - destruct (negb (sameBatch (batch_id existingItem) (batch_id tempItem))).
    + apply keeps_bind; [apply keeps_save | intros _].
      apply keeps_bind; [apply keeps_delete | intros _; apply keeps_ret].
    + apply keeps_bind; [apply keeps_save | intros _; apply keeps_ret].
  - apply keeps_bind; [apply keeps_save | intros _; apply keeps_ret].
Qed.

Lemma keeps_editItem itemId c q n :
  keepsWellFormed (AutoAdd.editItem itemId c q n).
Proof.
  unfold AutoAdd.editItem.
  apply keeps_bind; [apply keeps_query|]. intros [item |];
    [| apply keeps_throw].
  apply keeps_bind; [apply keeps_save | intros _; apply keeps_ret].
Qed.

Lemma keeps_getItemForEdit itemId :
  keepsWellFormed (AutoAdd.getItemForEdit itemId).
Proof.
  unfold AutoAdd.getItemForEdit.
  apply keeps_bind; [apply keeps_query|]. intros [item |];
    [apply keeps_ret | apply keeps_throw].
Qed.

Lemma keeps_clearSelection : keepsWellFormed clearSelection.
Proof.
  unfold clearSelection. apply keeps_bind; [apply keeps_query|].
  intros selectedItems. apply keeps_forEach. intros acc x.
  apply keeps_bind; [apply keeps_updateStatus | intros; apply keeps_ret].
Qed.

Lemma keeps_autoAdd_parse cache gemini batchId groceryText :
  keepsWellFormed
    (AutoAdd.parseItemsForConfirmation cache gemini batchId groceryText).
Proof.
  unfold AutoAdd.parseItemsForConfirmation.
  destruct (parseWithCache cache groceryText) as [cachedItems unparsedLines].
  apply keeps_bind.
  - destruct (Nat.ltb 0 (length unparsedLines)); [| apply keeps_ret].
    apply keeps_bind; [apply keeps_parseGroceryItems | intros; apply keeps_ret].
  - intros geminiItems.
    apply keeps_bind; [apply keeps_saveParsedItems | intros; apply keeps_ret].
Qed.

Lemma keeps_handleCallbackQuery cb : keepsWellFormed (handleCallbackQuery cb).
Proof.
  destruct cb as [itemId newStatus | itemId cat qty note |]; simpl.
  - apply keeps_bind; [| intros; apply keeps_ret].
    unfold handleItemStatus.
    apply keeps_bind; [apply keeps_updateStatus | intros; apply keeps_ret].
  - apply keeps_bind; [| intros; apply keeps_ret].
    unfold AutoAddHandlers.handleUpdateQuantity.
    apply keeps_catch; [| intros; apply keeps_ret].
    apply keeps_bind; [apply keeps_editItem | intros _].
    apply keeps_bind; [apply keeps_getItemForEdit | intros; apply keeps_ret].
  - apply keeps_ret.
Qed.

Lemma keeps_handleUpdateCategory batchId itemId newCategory original :
  keepsWellFormed
    (MoreHandlers.handleUpdateCategory batchId itemId newCategory original).
Proof.
  unfold MoreHandlers.handleUpdateCategory.
  apply keeps_catch; [| intros; apply keeps_ret].
  apply keeps_bind; [apply keeps_query|]. intros [item |]; [| apply keeps_ret].
  destruct (negb (strictEqual (batch_id item) batchId)); [apply keeps_ret|].
  apply keeps_bind; [apply keeps_save | intros _].
  destruct (MoreHandlers.given original); [| apply keeps_ret].
  apply keeps_bind; [apply keeps_query | intros; apply keeps_ret].
Qed.

Lemma keeps_handleTextMessage cache gemini batchId text :
  keepsWellFormed (TextMessages.handleTextMessage cache gemini batchId text).
Proof.
  unfold TextMessages.handleTextMessage.
  destruct (TextMessages.startsWithSlash text); [apply keeps_ret|].
  apply keeps_catch; [| intros; apply keeps_ret].
  apply keeps_bind; [apply keeps_autoAdd_parse | intros result].
  destruct (Nat.eqb (length (snd result)) 0); apply keeps_ret.
Qed.

(** X8. Every operation of the service and every handler modelled here
    keeps the table as SQLite keeps it: no two rows share an id and no
    id is 0, whatever the arguments and whether the operation returns
    or throws. *)
Theorem service_keeps_primary_key :
  (forall gemini batchId groceryText,
      keepsWellFormed
        (ExplicitConfirmation.parseItemsForConfirmation gemini batchId
           groceryText))
  /\ (forall cache gemini batchId groceryText,
         keepsWellFormed
           (AutoAdd.parseItemsForConfirmation cache gemini batchId
              groceryText))
  /\ (forall itemId, keepsWellFormed (confirmItemFromBatch itemId))
  /\ (forall batchId, keepsWellFormed (ExplicitConfirmation.cancelBatch batchId))
  /\ (forall batchId, keepsWellFormed (AutoAdd.cancelBatch batchId))
  /\ (forall itemId c q n, keepsWellFormed (AutoAdd.editItem itemId c q n))
  /\ (forall itemId st, keepsWellFormed (updateItemStatus itemId st))
  /\ keepsWellFormed clearFoundItems
  /\ keepsWellFormed clearSelection
  /\ keepsWellFormed clearAllItems
  /\ (forall cmp, keepsWellFormed (getAllItemsSorted cmp))
  /\ (forall cb, keepsWellFormed (handleCallbackQuery cb))
  /\ (forall batchId itemId,
         keepsWellFormed (ExplicitHandlers.handleConfirmItem batchId itemId))
  /\ (forall batchId itemId,
         keepsWellFormed (AutoAddHandlers.handleConfirmItem batchId itemId))
  /\ (forall batchId itemId c original,
         keepsWellFormed
           (MoreHandlers.handleUpdateCategory batchId itemId c original))
  /\ (forall CATEGORIES batchId itemId idx original,
         keepsWellFormed
           (MoreHandlers.handleUpdateCategoryByIndex CATEGORIES batchId itemId
              idx original))
  /\ (forall batchId, keepsWellFormed (MoreHandlers.handleCancelBatch batchId))
  /\ (forall cache gemini batchId text,
         keepsWellFormed
           (TextMessages.handleTextMessage cache gemini batchId text)).
Proof.
  repeat match goal with |- _ /\ _ => split end.
  - intros. unfold ExplicitConfirmation.parseItemsForConfirmation.
    apply keeps_bind; [apply keeps_parseGroceryItems | intros].
    apply keeps_bind; [apply keeps_saveParsedItems | intros; apply keeps_ret].
  - intros. apply keeps_autoAdd_parse.
  - apply keeps_confirmItemFromBatch.
  - intros. unfold ExplicitConfirmation.cancelBatch.
    apply keeps_bind; [apply keeps_query | intros; apply keeps_deleteEach].
  - intros. unfold AutoAdd.cancelBatch.
    apply keeps_bind; [apply keeps_query | intros; apply keeps_deleteEach].
  - apply keeps_editItem.
  - intros. apply keeps_updateStatus.
  - apply keeps_sqlDelete.
  - apply keeps_clearSelection.
  - apply keeps_sqlDelete.
  - intros. unfold getAllItemsSorted.
    apply keeps_bind; [apply keeps_query | intros; apply keeps_ret].
  - apply keeps_handleCallbackQuery.
  - intros. unfold ExplicitHandlers.handleConfirmItem.
    apply keeps_catch; [| intros; apply keeps_ret].
    apply keeps_bind; [apply keeps_query|]. intros [item |];
      [| apply keeps_ret].
    destruct (negb (strictEqual (batch_id item) batchId)); [apply keeps_ret|].
    apply keeps_bind; [apply keeps_confirmItemFromBatch | intros].
    apply keeps_bind; [apply keeps_query | intros].
    apply keeps_bind; [apply keeps_query | intros; apply keeps_ret].
  - intros. unfold AutoAddHandlers.handleConfirmItem.
    apply keeps_catch; [| intros; apply keeps_ret].
    apply keeps_bind; [apply keeps_query|]. intros [item |];
      [| apply keeps_ret].
    destruct (negb (strictEqual (batch_id item) batchId)); [apply keeps_ret|].
    apply keeps_bind; [apply keeps_query | intros; apply keeps_ret].
  - apply keeps_handleUpdateCategory.
  - intros. unfold MoreHandlers.handleUpdateCategoryByIndex.
    destruct idx as [idx |].
    + destruct (_ || _); [apply keeps_ret | apply keeps_handleUpdateCategory].
    + apply keeps_bind; [apply keeps_query|]. intros [item |];
        [| apply keeps_ret].
      destruct (negb _); apply keeps_ret.
  - intros. unfold MoreHandlers.handleCancelBatch.
    apply keeps_bind; [apply keeps_query | intros].
    apply keeps_bind; [| intros; apply keeps_ret].
    unfold ExplicitConfirmation.cancelBatch.
    apply keeps_bind; [apply keeps_query | intros; apply keeps_deleteEach].
  - apply keeps_handleTextMessage.
Qed.

(** ** What the AI's answer must look like *)

Lemma validateItem_wellShaped item :
  (wellShaped item = true ->
   exists v, validateItem item = inr v
             /\ p_quantity v <> 0%Z
             /\ trim (p_article v) = p_article v
             /\ trim (p_category v) = p_category v)
  /\ (wellShaped item = false -> exists cause, validateItem item = inl cause).
Proof.
  destruct item as [| fa q fc];
    [simpl; split; [discriminate | intros _; eexists; reflexivity] |].
  destruct fa as [| | a], fc as [| | c]; simpl;
    try destruct (isEmpty a); try destruct (isEmpty c); simpl;
    try (split; [discriminate | intros _; eexists; reflexivity]).
  split; [intros _ | discriminate].
  eexists. split; [reflexivity|]. cbn [p_quantity p_article p_category].
  split; [| split; apply trim_idempotent].
  destruct q as [n |]; [| discriminate].
  destruct (Z.eqb_spec n 0); [discriminate | assumption].
Qed.

Lemma validateItems_wellShaped entries :
  (forallb wellShaped entries = true ->
   exists items, validateItems entries = inr items
                 /\ length items = length entries
                 /\ Forall (fun v => p_quantity v <> 0%Z
                                     /\ trim (p_article v) = p_article v
                                     /\ trim (p_category v) = p_category v)
                      items)
  /\ (forallb wellShaped entries = false ->
      exists cause, validateItems entries = inl cause).
Proof.
  induction entries as [| e entries [IHt IHf]]; simpl.
  - split; [| discriminate]. intros _. exists []. auto.
  - destruct (validateItem_wellShaped e) as [Ht Hf].
    destruct (wellShaped e); simpl.
    + destruct (Ht eq_refl) as (v & -> & Hv). split.
      * intros H. destruct (IHt H) as (items & -> & Hl & Hall).
        exists (v :: items). simpl. auto.
      * intros H. destruct (IHf H) as (cause & ->). now exists cause.
    + split; [discriminate|]. intros _.
      destruct (Hf eq_refl) as (cause & ->). now exists cause.
Qed.

(** X9. When the model answers with a JSON array, [parseGroceryItems]
    returns exactly when every entry is an object whose article and
    category are strings that are not empty; it then returns one item
    per entry, in no case with quantity 0, with article and category
    trimmed, and otherwise throws the wrapped error; the table is not
    touched either way. *)
Theorem parseGroceryItems_accepts gemini groceryText entries db :
  gemini groceryText = Array entries ->
  (forallb wellShaped entries = true ->
   exists items,
     parseGroceryItems gemini groceryText db = (Returned items, db)
     /\ length items = length entries
     /\ Forall (fun v => p_quantity v <> 0%Z
                         /\ trim (p_article v) = p_article v
                         /\ trim (p_category v) = p_category v) items)
  /\ (forallb wellShaped entries = false ->
      exists cause,
        parseGroceryItems gemini groceryText db
        = (Thrown (FailedToParse cause), db)).
Proof.
  intros Hg. unfold parseGroceryItems. rewrite Hg.
  destruct (validateItems_wellShaped entries) as [Ht Hf]. split; intros H.
  - destruct (Ht H) as (items & -> & Hrest). now exists items.
  - destruct (Hf H) as (cause & ->). now exists cause.
Qed.

Lemma parseGroceryItems_accepts_witness :
  exists items,
    parseGroceryItems
      (fun _ => Array [Obj (Str " lait ") None (Str "Produits laitiers");
                       Obj (Str "pain") (Some 0%Z) (Str "Boulangerie")])
      "lait" (table []) = (Returned items, table [])
    /\ length items = 2
    /\ Forall (fun v => p_quantity v <> 0%Z
                        /\ trim (p_article v) = p_article v
                        /\ trim (p_category v) = p_category v) items.
Proof.
  apply (proj1 (parseGroceryItems_accepts
                  (fun _ => Array [Obj (Str " lait ") None
                                     (Str "Produits laitiers");
                                   Obj (Str "pain") (Some 0%Z)
                                     (Str "Boulangerie")])
                  "lait"
                  [Obj (Str " lait ") None (Str "Produits laitiers");
                   Obj (Str "pain") (Some 0%Z) (Str "Boulangerie")]
                  (table []) eq_refl)).
  reflexivity.
Defined.

(** ** The rows of a batch *)

Lemma maxId_app a b : maxId (a ++ b) = Nat.max (maxId a) (maxId b).
Proof.
  unfold maxId in *.
  induction a as [| x a IH]; cbn [app fold_right]; [reflexivity|].
  rewrite IH. lia.
Qed.

Lemma nextId_insert it db : nextId (snd (sqlInsert it db)) = S (nextId db).
Proof.
  unfold nextId, sqlInsert. cbn [snd grocery_items sqlite_sequence].
  rewrite maxId_app. unfold maxId. cbn [fold_right id]. lia.
Qed.

Lemma save_new data db :
  id data = 0 ->
  save (newGroceryItem data) db
  = (Returned (setId (newGroceryItem data) (nextId db)),
     snd (sqlInsert (newGroceryItem data) db)).
Proof.
  intros H. unfold save. change (id (newGroceryItem data)) with (id data).
  rewrite H. reflexivity.
Qed.

Lemma saveParsedItems_loop st batchId parsedItems :
  isEmpty st = false ->
  forall added db,
  exists db',
    forEach parsedItems added
      (fun added newItem =>
         if isEmpty (p_article newItem) || isEmpty (p_category newItem)
         then ret added
         else
           groceryItem <- save (newGroceryItem
             {| id := 0; article := p_article newItem;
                quantity := p_quantity newItem;
                category := p_category newItem;
                status := st; batch_id := Some batchId;
                created_at := 0; note := None |}) ;;
           ret (added ++ [groceryItem])%list) db
    = (Returned (added ++ rowsFor st batchId 0 (nextId db) parsedItems)%list,
       db')
    /\ grocery_items db'
       = (grocery_items db
          ++ rowsFor st batchId (clock db) (nextId db) parsedItems)%list
    /\ clock db' = clock db
    /\ (rowsFor st batchId 0 (nextId db) parsedItems = [] -> db' = db).
Proof.
  intros Hst. induction parsedItems as [| newItem rest IH]; intros added db.
  - exists db. simpl. now rewrite !app_nil_r.
  - cbn [forEach rowsFor]. unfold savable.
    destruct (isEmpty (p_article newItem) || isEmpty (p_category newItem));
      cbn [negb].
    + destruct (IH added db) as (db' & H1 & H2 & H3 & H4). exists db'.
      rewrite (bind_returned _ _ db added db) by reflexivity. auto.
    + erewrite bind_returned.
      2:{ erewrite bind_returned by (apply save_new; reflexivity).
          reflexivity. }
      destruct (IH (added ++
                    [setId (newGroceryItem
                       {| id := 0; article := p_article newItem;
                          quantity := p_quantity newItem;
                          category := p_category newItem;
                          status := st; batch_id := Some batchId;
                          created_at := 0; note := None |}) (nextId db)])%list
                  (snd (sqlInsert (newGroceryItem
                       {| id := 0; article := p_article newItem;
                          quantity := p_quantity newItem;
                          category := p_category newItem;
                          status := st; batch_id := Some batchId;
                          created_at := 0; note := None |}) db)))
        as (db' & H1 & H2 & H3 & _).
      exists db'. rewrite H1, H2, H3, nextId_insert.
      unfold sqlInsert, newGroceryItem, setId, rowFor.
      cbn [snd grocery_items clock id article quantity category status
           batch_id created_at note].
      rewrite Hst, <- !app_assoc. repeat split; auto. discriminate.
Qed.



Lemma rowsFor_withOriginalInput st batchId now unparsedLines items :
  forall cachedItems i index,
  rowsFor st batchId now i
    (cachedItems ++ AutoAdd.withOriginalInput unparsedLines index items)
  = rowsFor st batchId now i (cachedItems ++ items).
Proof.
  induction cachedItems as [| c cachedItems IH]; intros i index.
  - cbn [app]. revert i index.
    induction items as [| x items IHi]; intros i index; [reflexivity|].
    cbn [AutoAdd.withOriginalInput rowsFor]. unfold savable, rowFor.
    cbn [p_article p_category p_quantity].
    destruct (negb (isEmpty (p_article x) || isEmpty (p_category x)));
      now rewrite IHi.
  - cbn [app rowsFor]. destruct (savable c); now rewrite IH.
Qed.



(** ** Rows that an operation does not touch *)

Lemma rowById_map i j (f : GroceryItem -> GroceryItem) db :
  (forall x, id (f x) = id x) ->
  rowById j
    (withRows db (map (fun x => if Nat.eqb (id x) i then f x else x)
                    (grocery_items db)))
  = option_map (fun x => if Nat.eqb (id x) i then f x else x) (rowById j db).
Proof.
  intros Hf. unfold rowById, firstRow. cbn [withRows grocery_items].
  induction (grocery_items db) as [| x rows IH]; [reflexivity|].
  cbn [map find].
  assert (E : id (if Nat.eqb (id x) i then f x else x) = id x).
  { destruct (Nat.eqb (id x) i); [apply Hf | reflexivity]. }
  rewrite E. destruct (Nat.eqb (id x) j); [reflexivity | exact IH].
Qed.

Lemma rowById_map_other i j (f : GroceryItem -> GroceryItem) db :
  (forall x, id (f x) = id x) -> j <> i ->
  rowById j
    (withRows db (map (fun x => if Nat.eqb (id x) i then f x else x)
                    (grocery_items db)))
  = rowById j db.
Proof.
  intros Hf Hne. rewrite rowById_map by exact Hf.
  destruct (rowById j db) as [r |] eqn:Hr; [| reflexivity].
  apply rowById_some in Hr as [_ Hid]. cbn [option_map].
  destruct (Nat.eqb_spec (id r) i); [congruence | reflexivity].
Qed.

Lemma rowById_map_same i (f : GroceryItem -> GroceryItem) db :
  (forall x, id (f x) = id x) ->
  rowById i
    (withRows db (map (fun x => if Nat.eqb (id x) i then f x else x)
                    (grocery_items db)))
  = option_map f (rowById i db).
Proof.
  intros Hf. rewrite rowById_map by exact Hf.
  destruct (rowById i db) as [r |] eqn:Hr; [| reflexivity].
  apply rowById_some in Hr as [_ Hid]. cbn [option_map].
  now rewrite Hid, Nat.eqb_refl.
Qed.

Lemma map_untouched i (f : GroceryItem -> GroceryItem) db :
  rowById i db = None ->
  withRows db (map (fun x => if Nat.eqb (id x) i then f x else x)
                 (grocery_items db))
  = db.
Proof.
  intros H.
  transitivity (withRows db (grocery_items db)); [| apply withRows_same].
  f_equal. unfold rowById, firstRow in H.
  transitivity (map (fun x : GroceryItem => x) (grocery_items db));
    [| apply map_id].
  apply map_ext_in.
  intros x Hx. destruct (Nat.eqb (id x) i) eqn:E; [| reflexivity].
  now rewrite (find_none _ _ H x Hx) in E.
Qed.

Lemma changes_found (p : GroceryItem -> bool) rows :
  Nat.ltb 0 (length (filter p rows))
  = match find p rows with Some _ => true | None => false end.
Proof.
  induction rows as [| x rows IH]; [reflexivity|]. simpl.
  destruct (p x); [reflexivity | exact IH].
Qed.

(** ** A confirmation that is refused *)

(** X12. [confirmItemFromBatch] refuses an item that is not there and
    an item that is neither to confirm nor pending (one that was
    selected or found in the shop, say): it throws, naming the id and
    the status, and the table is as before; the confirm button then
    answers with a failure and changes nothing either. *)
Theorem confirmItemFromBatch_rejects itemId db :
  (forall r, rowById itemId db = Some r ->
     status r <> "confirming" /\ status r <> "pending" /\ status r <> "") ->
  confirmItemFromBatch itemId db
  = (Thrown match rowById itemId db with
            | Some r => NotConfirming itemId (status r)
            | None => ItemNotFound itemId
            end, db)
  /\ forall batchId, exists reply,
       ExplicitHandlers.handleConfirmItem batchId itemId db
       = (Returned reply, db)
       /\ (reply = ItemNotFoundOrBatchMismatch \/ reply = FailedToAddItem).
Proof.
  intros H.
  assert (Hc : confirmItemFromBatch itemId db
               = (Thrown match rowById itemId db with
                         | Some r => NotConfirming itemId (status r)
                         | None => ItemNotFound itemId
                         end, db)).
  { unfold confirmItemFromBatch.
    rewrite (bind_returned _ _ _ _ _ (findById_eq itemId db)).
    destruct (rowById itemId db) as [r |]; [| reflexivity].
    destruct (H r eq_refl) as (H1 & H2 & H3). cbn [option_map].
    assert (Hs : status (newGroceryItem r) = status r).
    { unfold newGroceryItem. cbn [status].
      destruct (isEmpty (status r)) eqn:E; [| reflexivity].
      apply isEmpty_true in E. contradiction. }
    rewrite Hs.
    apply String.eqb_neq in H1, H2. now rewrite H1, H2. }
  split; [exact Hc|]. intros batchId.
  unfold ExplicitHandlers.handleConfirmItem, catch.
  rewrite (bind_returned _ _ _ _ _ (findById_eq itemId db)).
  destruct (rowById itemId db) as [r |] eqn:Hr;
    [| exists ItemNotFoundOrBatchMismatch; auto].
  cbn [option_map].
  destruct (negb (strictEqual (batch_id (newGroceryItem r)) batchId));
    [exists ItemNotFoundOrBatchMismatch; auto|].
  rewrite (bind_thrown _ _ _ _ _ Hc). exists FailedToAddItem. auto.
Qed.

Lemma confirmItemFromBatch_rejects_witness :
  confirmItemFromBatch 1
    (table [row 1 "lait" 2 "Produits laitiers" "selected" "a1b2c3d4" 100])
  = (Thrown (NotConfirming 1 "selected"),
     table [row 1 "lait" 2 "Produits laitiers" "selected" "a1b2c3d4" 100])
  /\ forall batchId, exists reply,
       ExplicitHandlers.handleConfirmItem batchId 1
         (table [row 1 "lait" 2 "Produits laitiers" "selected" "a1b2c3d4" 100])
       = (Returned reply,
          table [row 1 "lait" 2 "Produits laitiers" "selected" "a1b2c3d4" 100])
       /\ (reply = ItemNotFoundOrBatchMismatch \/ reply = FailedToAddItem).
Proof.
  apply (confirmItemFromBatch_rejects 1
           (table [row 1 "lait" 2 "Produits laitiers" "selected" "a1b2c3d4"
                     100])).
  intros r [= <-]. repeat split; discriminate.
Defined.

(** ** A status change *)

(** X13. [handleItemStatus] writes whatever status the button carries:
    the reply says whether a row has the id, the row with the id takes
    the status and keeps its other columns, every other row is as
    before, and without such a row the table is unchanged. *)
Theorem handleItemStatus_effect itemId newStatus db :
  handleItemStatus itemId newStatus db
  = (Returned match rowById itemId db with
              | Some _ => StatusUpdated
              | None => FailedToUpdateItem
              end, withStatus db itemId newStatus)
  /\ rowById itemId (withStatus db itemId newStatus)
     = option_map (setStatus newStatus) (rowById itemId db)
  /\ (forall j, j <> itemId ->
        rowById j (withStatus db itemId newStatus) = rowById j db)
  /\ (rowById itemId db = None -> withStatus db itemId newStatus = db).
Proof.
  split; [| split; [| split]].
  - unfold handleItemStatus, updateItemStatus, updateStatus, bind, run, ret,
      sqlUpdate, withStatus.
    rewrite changes_found. unfold rowById, firstRow.
    now destruct (find _ (grocery_items db)).
  - unfold withStatus. now apply rowById_map_same.
  - intros j Hj. unfold withStatus. now apply rowById_map_other.
  - intros H. unfold withStatus. now apply map_untouched.
Qed.

(** ** An edit *)

(** X14. [editItem] touches the row of its id only: every other row is
    as before, and no row is added or removed.  For an id that no row
    has, [editItem] and [getItemForEdit] throw 'not found' and the
    quantity button answers with an error; the table is unchanged. *)
Theorem editItem_frame itemId newCategory newQuantity newNote db :
  wellFormed db ->
  (forall j, j <> itemId ->
     rowById j (snd (AutoAdd.editItem itemId newCategory newQuantity newNote db))
     = rowById j db)
  /\ map id (grocery_items
               (snd (AutoAdd.editItem itemId newCategory newQuantity newNote
                       db)))
     = map id (grocery_items db)
  /\ (rowById itemId db = None ->
      AutoAdd.editItem itemId newCategory newQuantity newNote db
      = (Thrown (ItemNotFound itemId), db)
      /\ AutoAdd.getItemForEdit itemId db = (Thrown (ItemNotFound itemId), db)
      /\ AutoAddHandlers.handleUpdateQuantity itemId newCategory newQuantity
           newNote db
         = (Returned ErrorUpdatingQuantity, db)).
Proof.
  intros Hwf.
  assert (Hmiss : rowById itemId db = None ->
                  AutoAdd.editItem itemId newCategory newQuantity newNote db
                  = (Thrown (ItemNotFound itemId), db)).
  { intros H. unfold AutoAdd.editItem.
    rewrite (bind_returned _ _ _ _ _ (findById_eq itemId db)). now rewrite H. }
  destruct (rowById itemId db) as [r |] eqn:Hr.
  - rewrite (editItem_eq db itemId r) by assumption. cbn [snd].
    split; [| split; [| discriminate]].
    + intros j Hj. now apply rowById_map_other.
    + cbn [withRows grocery_items].
      now apply (map_id_update
                   (stored (edited r newCategory newQuantity newNote))).
  - rewrite (Hmiss eq_refl). cbn [snd].
    split; [reflexivity | split; [reflexivity|]]. intros _.
    split; [reflexivity | split].
    + unfold AutoAdd.getItemForEdit.
      rewrite (bind_returned _ _ _ _ _ (findById_eq itemId db)).
      now rewrite Hr.
    + unfold AutoAddHandlers.handleUpdateQuantity, catch.
      now rewrite (bind_thrown _ _ _ _ _ (Hmiss eq_refl)).
Qed.

Lemma editItem_frame_witness :
  (forall j, j <> 2 ->
     rowById j (snd (AutoAdd.editItem 2 "Boissons" 4 None dbDrinks))
     = rowById j dbDrinks)
  /\ map id (grocery_items (snd (AutoAdd.editItem 2 "Boissons" 4 None dbDrinks)))
     = map id (grocery_items dbDrinks)
  /\ (rowById 2 dbDrinks = None ->
      AutoAdd.editItem 2 "Boissons" 4 None dbDrinks
      = (Thrown (ItemNotFound 2), dbDrinks)
      /\ AutoAdd.getItemForEdit 2 dbDrinks = (Thrown (ItemNotFound 2), dbDrinks)
      /\ AutoAddHandlers.handleUpdateQuantity 2 "Boissons" 4 None dbDrinks
         = (Returned ErrorUpdatingQuantity, dbDrinks)).
Proof.
  apply (editItem_frame 2 "Boissons" 4 None dbDrinks). wf_table.
Defined.

(** ** A category chosen by its index *)




Lemma asc_total (x y : GroceryItem) :
  Nat.leb (created_at x) (created_at y) = false ->
  Nat.leb (created_at y) (created_at x) = true.
Proof. intros H. apply Nat.leb_gt in H. apply Nat.leb_le. lia. Qed.

Lemma asc_trans (x y z : GroceryItem) :
  Nat.leb (created_at x) (created_at y) = true ->
  Nat.leb (created_at y) (created_at z) = true ->
  Nat.leb (created_at x) (created_at z) = true.
Proof. rewrite !Nat.leb_le. lia. Qed.

Lemma desc_total (x y : GroceryItem) :
  Nat.leb (created_at y) (created_at x) = false ->
  Nat.leb (created_at x) (created_at y) = true.
Proof. intros H. apply Nat.leb_gt in H. apply Nat.leb_le. lia. Qed.

Lemma desc_trans (x y z : GroceryItem) :
  Nat.leb (created_at y) (created_at x) = true ->
  Nat.leb (created_at z) (created_at y) = true ->
  Nat.leb (created_at z) (created_at x) = true.
Proof. rewrite !Nat.leb_le. lia. Qed.

Lemma status_new st r :
  st <> "pending" -> st <> "" ->
  String.eqb (status (newGroceryItem r)) st = String.eqb (status r) st.
Proof.
  intros Hst Hne. unfold newGroceryItem. cbn [status].
  destruct (isEmpty (status r)) eqn:E; [| reflexivity].
  apply isEmpty_true in E. rewrite E.
  destruct (String.eqb_spec "pending" st); [congruence|].
  destruct (String.eqb_spec "" st); [congruence | reflexivity].
Qed.

(** ** The summary of a cancelled batch *)

Lemma explicit_cancelBatch_eq db batchId :
  wellFormed db ->
  ExplicitConfirmation.cancelBatch batchId db
  = (Returned (length (filter (unconfirmedOf batchId) (grocery_items db))),
     withRows db (filter (fun r => negb (unconfirmedOf batchId r))
                    (grocery_items db))).
Proof.
  intros Hwf. unfold ExplicitConfirmation.cancelBatch.
  erewrite bind_returned by reflexivity.
  unfold orderByCreatedAsc.
  now rewrite (deleteEach_selected (unconfirmedOf batchId)).
Qed.

(** X16. The summary that [handleCancelBatch] shows agrees with what
    was done: the number of deleted rows is the number of items listed
    as cancelled, none of these is in the table any more, every item
    listed as added is still there with its row unchanged, and no row
    of another batch is lost. *)
Theorem handleCancelBatch_summary batchId db :
  wellFormed db ->
  exists summary db',
    MoreHandlers.handleCancelBatch batchId db = (Returned summary, db')
    /\ MoreHandlers.deletedCount summary
       = length (MoreHandlers.remainingItems summary)
    /\ (forall it, In it (MoreHandlers.remainingItems summary) ->
          rowById (id it) db' = None)
    /\ (forall it, In it (MoreHandlers.addedItems summary) ->
          exists r, rowById (id it) db = Some r
                    /\ rowById (id it) db' = Some r
                    /\ it = newGroceryItem r)
    /\ (forall r, In r (grocery_items db) -> batchIs batchId r = false ->
          In r (grocery_items db')).
Proof.
  intros Hwf. unfold MoreHandlers.handleCancelBatch.
  erewrite bind_returned by reflexivity.
  rewrite (bind_returned _ _ _ _ _ (explicit_cancelBatch_eq db batchId Hwf)).
  eexists _, _. split; [reflexivity|].
  cbn [MoreHandlers.deletedCount MoreHandlers.remainingItems
       MoreHandlers.addedItems].
  pose proof (wellFormed_delete (unconfirmedOf batchId) db Hwf) as Hwf'.
  unfold sqlDelete in Hwf'. cbn [snd] in Hwf'.
  set (db' := withRows db (filter (fun r => negb (unconfirmedOf batchId r))
                             (grocery_items db))) in *.
  assert (Hin : forall it st,
            In it (filter (fun item => String.eqb (status item) st)
                     (map newGroceryItem
                        (orderByCreatedAsc
                           (filter (batchIs batchId) (grocery_items db))))) ->
            exists r, it = newGroceryItem r /\ In r (grocery_items db)
                      /\ batchIs batchId r = true
                      /\ String.eqb (status (newGroceryItem r)) st = true).
  { intros it st H. apply filter_In in H as [H Hs].
    apply in_map_iff in H as [r [<- Hr]]. unfold orderByCreatedAsc in Hr.
    apply sortBy_In, filter_In in Hr as [Hr Hb]. now exists r. }
  split; [| split; [| split]].
  - rewrite filter_map_comm
      by (intros; apply (status_new "confirming"); discriminate).
    rewrite length_map. unfold orderByCreatedAsc.
    rewrite (sortBy_filter_comm _ asc_total asc_trans), sortBy_length.
    rewrite filter_twice. reflexivity.
  - intros it H. destruct (Hin it _ H) as (r & -> & Hr & Hb & Hs).
    rewrite status_new in Hs by discriminate.
    change (id (newGroceryItem r)) with (id r).
    destruct (rowById (id r) db') as [x |] eqn:Hx; [| reflexivity].
    apply rowById_some in Hx as [Hx Hid]. unfold db' in Hx.
    cbn [withRows grocery_items] in Hx. apply filter_In in Hx as [Hx Hu].
    destruct Hwf as [Hnd _].
    rewrite (same_id_same_row _ x r Hnd Hx Hr Hid) in Hu.
    unfold unconfirmedOf in Hu. rewrite Hb, Hs in Hu. discriminate.
  - intros it H. destruct (Hin it _ H) as (r & -> & Hr & Hb & Hs).
    exists r. change (id (newGroceryItem r)) with (id r).
    split; [apply rowById_unique; [apply Hwf | exact Hr]|].
    split; [| reflexivity].
    apply rowById_unique; [apply Hwf'|].
    unfold db'. cbn [withRows grocery_items]. apply filter_In.
    split; [exact Hr|]. unfold unconfirmedOf. rewrite Hb. cbn [andb].
    apply negb_true_iff. apply String.eqb_neq. intros E.
    unfold newGroceryItem in Hs. cbn [status] in Hs. rewrite E in Hs.
    discriminate.
  - intros r Hr Hb. unfold db'. cbn [withRows grocery_items].
    apply filter_In. split; [exact Hr|]. unfold unconfirmedOf. now rewrite Hb.
Qed.

Lemma handleCancelBatch_summary_witness :
  exists summary db',
    MoreHandlers.handleCancelBatch "b1" dbFive = (Returned summary, db')
    /\ MoreHandlers.deletedCount summary
       = length (MoreHandlers.remainingItems summary)
    /\ (forall it, In it (MoreHandlers.remainingItems summary) ->
          rowById (id it) db' = None)
    /\ (forall it, In it (MoreHandlers.addedItems summary) ->
          exists r, rowById (id it) dbFive = Some r
                    /\ rowById (id it) db' = Some r
                    /\ it = newGroceryItem r)
    /\ (forall r, In r (grocery_items dbFive) -> batchIs "b1" r = false ->
          In r (grocery_items db')).
Proof.
  apply (handleCancelBatch_summary "b1" dbFive). wf_table.
Defined.

(** ** Clearing the found items *)

Lemma filter_idem {A} (p : A -> bool) l : filter p (filter p l) = filter p l.
Proof.
  rewrite filter_twice. apply filter_ext. intros x. now destruct (p x).
Qed.

Lemma filter_none {A} (p q : A -> bool) l :
  (forall x, q x = true -> p x = false) -> filter p (filter q l) = [].
Proof.
  intros H. induction l as [| x l IH]; [reflexivity|]. simpl.
  destruct (q x) eqn:Q; [| exact IH]. simpl. now rewrite (H x Q).
Qed.

Lemma allOf_filter (p : GroceryItem -> bool) (q : GroceryItem -> bool) db :
  (forall r, q (newGroceryItem r) = p r) ->
  allOf (withRows db (filter p (grocery_items db))) = filter q (allOf db).
Proof.
  intros H. unfold allOf, orderByCreatedDesc. cbn [withRows grocery_items].
  rewrite <- (sortBy_filter_comm _ desc_total desc_trans).
  induction (sortBy _ (grocery_items db)) as [| r l IH]; [reflexivity|].
  cbn [filter map]. rewrite H. destruct (p r); cbn [map]; now rewrite IH.
Qed.

Lemma notFoundYet_new r :
  notFoundYet (newGroceryItem r) = negb (String.eqb (status r) "found").
Proof.
  unfold notFoundYet. now rewrite status_new by discriminate.
Qed.

(** X17. [clearFoundItems] deletes the found items and nothing else:
    its count is the number of items that the shopping list showed as
    found, and the shopping list read afterwards shows no found item
    and the same active items, in the same order and groups. *)
Theorem clearFoundItems_effect cmp db before :
  getAllItemsSorted cmp db = (Returned before, db) ->
  exists db',
    clearFoundItems db = (Returned (length (foundItems before)), db')
    /\ getAllItemsSorted cmp db'
       = (Returned {| allItems := filter notFoundYet (allItems before);
                      activeItems := activeItems before;
                      foundItems := [];
                      grouped := grouped before |}, db')
    /\ forall r, In r (grocery_items db')
                 <-> In r (grocery_items db) /\ status r <> "found".
Proof.
  rewrite getAllItemsSorted_eq. intros [= <-].
  cbn [allItems activeItems foundItems grouped].
  exists (withRows db (filter (fun r => negb (String.eqb (status r) "found"))
                         (grocery_items db))).
  split; [| split].
  - unfold clearFoundItems, deleteByStatus, run, sqlDelete. f_equal. f_equal.
    unfold allOf, orderByCreatedDesc.
    rewrite filter_map_comm by (intros; apply status_new; discriminate).
    rewrite length_map, (sortBy_filter_comm _ desc_total desc_trans).
    now rewrite sortBy_length.
  - rewrite getAllItemsSorted_eq. unfold activeOf.
    rewrite (allOf_filter _ notFoundYet) by apply notFoundYet_new.
    rewrite filter_idem.
    rewrite (filter_none (fun item => String.eqb (status item) "found")
               notFoundYet); [reflexivity|].
    intros x Hx. unfold notFoundYet in Hx. now apply negb_true_iff in Hx.
  - intros r. cbn [withRows grocery_items]. rewrite filter_In.
    rewrite negb_true_iff, String.eqb_neq. reflexivity.
Qed.

Lemma clearFoundItems_effect_witness :
  exists db',
    clearFoundItems dbPain = (Returned 1, db')
    /\ getAllItemsSorted byteCompare db'
       = (Returned {| allItems := [painNew];
                      activeItems := [painNew];
                      foundItems := [];
                      grouped := [("Boulangerie", [painNew])] |}, db')
    /\ forall r, In r (grocery_items db')
                 <-> In r (grocery_items dbPain) /\ status r <> "found".
Proof.
  apply (clearFoundItems_effect byteCompare dbPain
           {| allItems := [painNew; painFound];
              activeItems := [painNew];
              foundItems := [painFound];
              grouped := [("Boulangerie", [painNew])] |}).
  reflexivity.
Defined.

(** ** Clearing the selection *)

Lemma hasIdIn_cons i ids r :
  hasIdIn (i :: ids) r = Nat.eqb (id r) i || hasIdIn ids r.
Proof. reflexivity. Qed.

Lemma updateStatus_eq i st db :
  updateStatus i st db
  = (Returned (Nat.ltb 0 (length (filter (fun r => Nat.eqb (id r) i)
                                    (grocery_items db)))),
     withStatus db i st).
Proof. reflexivity. Qed.

Lemma updateEach_from st items : forall n db,
  incl (map id items) (map id (grocery_items db)) ->
  forEach items n
    (fun updatedCount item =>
       success <- updateStatus (id item) st ;;
       ret (if success : bool then S updatedCount else updatedCount)) db
  = (Returned (n + length items),
     withRows db
       (map (fun r => if hasIdIn (map id items) r then setStatus st r else r)
          (grocery_items db))).
Proof.
  induction items as [| item items IH]; intros n db Hincl.
  - cbn [forEach map length]. unfold ret. rewrite Nat.add_0_r. f_equal.
    transitivity (withRows db (grocery_items db));
      [symmetry; apply withRows_same|].
    f_equal. symmetry.
    transitivity (map (fun x : GroceryItem => x) (grocery_items db));
      [| apply map_id].
    apply map_ext. reflexivity.
  - cbn [forEach].
    assert (Hin : In (id item) (map id (grocery_items db))).
    { apply Hincl. now left. }
    apply in_map_iff in Hin as [r0 [Hid Hr0]].
    erewrite bind_returned.
    2:{ erewrite bind_returned by apply updateStatus_eq.
        rewrite (filter_nonempty_length _ _ r0 Hr0)
          by now apply Nat.eqb_eq.
        reflexivity. }
    rewrite IH.
    2:{ unfold withStatus. cbn [withRows grocery_items].
        rewrite (map_id_update (setStatus st)) by reflexivity.
        intros i Hi. apply Hincl. now right. }
    f_equal; [f_equal; cbn [length]; lia|].
    unfold withStatus. rewrite withRows_withRows. f_equal.
    cbn [withRows grocery_items]. rewrite map_map. apply map_ext. intros r.
    cbn [map]. rewrite hasIdIn_cons.
    destruct (Nat.eqb (id r) (id item)); cbn [orb].
    + change (hasIdIn (map id items) (setStatus st r))
        with (hasIdIn (map id items) r).
      now destruct (hasIdIn (map id items) r).
    + reflexivity.
Qed.

(** X18. [clearSelection] puts every selected item back to 'pending'
    and touches nothing else: on a table where id is a key, its count
    is the number of selected rows, these rows take status 'pending'
    and keep their other columns, and every other row is as before;
    no item is selected afterwards. *)
Theorem clearSelection_effect db :
  wellFormed db ->
  clearSelection db
  = (Returned (length (filter (fun r => String.eqb (status r) "selected")
                         (grocery_items db))),
     withRows db
       (map (fun r => if String.eqb (status r) "selected"
                      then setStatus "pending" r else r)
          (grocery_items db)))
  /\ fst (findByStatus "selected" (snd (clearSelection db))) = Returned [].
Proof.
  intros [Hnd Hpos].
  assert (E : clearSelection db
    = (Returned (length (filter (fun r => String.eqb (status r) "selected")
                           (grocery_items db))),
       withRows db
         (map (fun r => if String.eqb (status r) "selected"
                        then setStatus "pending" r else r)
            (grocery_items db)))).
  { unfold clearSelection.
    erewrite bind_returned by reflexivity.
    rewrite updateEach_from.
    2:{ rewrite map_id_new. unfold orderByCreatedDesc. intros i Hi.
        apply in_map_iff in Hi as [r [<- Hr]].
        apply sortBy_In, filter_In in Hr as [Hr _]. now apply in_map. }
    apply f_equal2.
    - apply f_equal. rewrite length_map. unfold orderByCreatedDesc.
      now rewrite sortBy_length.
    - apply f_equal. apply map_ext_in. intros r Hr. rewrite map_id_new.
      destruct (String.eqb (status r) "selected") eqn:Es.
      + assert (H : hasIdIn
                      (map id (orderByCreatedDesc
                                 (filter (fun r => String.eqb (status r)
                                                     "selected")
                                    (grocery_items db)))) r = true).
        { apply hasIdIn_true. apply in_map. unfold orderByCreatedDesc.
          apply sortBy_In, filter_In. now split. }
        now rewrite H.
      + destruct (hasIdIn _ r) eqn:H; [| reflexivity].
        apply hasIdIn_true, in_map_iff in H as [r' [Hid Hr']].
        unfold orderByCreatedDesc in Hr'.
        apply sortBy_In, filter_In in Hr' as [Hr' Hs'].
        rewrite (same_id_same_row _ r' r Hnd Hr' Hr Hid) in Hs'. congruence. }
  split; [exact E|]. rewrite E. cbn [snd]. unfold findByStatus, query.
  cbn [fst withRows grocery_items]. f_equal.
  assert (Hnone : filter (fun r => String.eqb (status r) "selected")
                    (map (fun r => if String.eqb (status r) "selected"
                                   then setStatus "pending" r else r)
                       (grocery_items db)) = []).
  { clear. induction (grocery_items db) as [| r l IH]; [reflexivity|].
    cbn [map filter].
    destruct (String.eqb (status r) "selected") eqn:Es.
    - cbn [setStatus status].
      change (String.eqb "pending" "selected") with false. exact IH.
    - rewrite Es. exact IH. }
  now rewrite Hnone.
Qed.

Lemma clearSelection_effect_witness :
  clearSelection
    (table [ row 1 "eau" 6 "Boissons" "selected" "a1b2c3d4" 100;
             row 2 "jus" 1 "Boissons" "found" "a1b2c3d4" 160 ])
  = (Returned 1,
     table [ row 1 "eau" 6 "Boissons" "pending" "a1b2c3d4" 100;
             row 2 "jus" 1 "Boissons" "found" "a1b2c3d4" 160 ])
  /\ fst (findByStatus "selected"
            (snd (clearSelection
                    (table [ row 1 "eau" 6 "Boissons" "selected" "a1b2c3d4" 100;
                             row 2 "jus" 1 "Boissons" "found" "a1b2c3d4" 160 ]))))
     = Returned [].
Proof.
  apply (clearSelection_effect
           (table [ row 1 "eau" 6 "Boissons" "selected" "a1b2c3d4" 100;
                    row 2 "jus" 1 "Boissons" "found" "a1b2c3d4" 160 ])).
  wf_table.
Defined.

(** ** The category menu *)

Lemma countOf_increment c k counts :
  CategoryMenu.countOf c (CategoryMenu.increment k counts)
  = CategoryMenu.countOf c counts + (if String.eqb k c then 1 else 0).
Proof.
  unfold CategoryMenu.countOf.
  induction counts as [| [k' n] r IH]; cbn [CategoryMenu.increment find fst].
  - destruct (String.eqb k c); reflexivity.
  - destruct (String.eqb_spec k' k) as [-> | Hne]; cbn [find fst snd].
    + destruct (String.eqb k c); cbn [snd]; lia.
    + destruct (String.eqb_spec k' c) as [-> | Hc]; [| exact IH].
      cbn [snd]. destruct (String.eqb_spec k c); [congruence | lia].
Qed.

Lemma countOf_fold c items : forall counts,
  CategoryMenu.countOf c
    (fold_left (fun counts item =>
                  CategoryMenu.increment (category item) counts)
       items counts)
  = CategoryMenu.countOf c counts
    + length (filter (fun item => String.eqb (category item) c) items).
Proof.
  induction items as [| item items IH]; intros counts; cbn [fold_left filter].
  - cbn [length]. lia.
  - rewrite IH, countOf_increment.
    destruct (String.eqb (category item) c); cbn [length]; lia.
Qed.

Lemma countOf_getCategoryCounts c items :
  CategoryMenu.countOf c (CategoryMenu.getCategoryCounts items)
  = length (filter (fun item => String.eqb (category item) c) items).
Proof. unfold CategoryMenu.getCategoryCounts. now rewrite countOf_fold. Qed.

(** X19. The category menu has a button for a category exactly when
    the category is in the list of categories, is not the name of a
    member that every object has, and some active item carries it; the
    number on the button is the number of these items.  An active item
    whose category is not in the list has no button. *)
Theorem categoryMenu_buttons CATEGORIES groceryData cat count :
  In [CategoryMenu.ShopCategory cat count]
    (CategoryMenu.createCategorySelectionKeyboard CATEGORIES groceryData)
  <-> In cat CATEGORIES
      /\ CategoryMenu.objectMember cat = false
      /\ 0 < count
      /\ count = length (filter (fun item => String.eqb (category item) cat)
                          (activeItems groceryData)).
Proof.
  unfold CategoryMenu.createCategorySelectionKeyboard.
  rewrite !in_app_iff, in_flat_map. split.
  - intros [(c & Hc & H) | [H | H]].
    + rewrite countOf_getCategoryCounts in H.
      destruct (CategoryMenu.objectMember c) eqn:Hm; cbn [negb andb] in H;
        [contradiction|].
      destruct (Nat.ltb_spec 0
                  (length (filter (fun item => String.eqb (category item) c)
                             (activeItems groceryData)))) as [Hpos | Hpos];
        [| contradiction].
      destruct H as [[= <- <-] | []]. auto.
    + destruct H as [H | []].
      destruct (Nat.ltb 0 (length (foundItems groceryData))); discriminate.
    + destruct (Nat.ltb 0 (length (activeItems groceryData)));
        [destruct H as [[=] | []] | contradiction].
  - intros (Hc & Hm & Hpos & ->). left. exists cat. split; [exact Hc|].
    rewrite countOf_getCategoryCounts, Hm.
    apply Nat.ltb_lt in Hpos. rewrite Hpos. now left.
Qed.

(** ** Escaping *)

Lemma replaceAll_app c by_ a b :
  Formatter.replaceAll c by_ (a ++ b)
  = Formatter.replaceAll c by_ a ++ Formatter.replaceAll c by_ b.
Proof.
  induction a as [| x a IH]; [reflexivity|]. cbn [append Formatter.replaceAll].
  rewrite IH. destruct (Ascii.eqb x c); [| reflexivity].
  now rewrite append_assoc'.
Qed.

Lemma escapeHtml_app a b :
  Formatter.escapeHtml (a ++ b)
  = Formatter.escapeHtml a ++ Formatter.escapeHtml b.
Proof. unfold Formatter.escapeHtml. now rewrite !replaceAll_app. Qed.

Lemma escapeHtml_char x :
  Formatter.escapeHtml (String x "") = Formatter.escapeChar x.
Proof. destruct x as [[] [] [] [] [] [] [] []]; reflexivity. Qed.

Lemma escapeChar_clean x :
  allb (fun y => negb (Formatter.isMarkup y)) (Formatter.escapeChar x) = true.
Proof. destruct x as [[] [] [] [] [] [] [] []]; reflexivity. Qed.

Lemma escapeChar_plain x :
  Formatter.isSpecial x = false -> Formatter.escapeChar x = String x "".
Proof. destruct x as [[] [] [] [] [] [] [] []]; (reflexivity || discriminate). Qed.

Lemma length_append_string a b :
  String.length (a ++ b) = String.length a + String.length b.
Proof. induction a as [| x a IH]; simpl; [reflexivity | now rewrite IH]. Qed.

Lemma escapeChar_length x :
  1 <= String.length (Formatter.escapeChar x)
  /\ (Formatter.isSpecial x = true ->
      2 <= String.length (Formatter.escapeChar x)).
Proof.
  destruct x as [[] [] [] [] [] [] [] []]; cbn; split;
    (lia || discriminate).
Qed.

Lemma escapeEach_length text :
  String.length text <= String.length (Formatter.escapeEach text).
Proof.
  induction text as [| x r IH]; [reflexivity|].
  cbn [Formatter.escapeEach String.length]. rewrite length_append_string.
  pose proof (proj1 (escapeChar_length x)). lia.
Qed.

Lemma escapeHtml_escapeEach text :
  Formatter.escapeHtml text = Formatter.escapeEach text.
Proof.
  induction text as [| x r IH]; [reflexivity|].
  change (String x r) with (String x "" ++ r).
  now rewrite escapeHtml_app, escapeHtml_char, IH.
Qed.

(** X20. [escapeHtml] escapes every character once: the result is the
    text with each of the five special characters replaced by its
    entity (the ampersand of an entity is not escaped again), no angle
    bracket or quote is left in it, a text without special characters
    is returned as it is, and escaping goes through concatenation. *)
Theorem escapeHtml_once text :
  Formatter.escapeHtml text = Formatter.escapeEach text
  /\ allb (fun y => negb (Formatter.isMarkup y)) (Formatter.escapeHtml text)
     = true
  /\ (allb (fun y => negb (Formatter.isSpecial y)) text = true
      <-> Formatter.escapeHtml text = text)
  /\ forall more,
       Formatter.escapeHtml (text ++ more)
       = Formatter.escapeHtml text ++ Formatter.escapeHtml more.
Proof.
  split; [apply escapeHtml_escapeEach|]. rewrite escapeHtml_escapeEach.
  split; [| split; [| intros; rewrite <- escapeHtml_escapeEach;
                      apply escapeHtml_app]].
  - induction text as [| x r IH]; [reflexivity|]. cbn [Formatter.escapeEach].
    now rewrite allb_app, escapeChar_clean, IH.
  - induction text as [| x r IH]; [now split|].
    cbn [allb Formatter.escapeEach]. split.
    + intros H. apply andb_true_iff in H as [Hx Hr].
      apply negb_true_iff in Hx. rewrite (escapeChar_plain x Hx).
      cbn [append]. f_equal. now apply IH.
    + intros H. destruct (Formatter.isSpecial x) eqn:Hx; cbn [negb andb].
      * exfalso. apply (f_equal String.length) in H.
        rewrite length_append_string in H. cbn [String.length] in H.
        pose proof (proj2 (escapeChar_length x) Hx).
        pose proof (escapeEach_length r). lia.
      * rewrite (escapeChar_plain x Hx) in H. cbn [append] in H.
        injection H as H. now apply IH.
Qed.

(** ** The buttons of the menu and their handlers *)

Lemma split_head sep s :
  exists h t, Routing.split sep s = h :: t
              /\ String.length h <= String.length s
              /\ (allb (fun x => negb (Ascii.eqb x sep)) s = true ->
                  h = s /\ t = [])
              /\ (allb (fun x => negb (Ascii.eqb x sep)) s = false ->
                  String.length h < String.length s).
Proof.
  induction s as [| x r (h & t & E & Hlen & Hall & Hsome)].
  - exists "", []. cbn. repeat split; auto; discriminate.
  - cbn [Routing.split allb String.length].
    destruct (Ascii.eqb x sep); cbn [negb andb].
    + exists "", (Routing.split sep r). cbn [String.length].
      repeat split; try lia; discriminate.
    + rewrite E. exists (String x h), t. cbn [String.length].
      split; [reflexivity|]. split; [lia|]. split.
      * intros H. destruct (Hall H) as [-> ->]. now split.
      * intros H. specialize (Hsome H). lia.
Qed.

Lemma split_at_first sep a b :
  allb (fun x => negb (Ascii.eqb x sep)) a = true ->
  Routing.split sep (a ++ String sep b) = a :: Routing.split sep b.
Proof.
  induction a as [| x a IH]; cbn [append allb Routing.split].
  - now rewrite Ascii.eqb_refl.
  - intros H. apply andb_true_iff in H as [Hx Ha].
    apply negb_true_iff in Hx. now rewrite Hx, (IH Ha).
Qed.

Lemma route_shopCategory cat :
  Routing.route ("shop-category:" ++ cat)
  = Routing.ShopCategoryRoute
      (nth_error (Routing.split Routing.colon cat) 0).
Proof.
  unfold Routing.route.
  change ("shop-category:" ++ cat)
    with ("shop-category" ++ String Routing.colon cat).
  rewrite split_at_first by reflexivity. reflexivity.
Qed.

(** X21. A button of the category menu reaches the handler it is meant
    for, with its category, exactly when the category has no colon:
    the callback data is split at every colon, so a category with a
    colon arrives cut.  With a list of categories that have no colon,
    every button of the menu is routed as meant. *)
Theorem menu_buttons_routed CATEGORIES groceryData :
  (forall cat count,
      Routing.route (Routing.callbackData (CategoryMenu.ShopCategory cat count))
      = Routing.meantFor (CategoryMenu.ShopCategory cat count)
      <-> Routing.noColon cat = true)
  /\ (Forall (fun c => Routing.noColon c = true) CATEGORIES ->
      forall row button,
        In row (CategoryMenu.createCategorySelectionKeyboard CATEGORIES
                  groceryData) ->
        In button row ->
        Routing.route (Routing.callbackData button) = Routing.meantFor button).
Proof.
  assert (Hiff : forall cat count,
             Routing.route
               (Routing.callbackData (CategoryMenu.ShopCategory cat count))
             = Routing.meantFor (CategoryMenu.ShopCategory cat count)
             <-> Routing.noColon cat = true).
  { intros cat count. cbn [Routing.callbackData Routing.meantFor].
    rewrite route_shopCategory. unfold Routing.noColon.
    destruct (split_head Routing.colon cat) as (h & t & -> & _ & Hall & Hsome).
    cbn [nth_error]. split.
    - intros [= ->].
      destruct (allb _ cat) eqn:E; [reflexivity|].
      specialize (Hsome eq_refl). lia.
    - intros H. now destruct (Hall H) as [-> _]. }
  split; [exact Hiff|].
  intros Hcats row button Hrow Hbutton.
  destruct button as [cat count | | |]; try reflexivity.
  apply Hiff. unfold CategoryMenu.createCategorySelectionKeyboard in Hrow.
  rewrite !in_app_iff, in_flat_map in Hrow.
  destruct Hrow as [(c & Hc & H) | [H | H]].
  - destruct (negb (CategoryMenu.objectMember c) && Nat.ltb 0 _);
      [| contradiction].
    destruct H as [<- | []]. destruct Hbutton as [[= <- <-] | []].
    rewrite Forall_forall in Hcats. now apply Hcats.
  - destruct H as [<- | []].
    destruct (Nat.ltb 0 (length (foundItems groceryData)));
      cbn in Hbutton; intuition discriminate.
  - destruct (Nat.ltb 0 (length (activeItems groceryData)));
      [| contradiction].
    destruct H as [<- | []]. cbn in Hbutton. intuition discriminate.
Qed.

(** ** The lines paired with the AI's items *)

Lemma skipn_nth_error {A} (l : list A) : forall k x,
  nth_error l k = Some x -> skipn k l = x :: skipn (S k) l.
Proof.
  induction l as [| y l IH]; intros [| k] x H; try discriminate.
  - now injection H as ->.
  - cbn [nth_error] in H. cbn [skipn]. rewrite (IH k x H). reflexivity.
Qed.

Lemma withOriginalInput_from unparsedLines items :
  Forall (fun line => isEmpty line = false) unparsedLines ->
  forall index,
  map originalInput (AutoAdd.withOriginalInput unparsedLines index items)
  = (firstn (length items) (skipn index unparsedLines)
     ++ map p_article (skipn (length unparsedLines - index) items))%list.
Proof.
  intros Hne. induction items as [| item items IH]; intros index.
  - cbn [AutoAdd.withOriginalInput map length firstn]. now rewrite skipn_nil.
  - cbn [AutoAdd.withOriginalInput map originalInput length].
    rewrite IH. unfold AutoAdd.originalOf.
    destruct (nth_error unparsedLines index) as [line |] eqn:E.
    + assert (Hlt : index < length unparsedLines).
      { apply nth_error_Some. congruence. }
      rewrite Forall_forall in Hne.
      rewrite (Hne line (nth_error_In _ _ E)).
      rewrite (skipn_nth_error _ _ _ E). cbn [firstn app].
      replace (length unparsedLines - index)
        with (S (length unparsedLines - S index)) by lia.
      reflexivity.
    + apply nth_error_None in E.
      rewrite (skipn_all2 unparsedLines) by lia.
      rewrite (skipn_all2 unparsedLines) by lia.
      replace (length unparsedLines - index) with 0 by lia.
      replace (length unparsedLines - S index) with 0 by lia.
      now rewrite !firstn_nil.
Qed.

(** X22. The auto-add service pairs the AI's items with the lines it
    sent by position alone: the i-th item takes the i-th line as its
    original input, whatever its article, and the items beyond the
    number of lines take their own article; article, quantity and
    category are passed on unchanged. *)
Theorem withOriginalInput_pairs cache groceryText items :
  map originalInput
    (AutoAdd.withOriginalInput (snd (parseWithCache cache groceryText)) 0 items)
  = (firstn (length items) (snd (parseWithCache cache groceryText))
     ++ map p_article
          (skipn (length (snd (parseWithCache cache groceryText))) items))%list
  /\ map (fun item => (p_article item, p_quantity item, p_category item))
       (AutoAdd.withOriginalInput (snd (parseWithCache cache groceryText)) 0
          items)
     = map (fun item => (p_article item, p_quantity item, p_category item))
         items.
Proof.
  split.
  - rewrite withOriginalInput_from.
    + now rewrite Nat.sub_0_r.
    + rewrite parseWithCache_loop. unfold cacheLoop.
      destruct (cacheStep_fold (findProduct cache) (nonBlankLines groceryText)
                  ([], []))
        as [-> _].
      cbn [snd app]. apply Forall_forall. intros line Hin.
      apply filter_In in Hin as [Hin _]. unfold nonBlankLines in Hin.
      apply filter_In in Hin as [_ Hin]. apply negb_true_iff in Hin.
      destruct line; [discriminate | reflexivity].
  - generalize 0 as index.
    induction items as [| item items IH]; intros index; [reflexivity|].
    cbn [AutoAdd.withOriginalInput map p_article p_quantity p_category].
    now rewrite IH.
Qed.


(** ** A text message *)

Lemma rowsFor_ids st batchId now parsedItems : forall i,
  map id (rowsFor st batchId now i parsedItems)
  = seq i (length (filter savable parsedItems)).
Proof.
  induction parsedItems as [| x items IH]; intros i; simpl; [reflexivity|].
  destruct (savable x); simpl; [now rewrite IH | apply IH].
Qed.

Lemma rowsFor_all st batchId now parsedItems : forall i,
  Forall (fun r => status r = st /\ batch_id r = Some batchId
                   /\ created_at r = now)
    (rowsFor st batchId now i parsedItems).
Proof.
  induction parsedItems as [| x items IH]; intros i; simpl; [constructor|].
  destruct (savable x); [constructor; [now cbn | apply IH] | apply IH].
Qed.

Lemma autoAdd_parse_cases cache gemini batchId groceryText db :
  (exists e,
      AutoAdd.parseItemsForConfirmation cache gemini batchId groceryText db
      = (Thrown e, db))
  \/ exists parsedItems db',
       AutoAdd.parseItemsForConfirmation cache gemini batchId groceryText db
       = (Returned (batchId,
                    rowsFor "pending" batchId 0 (nextId db) parsedItems), db')
       /\ grocery_items db'
          = (grocery_items db
             ++ rowsFor "pending" batchId (clock db) (nextId db)
                  parsedItems)%list
       /\ (rowsFor "pending" batchId 0 (nextId db) parsedItems = [] ->
           db' = db).
Proof.
  unfold AutoAdd.parseItemsForConfirmation, AutoAdd.afterCache.
  destruct (parseWithCache cache groceryText) as [cachedItems unparsedLines].
  assert (Hsave : forall geminiItems,
            exists db',
              (addedItems <- saveParsedItems "pending" batchId
                               (cachedItems ++ geminiItems) ;;
               ret (batchId, addedItems)) db
              = (Returned (batchId,
                           rowsFor "pending" batchId 0 (nextId db)
                             (cachedItems ++ geminiItems)), db')
              /\ grocery_items db'
                 = (grocery_items db
                    ++ rowsFor "pending" batchId (clock db) (nextId db)
                         (cachedItems ++ geminiItems))%list
              /\ (rowsFor "pending" batchId 0 (nextId db)
                    (cachedItems ++ geminiItems) = [] -> db' = db)).
  { intros geminiItems.
    destruct (saveParsedItems_loop "pending" batchId
                (cachedItems ++ geminiItems) eq_refl [] db)
      as (db' & H1 & H2 & _ & H4).
    exists db'. unfold saveParsedItems.
    rewrite (bind_returned _ _ _ _ _ H1). auto. }
  destruct (Nat.ltb 0 (length unparsedLines)).
  - destruct (parseGroceryItems gemini (joinLines unparsedLines) db)
      as [[items | e] db0] eqn:Hp.
    + pose proof (parseGroceryItems_reads_nothing gemini
                    (joinLines unparsedLines) db) as Hdb.
      rewrite Hp in Hdb. cbn [snd] in Hdb. subst db0.
      right.
      destruct (Hsave (AutoAdd.withOriginalInput unparsedLines 0 items))
        as (db' & H1 & H2 & H3).
      exists (cachedItems ++ items)%list, db'.
      erewrite bind_returned.
      2:{ erewrite bind_returned by exact Hp. reflexivity. }
      rewrite !rowsFor_withOriginalInput in *. auto.
    + left. exists e.
      pose proof (parseGroceryItems_reads_nothing gemini
                    (joinLines unparsedLines) db) as Hdb.
      rewrite Hp in Hdb. cbn [snd] in Hdb. subst db0.
      erewrite bind_thrown; [reflexivity|].
      erewrite bind_thrown; [reflexivity | exact Hp].
  - right. destruct (Hsave []) as (db' & H1 & H2 & H3).
    exists (cachedItems ++ [])%list, db'.
    rewrite (bind_returned _ _ db [] db) by reflexivity. auto.
Qed.

(** X23. A text message changes the list only when the reply says so:
    for a command, for a message without a valid item and for a failure
    of the AI, the table is left as it was; a reply that lists added
    items lists exactly the rows appended for this batch, all
    'pending', and at least one. *)
Theorem handleTextMessage_effect cache gemini batchId text db :
  exists reply db',
    TextMessages.handleTextMessage cache gemini batchId text db
    = (Returned reply, db')
    /\ (TextMessages.startsWithSlash text = true ->
        reply = TextMessages.IgnoredCommand)
    /\ match reply with
       | TextMessages.AutoAddedBatch b items =>
           b = batchId /\ items <> []
           /\ exists rows,
                grocery_items db' = (grocery_items db ++ rows)%list
                /\ map id rows = map id items
                /\ Forall (fun r => status r = "pending"
                                    /\ batch_id r = Some batchId
                                    /\ created_at r = clock db) rows
       | _ => db' = db
       end.
Proof.
  unfold TextMessages.handleTextMessage.
  destruct (TextMessages.startsWithSlash text).
  { exists TextMessages.IgnoredCommand, db. auto. }
  unfold catch.
  destruct (autoAdd_parse_cases cache gemini batchId (trim text) db)
    as [[e He] | (parsedItems & db' & He & Hrows & Hnone)].
  - rewrite (bind_thrown _ _ _ _ _ He).
    exists TextMessages.FailedToParseItems, db.
    repeat split; auto; discriminate.
  - rewrite (bind_returned _ _ _ _ _ He). cbn [fst snd].
    destruct (rowsFor "pending" batchId 0 (nextId db) parsedItems)
      as [| it items] eqn:E.
    + exists TextMessages.NoValidItems, db'. cbn [length Nat.eqb].
      repeat split; auto; discriminate.
    + exists (TextMessages.AutoAddedBatch batchId (it :: items)), db'.
      cbn [length Nat.eqb]. split; [reflexivity|].
      split; [discriminate|]. split; [reflexivity|].
      split; [discriminate|].
      exists (rowsFor "pending" batchId (clock db) (nextId db) parsedItems).
      split; [exact Hrows|]. split.
      * now rewrite <- E, !rowsFor_ids.
      * apply rowsFor_all.
Qed.

(** ** Witnesses of two facts shown above *)

Lemma confirm_in_place_twice_witness :
  let item := setPending (newGroceryItem laitFirst) in
  let db' := withRows dbShadowed
               (map (fun r => if Nat.eqb (id r) 1 then stored item r else r)
                  (grocery_items dbShadowed)) in
  confirmItemFromBatch 1 dbShadowed = (Returned item, db')
  /\ confirmItemFromBatch 1 db' = (Returned item, db').
Proof.
  apply (confirm_in_place_twice dbShadowed 1 laitFirst laitFirst);
    [wf_table | reflexivity | reflexivity | reflexivity | reflexivity].
Defined.

Lemma autoAdd_cancelBatch_all_witness :
  AutoAdd.cancelBatch "b1" dbFive
  = (Returned 5, withRows dbFive [row 6 "thon" 3 "Conserves" "confirming" "b2" 160]).
Proof.
  apply (autoAdd_cancelBatch_all dbFive "b1"). wf_table.
Defined.

(** ** A merge into an item that is not confirmed yet *)

Lemma rowById_filter_none (p : GroceryItem -> bool) i db :
  (forall r, In r (grocery_items db) -> id r = i -> p r = false) ->
  rowById i (withRows db (filter p (grocery_items db))) = None.
Proof.
  intros H.
  destruct (rowById i (withRows db (filter p (grocery_items db))))
    as [x |] eqn:Hx; [| reflexivity].
  apply rowById_some in Hx as [Hx Hid]. cbn [withRows grocery_items] in Hx.
  apply filter_In in Hx as [Hx Hp]. rewrite (H x Hx Hid) in Hp. discriminate.
Qed.

(** X26. The merge does not ask whether the item found by name was
    confirmed.  When it is an item of another batch that is still
    'confirming', the merged row stays 'confirming' and moves to the
    batch of the confirmed item, so the confirmed item does not reach
    the list; cancelling that batch afterwards deletes the merged row,
    and neither of the two items is left. *)
Theorem merge_into_unconfirmed db itemId batchId tempRow existingRow :
  wellFormed db ->
  rowById itemId db = Some tempRow ->
  status tempRow = "confirming" ->
  batch_id tempRow = Some batchId ->
  rowByArticle (article tempRow) db = Some existingRow ->
  sameBatch (batch_id existingRow) (batch_id tempRow) = false ->
  status existingRow = "confirming" ->
  exists merged db',
    confirmItemFromBatch itemId db = (Returned merged, db')
    /\ status merged = "confirming"
    /\ batch_id merged = Some batchId
    /\ (exists row, rowById (id existingRow) db' = Some row
                    /\ status row = "confirming"
                    /\ batch_id row = Some batchId)
    /\ rowById itemId db' = None
    /\ rowById (id existingRow)
         (snd (ExplicitConfirmation.cancelBatch batchId db')) = None
    /\ rowById itemId
         (snd (ExplicitConfirmation.cancelBatch batchId db')) = None.
Proof.
  intros Hwf Ht Hst Hbatch He Hb Hex.
  destruct (merge_effects db itemId tempRow existingRow Hwf Ht Hst He Hb)
    as (Hc & Hgone & Hrow & _).
  set (merged := mergeInto (newGroceryItem existingRow)
                   (newGroceryItem tempRow)) in *.
  set (db' := withRows db (mergedRows merged itemId (grocery_items db))) in *.
  assert (Hs : status merged = "confirming").
  { unfold merged, mergeInto, newGroceryItem. cbn [status].
    rewrite Hex. reflexivity. }
  assert (Hbm : batch_id merged = Some batchId) by exact Hbatch.
  assert (Hwf' : wellFormed db').
  { pose proof (keeps_confirmItemFromBatch itemId db Hwf) as H.
    now rewrite Hc in H. }
  exists merged, db'. split; [exact Hc|]. split; [exact Hs|].
  split; [exact Hbm|]. split.
  { exists (stored merged existingRow). split; [exact Hrow|].
    split; [exact Hs | exact Hbm]. }
  split; [exact Hgone|].
  rewrite (explicit_cancelBatch_eq db' batchId Hwf'). cbn [snd]. split.
  - apply rowById_filter_none. intros r Hr Hid.
    apply negb_false_iff.
    assert (E : r = stored merged existingRow).
    { destruct Hwf' as [Hnd _].
      apply (same_id_same_row (grocery_items db') r _ Hnd Hr).
      - now apply rowById_some in Hrow.
      - exact Hid. }
    subst r. unfold unconfirmedOf, batchIs. cbn [stored batch_id status].
    rewrite Hbm, Hs, String.eqb_refl. reflexivity.
  - apply rowById_filter_none. intros r Hr Hid. exfalso.
    unfold rowById, firstRow in Hgone.
    pose proof (find_none _ _ Hgone r Hr) as Hn. cbn in Hn.
    rewrite Hid, Nat.eqb_refl in Hn. discriminate.
Qed.

Lemma merge_into_unconfirmed_witness :
  exists merged db',
    confirmItemFromBatch 2
      (table [row 1 "lait" 2 "Produits laitiers" "confirming" "a1b2c3d4" 100;
              laitNew])
    = (Returned merged, db')
    /\ status merged = "confirming"
    /\ batch_id merged = Some "e5f6a7b8"
    /\ (exists row, rowById 1 db' = Some row
                    /\ status row = "confirming"
                    /\ batch_id row = Some "e5f6a7b8")
    /\ rowById 2 db' = None
    /\ rowById 1 (snd (ExplicitConfirmation.cancelBatch "e5f6a7b8" db')) = None
    /\ rowById 2 (snd (ExplicitConfirmation.cancelBatch "e5f6a7b8" db')) = None.
Proof.
  apply (merge_into_unconfirmed
           (table [row 1 "lait" 2 "Produits laitiers" "confirming" "a1b2c3d4"
                     100; laitNew])
           2 "e5f6a7b8" laitNew
           (row 1 "lait" 2 "Produits laitiers" "confirming" "a1b2c3d4" 100));
    try reflexivity.
  wf_table.
Defined.
